(** * FireDownload: download queue, worker retry loop and URL validation

    A shallow embedding of the queue/worker core of [FireDownload.py]
    ([Utils.validate_url], [DownloadWorker], [DownloadManager] and the
    [MainWindow] slots wired to the manager's signals), together with the
    properties of that core.

    Conventions.
    - Python [str] values are [string]s; the text handled here is ASCII.
    - A Python [dict] whose iteration order is observed
      ([next(iter(d.keys()))]) is an association list kept in insertion
      order, with Python's rules: assigning to a present key keeps its
      position, assigning to a new key appends, [del] removes.
    - Qt signals emitted by a method are appended to a log carried by the
      state, oldest first.
    - Byte counts are [Z]; quotients computed by the progress hook are
      exact rationals ([Q]). *)

From Stdlib Require Import List String Ascii Bool Arith ZArith QArith Lia.
From Stdlib Require Import Qminmax Lqa.
Import ListNotations.

Local Open Scope string_scope.
Local Open Scope list_scope.

(** ** Python string primitives used by the source *)

Module PyStr.

(** [c.lower()] on an ASCII character. *)
Definition lower_ascii (c : ascii) : ascii :=
  let n := nat_of_ascii c in
  if (65 <=? n)%nat && (n <=? 90)%nat then ascii_of_nat (n + 32) else c.

(** [s.lower()]. *)
Fixpoint lower (s : string) : string :=
  match s with
  | EmptyString => EmptyString
  | String c r => String (lower_ascii c) (lower r)
  end.

(** [s.startswith(p)]. *)
Fixpoint startswith (p s : string) : bool :=
  match p, s with
  | EmptyString, _ => true
  | String _ _, EmptyString => false
  | String a p', String b s' => Ascii.eqb a b && startswith p' s'
  end.

(** [d in s] for strings: [d] occurs in [s] as a contiguous substring. *)
Fixpoint contains (d s : string) : bool :=
  startswith d s ||
  match s with
  | EmptyString => false
  | String _ r => contains d r
  end.

(** [s.replace(old, new)] for a non-empty [old] (both call sites pass a
    literal): every non-overlapping occurrence, scanning left to right,
    is replaced.  [skip] counts the characters of a matched occurrence
    still to be dropped. *)
Fixpoint replace_from (old new : string) (skip : nat) (s : string) : string :=
  match s with
  | EmptyString => EmptyString
  | String c r =>
      match skip with
      | S k => replace_from old new k r
      | O =>
          if startswith old s
          then new ++ replace_from old new (String.length old - 1) r
          else String c (replace_from old new 0 r)
      end
  end.

Definition replace (old new s : string) : string := replace_from old new 0 s.

(** [s.find(c)] for a one-character needle: index of the first
    occurrence, [None] for Python's [-1]. *)
Fixpoint find_char (c : ascii) (s : string) : option nat :=
  match s with
  | EmptyString => None
  | String a r =>
      if Ascii.eqb a c then Some O
      else option_map S (find_char c r)
  end.

(** [s[:n]] and [s[n:]]. *)
Fixpoint take (n : nat) (s : string) : string :=
  match n, s with
  | S k, String c r => String c (take k r)
  | _, _ => EmptyString
  end.

Fixpoint drop (n : nat) (s : string) : string :=
  match n, s with
  | S k, String _ r => drop k r
  | _, _ => s
  end.

Fixpoint forallb_str (p : ascii -> bool) (s : string) : bool :=
  match s with
  | EmptyString => true
  | String c r => p c && forallb_str p r
  end.

Fixpoint filter_str (p : ascii -> bool) (s : string) : string :=
  match s with
  | EmptyString => EmptyString
  | String c r => if p c then String c (filter_str p r) else filter_str p r
  end.

(** [s.lstrip(chars)] with membership in [chars] given as a predicate. *)
Fixpoint lstrip (p : ascii -> bool) (s : string) : string :=
  match s with
  | EmptyString => EmptyString
  | String c r => if p c then lstrip p r else s
  end.

(** [c.isspace()] on an ASCII character: tab, LF, VT, FF, CR, the
    separators 28 to 31 and the space. *)
Definition is_space (c : ascii) : bool :=
  let n := nat_of_ascii c in
  ((9 <=? n) && (n <=? 13) || (28 <=? n) && (n <=? 32))%nat.

(** [s.rstrip()]. *)
Fixpoint rstrip_space (s : string) : string :=
  match s with
  | EmptyString => EmptyString
  | String c r =>
      match rstrip_space r with
      | EmptyString => if is_space c then EmptyString else String c EmptyString
      | r' => String c r'
      end
  end.

(** [s.strip()]. *)
Definition strip (s : string) : string := rstrip_space (lstrip is_space s).

(** [s.split(sep)] for a one-character separator: the fields between
    the separators, at least one. *)
Fixpoint split_on (sep : ascii) (s : string) : list string :=
  match s with
  | EmptyString => [EmptyString]
  | String c r =>
      if Ascii.eqb c sep then EmptyString :: split_on sep r
      else match split_on sep r with
           | [] => [String c EmptyString]
           | field :: fields => String c field :: fields
           end
  end.

End PyStr.

(** ** The part of [urllib.parse.urlparse] that [validate_url] reads

    [urlparse] belongs to Python's standard library, not to the program.
    The model gives the two fields the program reads, [scheme] and
    [netloc], as CPython 3.12's [urlsplit] computes them on ASCII text:
    leading C0-control/space characters are stripped, tab/CR/LF are
    removed, a leading [scheme:] is split off when it is made of scheme
    characters and starts with a letter, and after [//] the network
    location runs up to the first of [/], [?], [#].  [None] stands for
    the [ValueError] raised on an unbalanced square bracket; the further
    validation of a bracketed IPv6 host is not modelled. *)

Module Urllib.
Import PyStr.

Record ParseResult := { scheme : string; netloc : string }.

Definition is_alpha (c : ascii) : bool :=
  let n := nat_of_ascii c in
  ((65 <=? n) && (n <=? 90) || (97 <=? n) && (n <=? 122))%nat.

Definition is_digit (c : ascii) : bool :=
  let n := nat_of_ascii c in ((48 <=? n) && (n <=? 57))%nat.

(** [scheme_chars]: letters, digits and [+-.]. *)
Definition scheme_char (c : ascii) : bool :=
  is_alpha c || is_digit c ||
  Ascii.eqb c "+" || Ascii.eqb c "-" || Ascii.eqb c ".".

Definition c0_or_space (c : ascii) : bool := (nat_of_ascii c <=? 32)%nat.

Definition unsafe_byte (c : ascii) : bool :=
  Ascii.eqb c "009" || Ascii.eqb c "010" || Ascii.eqb c "013".

Definition netloc_delim (c : ascii) : bool :=
  Ascii.eqb c "/" || Ascii.eqb c "?" || Ascii.eqb c "#".

(** [_splitnetloc(url, 2)[0]] applied to the text after [//]. *)
Fixpoint upto_delim (s : string) : string :=
  match s with
  | EmptyString => EmptyString
  | String c r => if netloc_delim c then EmptyString else String c (upto_delim r)
  end.

Definition split_scheme (url : string) : string * string :=
  match find_char ":" url with
  | Some (S i) =>
      match url with
      | String c0 _ =>
          if is_alpha c0 && forallb_str scheme_char (take (S i) url)
          then (lower (take (S i) url), drop (S (S i)) url)
          else (EmptyString, url)
      | EmptyString => (EmptyString, url)
      end
  | _ => (EmptyString, url)
  end.

Definition urlparse (url0 : string) : option ParseResult :=
  let url := filter_str (fun c => negb (unsafe_byte c)) (lstrip c0_or_space url0) in
  let '(sch, rest) := split_scheme url in
  if startswith "//" rest then
    let nl := upto_delim (drop 2 rest) in
    let ob := contains "[" nl in
    let cb := contains "]" nl in
    if (ob && negb cb) || (cb && negb ob) then None
    else Some {| scheme := sch; netloc := nl |}
  else Some {| scheme := sch; netloc := EmptyString |}.

End Urllib.

(** ** [Config] and [Utils] *)

Module Config.

Definition MAX_CONCURRENT_DOWNLOADS : Z := 5.

(** [SUPPORTED_SITES]: site name and its domains, in source order. *)
Definition SUPPORTED_SITES : list (string * list string) :=
  [ ("YouTube", ["youtube.com"; "youtu.be"]);
    ("TikTok", ["tiktok.com"; "vm.tiktok.com"]);
    ("Instagram", ["instagram.com"]);
    ("Twitter", ["twitter.com"; "x.com"]);
    ("Twitch", ["twitch.tv"; "clips.twitch.tv"]);
    ("Reddit", ["reddit.com"]);
    ("Dailymotion", ["dailymotion.com"]);
    ("SoundCloud", ["soundcloud.com"; "on.soundcloud.com"]);
    ("Vimeo", ["vimeo.com"]);
    ("Facebook", ["facebook.com"]);
    ("LinkedIn", ["linkedin.com"]);
    ("Rumble", ["rumble.com"]);
    ("Bilibili", ["bilibili.com"]);
    ("Odysee", ["odysee.com"]) ].

End Config.

Module Utils.
Import PyStr.

(** [parsed.scheme in ('http', 'https')]. *)
Definition scheme_ok (s : string) : bool :=
  String.eqb s "http" || String.eqb s "https".

(** [domain.replace("www.", "").replace("m.", "")]. *)
Definition clean_domain (netloc : string) : string :=
  replace "m." "" (replace "www." "" (lower netloc)).

(** The loop over [Config.SUPPORTED_SITES.values()]. *)
Definition site_match (clean : string) : bool :=
  existsb (fun site => existsb (fun d => contains d clean) (snd site))
          Config.SUPPORTED_SITES.

(** [Utils.validate_url]; an exception raised while parsing is caught
    and answered with [False]. *)
Definition validate_url (url : string) : bool :=
  match Urllib.urlparse url with
  | None => false
  | Some parsed =>
      if negb (scheme_ok (Urllib.scheme parsed)) then false
      else site_match (clean_domain (Urllib.netloc parsed))
  end.

(** Validation as the specification words it: the scheme is [http] or
    [https], and the host, lowercased and with a leading [www.] and a
    leading [m.] removed, matches an allowed host pattern.  Matching is
    kept as in the source (substring test), so that the two definitions
    differ only in how the prefixes are removed. *)
Definition strip_prefix (p s : string) : string :=
  if startswith p s then drop (String.length p) s else s.

Definition spec_clean_domain (netloc : string) : string :=
  strip_prefix "m." (strip_prefix "www." (lower netloc)).

Definition spec_validate_url (url : string) : bool :=
  match Urllib.urlparse url with
  | None => false
  | Some parsed =>
      scheme_ok (Urllib.scheme parsed) &&
      site_match (spec_clean_domain (Urllib.netloc parsed))
  end.

(** The loop of [get_platform_name] over
    [Config.SUPPORTED_SITES.items()]: the name of the first site one of
    whose domains occurs in the cleaned host. *)
Fixpoint first_site (clean : string) (sites : list (string * list string))
  : string :=
  match sites with
  | [] => "Generic"
  | (name, domains) :: rest =>
      if existsb (fun d => contains d clean) domains then name
      else first_site clean rest
  end.

(** [Utils.get_platform_name]; any exception is answered with
    ["Generic"]. *)
Definition get_platform_name (url : string) : string :=
  match Urllib.urlparse url with
  | None => "Generic"
  | Some parsed =>
      first_site (clean_domain (Urllib.netloc parsed)) Config.SUPPORTED_SITES
  end.

(** What the two formatters put into their f-string
    [f"{shown:.2f} {label}"]: the scaled number and the unit. *)
Record Formatted := { shown : Q; label : string }.

Definition speed_units : list string := ["B/s"; "KB/s"; "MB/s"; "GB/s"].

(** The [while speed >= 1024 and unit < len(units)-1] loop of
    [format_speed]; [None] if the bound [fuel] on the number of passes
    were hit. *)
Fixpoint format_speed_loop (fuel : nat) (speed : Q) (unit : nat)
  : option (Q * nat) :=
  if Qle_bool 1024 speed && (unit <? List.length speed_units - 1)%nat then
    match fuel with
    | O => None
    | S fuel' => format_speed_loop fuel' (speed / 1024)%Q (unit + 1)%nat
    end
  else Some (speed, unit).

(** [Utils.format_speed]. *)
Definition format_speed (speed : Q) : option Formatted :=
  match format_speed_loop (List.length speed_units) speed 0 with
  | Some (speed', unit) =>
      Some {| shown := speed'; label := nth unit speed_units "" |}
  | None => None
  end.

(** The [for unit in ...] loop of [format_size], with the statement
    that follows it. *)
Fixpoint format_size_loop (bytes : Q) (units : list string) : Formatted :=
  match units with
  | [] => {| shown := bytes; label := "GB" |}
  | unit :: rest =>
      if negb (Qle_bool 1024 bytes)
      then {| shown := bytes; label := unit |}
      else format_size_loop (bytes / 1024)%Q rest
  end.

(** [Utils.format_size]. *)
Definition format_size (bytes : Q) : Formatted :=
  format_size_loop bytes ["B"; "KB"; "MB"; "GB"].

End Utils.

(** ** Data model *)

Inductive Status :=
| queued | downloading | paused | completed | error | cancelled.

(** The keys of the [options] dict that the queue and the worker read.
    [start_download] always builds the dict with these keys present. *)
Record Options := {
  audio_only : bool;
  verify : bool;
  format : string
}.

(** [DownloadItem]: the fields written by the worker and the manager. *)
Record DownloadItem := {
  url : string;
  options : Options;
  status : Status;
  progress : Q;
  speed : Q;            (* the number handed to [Utils.format_speed] *)
  eta : string;
  bytes_downloaded : Z;
  total_bytes : Z
}.

(** [DownloadItem.__init__]. *)
Definition new_item (u : string) (o : Options) : DownloadItem :=
  {| url := u; options := o; status := queued; progress := 0; speed := 0;
     eta := "--:--"; bytes_downloaded := 0; total_bytes := 0 |}.

Definition set_status (s : Status) (it : DownloadItem) : DownloadItem :=
  {| url := url it; options := options it; status := s;
     progress := progress it; speed := speed it; eta := eta it;
     bytes_downloaded := bytes_downloaded it; total_bytes := total_bytes it |}.

Definition set_total_bytes (t : Z) (it : DownloadItem) : DownloadItem :=
  {| url := url it; options := options it; status := status it;
     progress := progress it; speed := speed it; eta := eta it;
     bytes_downloaded := bytes_downloaded it; total_bytes := t |}.

(** The manager's signals.  A signal declared with a [DownloadItem]
    payload is recorded by the item's URL. *)
Inductive Signal :=
| progress_updated (u : string)
| download_complete (u : string)
| download_error (u : string)
| download_paused (u : string)
| download_resumed (u : string)
| download_cancelled (u : string)
| queue_updated (n : nat)
| metadata_received (u : string)
| worker_finished (u : string).

(** [DownloadWorker]: the object's fields. *)
Record DownloadWorker := {
  download_item : DownloadItem;
  _is_cancelled : bool;
  _is_paused : bool;
  last_bytes : Z;
  start_time : Q;
  ffmpeg_checked : bool;
  ffmpeg_available : bool
}.

(** [DownloadWorker.__init__]; [now] is the reading of [time.time()]. *)
Definition new_worker (now : Q) (it : DownloadItem) : DownloadWorker :=
  {| download_item := it; _is_cancelled := false; _is_paused := false;
     last_bytes := 0; start_time := now;
     ffmpeg_checked := false; ffmpeg_available := false |}.

Definition with_item (f : DownloadItem -> DownloadItem) (w : DownloadWorker)
  : DownloadWorker :=
  {| download_item := f (download_item w);
     _is_cancelled := _is_cancelled w; _is_paused := _is_paused w;
     last_bytes := last_bytes w; start_time := start_time w;
     ffmpeg_checked := ffmpeg_checked w;
     ffmpeg_available := ffmpeg_available w |}.

Definition with_flags (c p : bool) (w : DownloadWorker) : DownloadWorker :=
  {| download_item := download_item w;
     _is_cancelled := c; _is_paused := p;
     last_bytes := last_bytes w; start_time := start_time w;
     ffmpeg_checked := ffmpeg_checked w;
     ffmpeg_available := ffmpeg_available w |}.

Definition with_ffmpeg (found : bool) (w : DownloadWorker) : DownloadWorker :=
  {| download_item := download_item w;
     _is_cancelled := _is_cancelled w; _is_paused := _is_paused w;
     last_bytes := last_bytes w; start_time := start_time w;
     ffmpeg_checked := true; ffmpeg_available := found |}.

(** [DownloadWorker.pause], [resume] and [cancel] as they change the
    object; the signal each one posts is logged by the caller. *)
Definition worker_pause (w : DownloadWorker) : DownloadWorker :=
  with_item (set_status paused) (with_flags (_is_cancelled w) true w).

Definition worker_resume (w : DownloadWorker) : DownloadWorker :=
  with_item (set_status downloading) (with_flags (_is_cancelled w) false w).

Definition worker_cancel (w : DownloadWorker) : DownloadWorker :=
  with_item (set_status cancelled) (with_flags true (_is_paused w) w).

(** ** [DownloadWorker._update_progress]

    The hook [yt_dlp] calls with a status dict [d].  Python's float
    arithmetic is taken as exact rational arithmetic; a division whose
    divisor is zero raises, as in Python. *)

Module Hook.

(** A dict entry read with [d.get]: the key may be missing, or hold
    [None], or hold a number. *)
Inductive Field := Absent | PyNone | PyInt (z : Z).

Inductive TickStatus := TickDownloading | TickFinished | TickError.

Record Tick := {
  tick_status : TickStatus;                (* d['status'] *)
  downloaded_bytes : Field;
  tick_total_bytes : Field;
  total_bytes_estimate : Field;
  eta_str : option string                  (* d.get('_eta_str') *)
}.

Inductive Raised := TypeError | ZeroDivisionError.

Inductive Outcome :=
| Ignored                          (* the outer [if] is false: nothing done *)
| StillPaused                      (* the wait loop has not left yet *)
| CancelledWhilePaused             (* the [return] after the wait loop *)
| Raises (e : Raised)
| Updated (w : DownloadWorker) (emitted : Signal).

(** [while self._is_paused and not self._is_cancelled: time.sleep(0.5)].
    The flags are written by the manager's thread; [polls] lists the
    values (paused, cancelled) read after each sleep.  [None]: the list
    ended with the worker still paused. *)
Fixpoint wait_while_paused (polls : list (bool * bool)) (p c : bool)
  : option (bool * bool) :=
  if p && negb c then
    match polls with
    | [] => None
    | (p', c') :: rest => wait_while_paused rest p' c'
    end
  else Some (p, c).

(** [d.get('downloaded_bytes', 0)]. *)
Definition get_current (d : Tick) : option Z :=
  match downloaded_bytes d with
  | Absent => Some 0%Z
  | PyNone => None
  | PyInt z => Some z
  end.

(** [d.get('total_bytes') or d.get('total_bytes_estimate', 1)]: the
    second operand is taken when the first is missing, [None] or 0. *)
Definition get_total (d : Tick) : option Z :=
  let second :=
    match total_bytes_estimate d with
    | Absent => Some 1%Z
    | PyNone => None
    | PyInt z => Some z
    end in
  match tick_total_bytes d with
  | PyInt z => if (z =? 0)%Z then second else Some z
  | _ => second
  end.

(** Python's [/]. *)
Definition py_div (a b : Q) : option Q :=
  if Qeq_bool b 0 then None else Some (a / b).


Definition store_progress (pr sp : Q) (e : string) (cur tot : Z)
           (w : DownloadWorker) : DownloadWorker :=
  {| download_item :=
       {| url := url (download_item w);
          options := options (download_item w);
          status := status (download_item w);
          progress := pr; speed := sp; eta := e;
          bytes_downloaded := cur; total_bytes := tot |};
     _is_cancelled := _is_cancelled w; _is_paused := _is_paused w;
     last_bytes := cur; start_time := start_time w;
     ffmpeg_checked := ffmpeg_checked w;
     ffmpeg_available := ffmpeg_available w |}.

(** [_update_progress]; [now] is the reading of [time.time()]. *)
Definition _update_progress (now : Q) (polls : list (bool * bool))
           (d : Tick) (w : DownloadWorker) : Outcome :=
  match tick_status d with
  | TickDownloading =>
      if _is_cancelled w then Ignored else
      match wait_while_paused polls (_is_paused w) (_is_cancelled w) with
      | None => StillPaused
      | Some (p, c) =>
          if c then CancelledWhilePaused else
          let w := with_flags c p w in
          match get_current d, get_total d with
          | Some current, Some total =>
              let total := if (total <=? 0)%Z then 1%Z else total in
              match py_div (inject_Z current) (inject_Z total) with
              | None => Raises ZeroDivisionError
              | Some ratio =>
                  let progress := Qmin 100 (Qmax 0 (ratio * 100)) in
                  let elapsed := Qmax (1 # 10) (now - start_time w) in
                  match py_div (inject_Z (current - last_bytes w)) elapsed with
                  | None => Raises ZeroDivisionError
                  | Some speed =>
                      Updated
                        (store_progress progress speed
                           (match eta_str d with Some e => e | None => "--:--" end)
                           current total w)
                        (progress_updated (url (download_item w)))
                  end
              end
          | _, _ => Raises TypeError
          end
      end
  | _ => Ignored
  end.

End Hook.

(** ** [DownloadWorker.run]

    The worker runs on a pool thread against two outside parties: the
    fetcher ([yt_dlp]) together with the file system, and the manager's
    thread, which may call [pause()], [resume()] and [cancel()] while
    the worker runs.  What they do during one pass of the retry loop is
    given by an [Attempt]; the worker's own effects (signals, [logging]
    calls, [time.sleep]) are recorded in order in a trace.

    An [Env] places the calls of the manager's thread before the run and
    within the passes of the loop.  A call arriving while the first
    lines of [run] or its outer handler are executed is not part of an
    [Env]. *)

Module Worker.

Inductive Exn :=
| SubprocessError     (* raised by [run]: FFmpeg not found *)
| FetcherError        (* raised inside [extract_info] or [download] *)
| HookError (e : Hook.Raised)
                      (* raised by [_update_progress] inside [download] *)
| FileNotFoundError   (* [_verify_download]: file missing *)
| ValueError          (* [_verify_download]: file empty *)
| RuntimeError.       (* corrupted file, or "Failed after 3 attempts" *)

Inductive Effect :=
| Emit (s : Signal)
| LogError (attempt : Z)      (* logging.error("Attempt n failed: ...") *)
| LogWarning (attempt : Z)    (* logging.warning("Attempt n: ... empty or missing") *)
| Sleep (seconds : Z)         (* time.sleep(5 * attempt) in [run] *)
| HookSleep.                  (* time.sleep(0.5) in [_update_progress] *)

(** When, within one pass, the manager's thread calls [cancel()]. *)
Inductive CancelPoint :=
| DuringProbe       (* before the check that follows [extract_info] *)
| DuringTransfer    (* while [ydl.download] runs, before it calls the hook *)
| AfterBody.        (* after the [with] block: in the handler or the sleep;
                       or, if the worker waits in the hook until then,
                       during that wait *)

(** A call the manager's thread makes on the worker. *)
Inductive Call := CallPause | CallResume | CallCancel.

(** One call of the progress hook made by [ydl.download]: the status
    dict, the reading of [time.time()], the calls the manager's thread
    has made since the previous call of the hook, and those it makes
    during each [time.sleep(0.5)] of the wait loop, sleep by sleep.
    When the worker is still paused at the end of [calls_during], no
    further call is made on it, the [cancel()] planned for the pass
    apart (see [AfterBody]). *)
Record HookCall := {
  hook_tick : Hook.Tick;
  hook_now : Q;
  calls_before : list Call;
  calls_during : list (list Call)
}.

Inductive Transfer :=
| TransferRaises    (* [ydl.download] raises *)
| OutputMissing     (* [temp_file] does not exist or has size 0 *)
| OutputOk.         (* [temp_file] exists with a positive size *)

(** What [_verify_download] finds at [file_path]. *)
Record FileObs := {
  file_exists : bool;
  file_size : Z;
  ffmpeg_returncode : option Z   (* [None]: [subprocess.run] itself raised *)
}.

Record Attempt := {
  probe_ok : bool;               (* [extract_info] returns *)
  probe_size : Z;                (* [filesize] / [filesize_approx] / 0,
                                    a number *)
  ticks : list HookCall;         (* the hook calls [ydl.download] makes *)
  transfer : Transfer;           (* how [ydl.download] ends after them *)
  final_file : FileObs;
  cancel_at : option CancelPoint
}.

Record Env := {
  cancelled_before_start : bool; (* [cancel()] ran before the pool ran [run] *)
  ffmpeg_found : bool;           (* first component of [Utils.check_ffmpeg()] *)
  attempts : Z -> Attempt        (* attempt number to what happens in it *)
}.

(** The local variables of [run], the worker object and the trace.
    [stuck]: the thread is in the wait loop of the hook and no call
    will end the wait. *)
Record Run := {
  worker : DownloadWorker;
  attempt : Z;
  success : bool;
  trace : list Effect;
  stuck : bool
}.

Definition upd_worker (f : DownloadWorker -> DownloadWorker) (r : Run) : Run :=
  {| worker := f (worker r); attempt := attempt r;
     success := success r; trace := trace r; stuck := stuck r |}.

Definition effect (e : Effect) (r : Run) : Run :=
  {| worker := worker r; attempt := attempt r;
     success := success r; trace := trace r ++ [e]; stuck := stuck r |}.

Definition set_success (r : Run) : Run :=
  {| worker := worker r; attempt := attempt r;
     success := true; trace := trace r; stuck := stuck r |}.

Definition next_attempt (r : Run) : Run :=
  {| worker := worker r; attempt := attempt r + 1;
     success := success r; trace := trace r; stuck := stuck r |}.

Definition set_stuck (r : Run) : Run :=
  {| worker := worker r; attempt := attempt r;
     success := success r; trace := trace r; stuck := true |}.

Definition cancelled (r : Run) : bool := _is_cancelled (worker r).
Definition is_paused (r : Run) : bool := _is_paused (worker r).
Definition item_url (r : Run) : string := url (download_item (worker r)).
Definition item_options (r : Run) : Options := options (download_item (worker r)).

(** [cancel()] called by the manager's thread.  [cancel_download] calls
    it once on a worker and drops the worker from its dicts, so no
    worker is cancelled twice: a call planned for a worker that is
    cancelled already is not made. *)
Definition cancel_call (r : Run) : Run :=
  if cancelled r then r else upd_worker worker_cancel r.

(** A [cancel()] arriving from the manager's thread. *)
Definition cancel_arrives (at_ : CancelPoint) (a : Attempt) (r : Run) : Run :=
  match cancel_at a, at_ with
  | Some DuringProbe, DuringProbe
  | Some DuringTransfer, DuringTransfer
  | Some AfterBody, AfterBody => cancel_call r
  | _, _ => r
  end.

Definition arrive (c : Call) (r : Run) : Run :=
  match c with
  | CallPause => upd_worker worker_pause r
  | CallResume => upd_worker worker_resume r
  | CallCancel => cancel_call r
  end.

Definition arrive_all (calls : list Call) (r : Run) : Run :=
  fold_left (fun r c => arrive c r) calls r.

(** [_needs_ffmpeg]. *)
Definition _needs_ffmpeg (o : Options) : bool :=
  audio_only o || PyStr.contains "merge" (format o).

(** [_verify_download]: [None] when it returns, [Some e] when it raises.
    A size more than 10% off the expected one is only logged; the
    expected size read from [info] is taken to be a number, as
    [probe_size] is. *)
Definition _verify_download (o : Options) (f : FileObs) : option Exn :=
  if negb (file_exists f) then Some FileNotFoundError
  else if (file_size f =? 0)%Z then Some ValueError
  else if negb (audio_only o) then
    match ffmpeg_returncode f with
    | Some rc => if (rc =? 0)%Z then None else Some RuntimeError
    | None => Some RuntimeError
    end
  else None.

Inductive Flow :=
| Normal              (* fell through *)
| Return              (* the [return] after the probe *)
| Raise (e : Exn)
| Hang                (* the wait loop of the hook is never left *)
| OutOfFuel.          (* the model's loop bound was hit *)

Definition max_attempts : Z := 3.

(** [while self._is_paused and not self._is_cancelled: time.sleep(0.5)]
    with the calls that arrive during each sleep.  [false]: the script
    has ended with the worker still paused; it sleeps on. *)
Fixpoint hook_wait (script : list (list Call)) (r : Run) : bool * Run :=
  if is_paused r && negb (cancelled r) then
    let r := effect HookSleep r in
    match script with
    | [] => (false, r)
    | calls :: rest => hook_wait rest (arrive_all calls r)
    end
  else (true, r).

(** The [cancel()] still to come in this pass, should the worker wait
    in the hook until it comes. *)
Definition planned_cancel (a : Attempt) : list (list Call) :=
  match cancel_at a with
  | Some AfterBody => [[CallCancel]]
  | _ => []
  end.

(** One call of [_update_progress] on the worker's thread.  The wait
    loop is run against the calls of the manager's thread; what follows
    it is [Hook._update_progress] on a worker that is no longer
    waiting.  [ydl_opts] sets [ignoreerrors] to [False]: an exception
    raised by the hook leaves [ydl.download]. *)
Definition hook_call (a : Attempt) (h : HookCall) (r : Run) : Flow * Run :=
  let r := arrive_all (calls_before h) r in
  match Hook.tick_status (hook_tick h) with
  | Hook.TickDownloading =>
      if cancelled r then (Normal, r) else
      match hook_wait (calls_during h ++ planned_cancel a) r with
      | (false, r) => (Hang, r)
      | (true, r) =>
          match Hook._update_progress (hook_now h) [] (hook_tick h) (worker r) with
          | Hook.Updated w s =>
              (Normal, effect (Emit s) (upd_worker (fun _ => w) r))
          | Hook.Raises e => (Raise (HookError e), r)
          | _ => (Normal, r)
          end
      end
  | _ => (Normal, r)
  end.

(** The hook calls of one [ydl.download]. *)
Fixpoint hook_calls (a : Attempt) (hs : list HookCall) (r : Run) : Flow * Run :=
  match hs with
  | [] => (Normal, r)
  | h :: rest =>
      match hook_call a h r with
      | (Normal, r) => hook_calls a rest r
      | other => other
      end
  end.

(** How [ydl.download] ends once the hook calls are made, and the
    statements that follow it in the [with] block. *)
Definition download_ends (a : Attempt) (r : Run) : Flow * Run :=
  match transfer a with
  | TransferRaises => (Raise FetcherError, r)
  | OutputMissing => (Normal, effect (LogWarning (attempt r)) r)
  | OutputOk =>
      let r := set_success r in
      let r := upd_worker (with_item (set_status completed)) r in
      let r := effect (Emit (download_complete (item_url r))) r in
      if verify (item_options r) then
        match _verify_download (item_options r) (final_file a) with
        | Some e => (Raise e, r)
        | None => (Normal, r)
        end
      else (Normal, r)
  end.

(** The body of the [with yt_dlp.YoutubeDL(...)] block. *)
Definition attempt_body (a : Attempt) (r : Run) : Flow * Run :=
  let r := cancel_arrives DuringProbe a r in
  if negb (probe_ok a) then (Raise FetcherError, r) else
  let r := upd_worker (with_item (set_total_bytes (probe_size a))) r in
  let r := effect (Emit (metadata_received (item_url r))) r in
  if cancelled r then (Return, r) else
  let r := cancel_arrives DuringTransfer a r in
  match hook_calls a (ticks a) r with
  | (Normal, r) => download_ends a r
  | other => other
  end.

(** One pass of the [while] loop: [attempt += 1], the [try] block and
    its [except Exception] handler. *)
Definition iteration (a : Attempt) (r : Run) : Flow * Run :=
  match attempt_body a r with
  | (Raise e, r1) =>
      let r2 := effect (LogError (attempt r1)) r1 in
      if (attempt r2 =? max_attempts)%Z
      then (Raise e, cancel_arrives AfterBody a r2)
      else (Normal, cancel_arrives AfterBody a
                      (effect (Sleep (5 * attempt r2)) r2))
  | (Hang, r1) => (Hang, r1)
  | (fl, r1) => (fl, cancel_arrives AfterBody a r1)
  end.

(** The [while attempt < max_attempts and not success and not
    self._is_cancelled] loop; [fuel] bounds the number of passes. *)
Fixpoint retry_loop (fuel : nat) (env : Env) (r : Run) : Flow * Run :=
  if (attempt r <? max_attempts)%Z && negb (success r) && negb (cancelled r)
  then
    match fuel with
    | O => (OutOfFuel, r)
    | S fuel' =>
        let r := next_attempt r in
        match iteration (attempts env (attempt r)) r with
        | (Normal, r') => retry_loop fuel' env r'
        | (fl, r') => (fl, r')
        end
    end
  else (Normal, r).

(** The statement after the loop: [if not success and not
    self._is_cancelled: raise RuntimeError(...)]. *)
Definition after_loop (p : Flow * Run) : Flow * Run :=
  match p with
  | (Normal, r) =>
      if negb (success r) && negb (cancelled r)
      then (Raise RuntimeError, r)
      else (Normal, r)
  | other => other
  end.

(** The outer [try] block of [run]. *)
Definition run_try (env : Env) (r : Run) : Flow * Run :=
  let r := upd_worker (with_item (set_status downloading)) r in
  let check := negb (ffmpeg_checked (worker r))
               && _needs_ffmpeg (item_options r) in
  let r := if check then upd_worker (with_ffmpeg (ffmpeg_found env)) r else r in
  if check && negb (ffmpeg_available (worker r))
  then (Raise SubprocessError, r)
  else after_loop (retry_loop (Z.to_nat max_attempts) env r).

(** The [finally] clause. *)
Definition run_finally (r : Run) : Run :=
  effect (Emit (worker_finished (item_url r))) r.

(** The outer [except Exception] handler followed by [finally].
    [ErrorHandler.handle] logs and emits on a handler object of its
    own that nothing is connected to.  A run whose thread stays in the
    hook reaches neither: its state is returned marked [stuck].  [None]
    only if the loop bound of the model were hit. *)
Definition except_finally (p : Flow * Run) : option Run :=
  match p with
  | (OutOfFuel, _) => None
  | (Hang, r) => Some (set_stuck r)
  | (Raise _, r) =>
      if negb (cancelled r)
      then Some (run_finally (effect (Emit (download_error (item_url r)))
                            (upd_worker (with_item (set_status error)) r)))
      else Some (run_finally r)
  | (_, r) => Some (run_finally r)
  end.

Definition initial_run (env : Env) (w : DownloadWorker) : Run :=
  {| worker := if cancelled_before_start env then worker_cancel w else w;
     attempt := 0; success := false; trace := []; stuck := false |}.

(** [run]: the state in which the run ends or, when [stuck], in which
    it stays. *)
Definition run (env : Env) (w : DownloadWorker) : option Run :=
  except_finally (run_try env (initial_run env w)).

Definition final_status (r : Run) : Status := status (download_item (worker r)).

Definition signals (r : Run) : list Signal :=
  flat_map (fun e => match e with Emit s => [s] | _ => [] end) (trace r).

(** The seconds slept by [run] itself, between attempts. *)
Definition sleeps (r : Run) : list Z :=
  flat_map (fun e => match e with Sleep z => [z] | _ => [] end) (trace r).

(** The number of half-second sleeps of the hook. *)
Definition hook_sleeps (r : Run) : nat :=
  List.length (filter (fun e => match e with HookSleep => true | _ => false end)
                      (trace r)).

End Worker.

(** ** Python dicts with string keys, in insertion order *)

Module Dict.
Section WithValue.
Context {V : Type}.

Definition t := list (string * V).

(** [k in d]. *)
Fixpoint mem (k : string) (d : t) : bool :=
  match d with
  | [] => false
  | (k', _) :: r => String.eqb k' k || mem k r
  end.

(** [d[k]] for a present key. *)
Fixpoint get (k : string) (d : t) : option V :=
  match d with
  | [] => None
  | (k', v) :: r => if String.eqb k' k then Some v else get k r
  end.

(** [d[k] = v]. *)
Fixpoint set (k : string) (v : V) (d : t) : t :=
  match d with
  | [] => [(k, v)]
  | (k', v') :: r =>
      if String.eqb k' k then (k', v) :: r else (k', v') :: set k v r
  end.

(** [del d[k]] for a present key. *)
Fixpoint del (k : string) (d : t) : t :=
  match d with
  | [] => []
  | (k', v') :: r =>
      if String.eqb k' k then r else (k', v') :: del k r
  end.

(** [next(iter(d.keys()))]; [None] on an empty dict. *)
Definition first_key (d : t) : option string :=
  match d with
  | [] => None
  | (k, _) :: _ => Some k
  end.

Definition keys (d : t) : list string := map fst d.
End WithValue.
Arguments t : clear implicits.
End Dict.

(** ** [DownloadManager] *)

Module Manager.

Record DownloadManager := {
  download_queue : list DownloadItem;               (* the deque, head first *)
  active_downloads : Dict.t DownloadWorker;
  paused_downloads : Dict.t DownloadWorker;
  max_concurrent : Z;
  maxThreadCount : Z;               (* [self.thread_pool.maxThreadCount()] *)
  stored_max_concurrent : option Z; (* [settings.value("max_concurrent")] *)
  started : list string;            (* URLs of workers given to [thread_pool.start] *)
  emitted : list Signal;            (* signals emitted or posted, oldest first *)
  clock : Q                         (* the reading of [time.time()] *)
}.

Definition set_queue (q : list DownloadItem) (m : DownloadManager) :=
  {| download_queue := q;
     active_downloads := active_downloads m;
     paused_downloads := paused_downloads m;
     max_concurrent := max_concurrent m; maxThreadCount := maxThreadCount m;
     stored_max_concurrent := stored_max_concurrent m;
     started := started m; emitted := emitted m; clock := clock m |}.

Definition set_active (a : Dict.t DownloadWorker) (m : DownloadManager) :=
  {| download_queue := download_queue m;
     active_downloads := a;
     paused_downloads := paused_downloads m;
     max_concurrent := max_concurrent m; maxThreadCount := maxThreadCount m;
     stored_max_concurrent := stored_max_concurrent m;
     started := started m; emitted := emitted m; clock := clock m |}.

Definition set_paused (p : Dict.t DownloadWorker) (m : DownloadManager) :=
  {| download_queue := download_queue m;
     active_downloads := active_downloads m;
     paused_downloads := p;
     max_concurrent := max_concurrent m; maxThreadCount := maxThreadCount m;
     stored_max_concurrent := stored_max_concurrent m;
     started := started m; emitted := emitted m; clock := clock m |}.

Definition set_limit (n : Z) (m : DownloadManager) :=
  {| download_queue := download_queue m;
     active_downloads := active_downloads m;
     paused_downloads := paused_downloads m;
     max_concurrent := n; maxThreadCount := n;
     stored_max_concurrent := stored_max_concurrent m;
     started := started m; emitted := emitted m; clock := clock m |}.

Definition set_stored (n : Z) (m : DownloadManager) :=
  {| download_queue := download_queue m;
     active_downloads := active_downloads m;
     paused_downloads := paused_downloads m;
     max_concurrent := max_concurrent m; maxThreadCount := maxThreadCount m;
     stored_max_concurrent := Some n;
     started := started m; emitted := emitted m; clock := clock m |}.

(** [self.thread_pool.start(worker)]. *)
Definition pool_start (u : string) (m : DownloadManager) :=
  {| download_queue := download_queue m;
     active_downloads := active_downloads m;
     paused_downloads := paused_downloads m;
     max_concurrent := max_concurrent m; maxThreadCount := maxThreadCount m;
     stored_max_concurrent := stored_max_concurrent m;
     started := started m ++ [u]; emitted := emitted m; clock := clock m |}.

Definition emit (s : Signal) (m : DownloadManager) :=
  {| download_queue := download_queue m;
     active_downloads := active_downloads m;
     paused_downloads := paused_downloads m;
     max_concurrent := max_concurrent m; maxThreadCount := maxThreadCount m;
     stored_max_concurrent := stored_max_concurrent m;
     started := started m; emitted := emitted m ++ [s]; clock := clock m |}.

(** [__init__] followed by [load_settings], with nothing stored. *)
Definition init (now : Q) : DownloadManager :=
  {| download_queue := []; active_downloads := []; paused_downloads := [];
     max_concurrent := Config.MAX_CONCURRENT_DOWNLOADS;
     maxThreadCount := Config.MAX_CONCURRENT_DOWNLOADS;
     stored_max_concurrent := None;
     started := []; emitted := []; clock := now |}.

(** [load_settings].  The stored value is the one [save_settings]
    wrote, read from a spin box whose range is 1 to 10; what PyQt does
    with a number outside the range of a C [int] is left out. *)
Definition load_settings (m : DownloadManager) : DownloadManager :=
  set_limit (match stored_max_concurrent m with
             | Some n => n
             | None => Config.MAX_CONCURRENT_DOWNLOADS
             end) m.

(** The loop of [start_next_download], run on the queue [q] that [m]
    holds; it ends because every pass pops one item. *)
Fixpoint start_next_from (q : list DownloadItem) (m : DownloadManager)
  : DownloadManager :=
  match q with
  | [] => m
  | download_item :: rest =>
      if (Z.of_nat (List.length (active_downloads m)) <? maxThreadCount m)%Z then
        let m := set_queue rest m in
        let worker := new_worker (clock m) download_item in
        let m := set_active (Dict.set (url download_item) worker
                                      (active_downloads m)) m in
        let m := pool_start (url download_item) m in
        let m := emit (queue_updated (List.length (download_queue m))) m in
        start_next_from rest m
      else m
  end.

Definition start_next_download (m : DownloadManager) : DownloadManager :=
  start_next_from (download_queue m) m.

(** [add_download]; the widgets built when a window is attached are not
    part of the state. *)
Definition add_download (urls : list string) (o : Options)
           (m : DownloadManager) : DownloadManager :=
  let valid_urls := filter Utils.validate_url urls in
  let m := fold_left
             (fun m u => set_queue (download_queue m ++ [new_item u o]) m)
             valid_urls m in
  let m := start_next_download m in
  emit (queue_updated (List.length (download_queue m))) m.

(** [pause_download]. *)
Definition pause_download (u : string) (m : DownloadManager)
  : DownloadManager :=
  match Dict.get u (active_downloads m) with
  | Some worker =>
      let worker := worker_pause worker in
      let m := emit (download_paused u) m in
      let m := set_paused (Dict.set u worker (paused_downloads m)) m in
      let m := set_active (Dict.del u (active_downloads m)) m in
      start_next_download m
  | None => m
  end.

(** [resume_download]. *)
Definition resume_download (u : string) (m : DownloadManager)
  : DownloadManager :=
  match Dict.get u (paused_downloads m) with
  | Some worker =>
      let worker := worker_resume worker in
      let m := emit (download_resumed u) m in
      let m := set_active (Dict.set u worker (active_downloads m)) m in
      let m := set_paused (Dict.del u (paused_downloads m)) m in
      if (Z.of_nat (List.length (active_downloads m)) >? maxThreadCount m)%Z then
        match Dict.first_key (active_downloads m) with
        | Some k => pause_download k m
        | None => m
        end
      else m
  | None => m
  end.

(** [cancel_download]; the removal of the card from the window's list
    is not part of the state. *)
Definition cancel_download (u : string) (m : DownloadManager)
  : DownloadManager :=
  let m :=
    match Dict.get u (active_downloads m) with
    | Some _ =>
        let m := emit (download_cancelled u) m in
        let m := set_active (Dict.del u (active_downloads m)) m in
        start_next_download m
    | None =>
        match Dict.get u (paused_downloads m) with
        | Some _ =>
            let m := emit (download_cancelled u) m in
            set_paused (Dict.del u (paused_downloads m)) m
        | None => m
        end
    end in
  let m := set_queue
             (filter (fun item => negb (String.eqb (url item) u))
                     (download_queue m)) m in
  emit (queue_updated (List.length (download_queue m))) m.

(** [get_download_status]. *)
Definition get_download_status (u : string) (m : DownloadManager)
  : option Status :=
  match Dict.get u (active_downloads m) with
  | Some w => Some (status (download_item w))
  | None =>
      match Dict.get u (paused_downloads m) with
      | Some w => Some (status (download_item w))
      | None =>
          if existsb (fun item => String.eqb (url item) u) (download_queue m)
          then Some queued else None
      end
  end.

End Manager.

(** ** [MainWindow]: the slots connected to the manager's signals *)

Module MainWindow.
Import Manager.

(** [on_worker_finished]: the body is [pass]. *)
Definition on_worker_finished (u : string) (m : DownloadManager)
  : DownloadManager := m.

(** Delivery of a signal to the slot [_init_connections] wires to it.
    The other slots update widgets, the tray and the history file, and
    leave the manager untouched. *)
Definition deliver (s : Signal) (m : DownloadManager) : DownloadManager :=
  match s with
  | worker_finished u => on_worker_finished u m
  | _ => m
  end.

(** [save_settings] as far as the manager is concerned: the spin box
    value is stored, then [download_manager.load_settings()] runs. *)
Definition save_settings (concurrent_spin : Z) (m : DownloadManager)
  : DownloadManager :=
  load_settings (set_stored concurrent_spin m).

(** [start_download] as far as the manager is concerned: the lines of
    the input box, stripped, blank ones left out; with none left an
    error box is shown and nothing else happens.  [o] stands for the
    options read from the widgets. *)
Definition start_download (text : string) (o : Options) (m : DownloadManager)
  : DownloadManager :=
  let urls :=
    map PyStr.strip
        (filter (fun url => negb (String.eqb (PyStr.strip url) ""))
                (PyStr.split_on "010" text)) in
  match urls with
  | [] => m
  | _ => add_download urls o m
  end.

(** An entry of the stored list of schedules that is a dict.  The time
    is the stored ISO string read back as a date and time, in seconds;
    [None] when it does not parse.  [sched_options] is [None] when the
    entry holds something that is not a dict. *)
Record Schedule := {
  sched_time : option Z;
  sched_urls : list string;
  sched_options : option Options;
  sched_repeat : bool;
  sched_completed : bool
}.

Definition reschedule (t : Z) (s : Schedule) : Schedule :=
  {| sched_time := Some t; sched_urls := sched_urls s;
     sched_options := sched_options s; sched_repeat := sched_repeat s;
     sched_completed := sched_completed s |}.

Definition complete (s : Schedule) : Schedule :=
  {| sched_time := sched_time s; sched_urls := sched_urls s;
     sched_options := sched_options s; sched_repeat := sched_repeat s;
     sched_completed := true |}.

(** [start_scheduled_download] for an entry that is a dict; the
    download directory is taken to exist or to be creatable, so that
    [os.makedirs] returns. *)
Definition start_scheduled_download (s : Schedule) (m : DownloadManager)
  : DownloadManager :=
  match sched_urls s, sched_options s with
  | _ :: _, Some o => add_download (sched_urls s) o m
  | _, _ => m
  end.

Section CheckSchedules.
(** [QDateTime.addDays(1)]. *)
Variable add_day : Z -> Z.

(** One pass of the loop of [check_scheduled_downloads]; an entry that
    is not a dict is [None]. *)
Definition check_entry (now : Z) (entry : option Schedule) (m : DownloadManager)
  : option Schedule * DownloadManager :=
  match entry with
  | None => (entry, m)
  | Some schedule =>
      if sched_completed schedule then (entry, m)
      else
        match sched_time schedule with
        | Some scheduled_time =>
            if (scheduled_time <=? now)%Z then
              let m := start_scheduled_download schedule m in
              if sched_repeat schedule
              then (Some (reschedule (add_day scheduled_time) schedule), m)
              else (Some (complete schedule), m)
            else (entry, m)
        | None => (entry, m)
        end
  end.

(** [check_scheduled_downloads] at the time [now]: the list of
    schedules as it is written back, and the manager. *)
Fixpoint check_scheduled_downloads (now : Z) (schedules : list (option Schedule))
         (m : DownloadManager) : list (option Schedule) * DownloadManager :=
  match schedules with
  | [] => ([], m)
  | entry :: rest =>
      let '(entry', m) := check_entry now entry m in
      let '(rest', m) := check_scheduled_downloads now rest m in
      (entry' :: rest', m)
  end.
End CheckSchedules.

End MainWindow.

(** ** Vocabulary and sample input for the progress hook *)

Module HookSpec.
Import Hook.
Local Open Scope Q_scope.

(** A tick at 50 of 200 bytes, ten seconds after the worker was
    created. *)
Definition sample_tick : Tick :=
  {| tick_status := TickDownloading;
     downloaded_bytes := PyInt 50;
     tick_total_bytes := PyInt 200;
     total_bytes_estimate := Absent;
     eta_str := Some "00:30" |}.

Definition fresh_worker : DownloadWorker :=
  new_worker 0 (new_item "https://youtu.be/abc"
                         {| audio_only := false; verify := false; format := "" |}).



End HookSpec.

(** ** Vocabulary and sample runs for the worker *)

Module WorkerSpec.
Import Worker.
Local Open Scope Z_scope.

(** *** Shape of the trace: where the worker sleeps *)

Definition is_sleep (e : Effect) : bool :=
  match e with Sleep _ => true | _ => false end.

(** The effects of a transfer after which the hook can be waiting: the
    signal emitted before [ydl.download], the signal of an earlier call
    of the hook, an earlier sleep of the hook. *)
Definition in_transfer (e : Effect) : bool :=
  match e with
  | Emit (metadata_received _) | Emit (progress_updated _) | HookSleep => true
  | _ => false
  end.

(** [e] may come after [prev] when no back-off sleep is owed: [e] is
    not a sleep of [run], and if it is a sleep of the hook then [prev]
    belongs to a transfer. *)
Definition quiet_after (prev : option Effect) (e : Effect) : bool :=
  match e with
  | Sleep _ => false
  | HookSleep => match prev with Some p => in_transfer p | None => false end
  | _ => true
  end.

(** [follows prev e]: may [e] come right after [prev]?  After the log
    line of a failed attempt [k < 3] comes a sleep of [5 * k] seconds;
    a sleep of [run] comes nowhere else, and a sleep of the hook comes
    only within a transfer. *)
Definition follows (prev : option Effect) (e : Effect) : bool :=
  match prev with
  | Some (LogError k) =>
      if k <? max_attempts
      then match e with Sleep z => z =? 5 * k | _ => false end
      else quiet_after prev e
  | _ => quiet_after prev e
  end.

(** No sleep is still owed after [prev]. *)
Definition settled (prev : option Effect) : bool :=
  match prev with
  | Some (LogError k) => negb (k <? max_attempts)
  | _ => true
  end.

Fixpoint backoff_from (prev : option Effect) (t : list Effect) : bool :=
  match t with
  | [] => settled prev
  | e :: rest => follows prev e && backoff_from (Some e) rest
  end.

Definition backoff_ok (t : list Effect) : bool := backoff_from None t.

(** Signals and warnings. *)
Definition calm (e : Effect) : bool :=
  match e with Emit _ | LogWarning _ => true | _ => false end.

(** What a call of the hook adds to the trace. *)
Definition hook_effect (e : Effect) : bool :=
  match e with Emit (progress_updated _) | HookSleep => true | _ => false end.

Definition is_finished (e : Effect) : bool :=
  match e with Emit (worker_finished _) => true | _ => false end.

Record Extends (r r' : Run) (b : list Effect) : Prop := {
  ext_attempt : attempt r' = attempt r;
  ext_url : item_url r' = item_url r;
  ext_options : item_options r' = item_options r;
  ext_trace : trace r' = trace r ++ b
}.

(** *** The loop and [run] as a whole *)

(** What a stretch of the run leaves unchanged, and what it appends. *)
Record Advances (r r' : Run) (b : list Effect) : Prop := {
  adv_attempt_ge : attempt r <= attempt r';
  adv_attempt_le : attempt r' <= max_attempts;
  adv_url : item_url r' = item_url r;
  adv_options : item_options r' = item_options r;
  adv_trace : trace r' = trace r ++ b;
  adv_backoff : backoff_ok b = true;
  adv_unfinished : existsb is_finished b = false
}.

(** The flags [(_is_paused, _is_cancelled)] as the wait loop of the
    hook reads them after each of its sleeps. *)
Fixpoint flag_readings (script : list (list Call)) (r : Run)
  : list (bool * bool) :=
  match script with
  | [] => []
  | calls :: rest =>
      let r := arrive_all calls (effect HookSleep r) in
      (is_paused r, cancelled r) :: flag_readings rest r
  end.

(** The thread is in the wait loop of the hook: the worker is paused
    and not cancelled, and the last thing it did was to sleep there. *)
Definition Waiting (r : Run) : Prop :=
  is_paused r = true /\ cancelled r = false /\
  exists t, trace r = t ++ [HookSleep].

(** *** Runs that nobody disturbs *)

(** Nobody pauses, resumes or cancels the job. *)
Definition undisturbed (env : Env) (w : DownloadWorker) : Prop :=
  cancelled_before_start env = false /\
  _is_cancelled w = false /\
  _is_paused w = false /\
  forall k, cancel_at (attempts env k) = None /\
            forall h, In h (ticks (attempts env k)) -> calls_before h = [].

(** Nobody pauses the job. *)
Definition never_paused (env : Env) (w : DownloadWorker) : Prop :=
  _is_paused w = false /\
  forall k h, In h (ticks (attempts env k)) -> ~ In CallPause (calls_before h).

(** [run] gets past the FFmpeg check. *)
Definition ffmpeg_ready (env : Env) (w : DownloadWorker) : Prop :=
  ffmpeg_checked w = true \/
  _needs_ffmpeg (options (download_item w)) = false \/
  ffmpeg_found env = true.

Definition is_downloading (d : Hook.Tick) : bool :=
  match Hook.tick_status d with Hook.TickDownloading => true | _ => false end.

(** The hook, when it processes the tick, raises: a byte count holds
    [None]. *)
Definition tick_raises (d : Hook.Tick) : bool :=
  is_downloading d &&
  match Hook.get_current d, Hook.get_total d with
  | Some _, Some _ => false
  | _, _ => true
  end.

(** In a run nobody disturbs, a call of the hook raises. *)
Definition hook_raises (a : Attempt) : bool :=
  existsb (fun h => tick_raises (hook_tick h)) (ticks a).

(** The effects of the hook calls of a run nobody disturbs, up to the
    first call that raises. *)
Fixpoint progress_block (u : string) (hs : list HookCall) : list Effect :=
  match hs with
  | [] => []
  | h :: rest =>
      if tick_raises (hook_tick h) then []
      else (if is_downloading (hook_tick h)
            then [Emit (progress_updated u)] else [])
           ++ progress_block u rest
  end.

(** The attempt ends in an exception: the probe raises, the hook
    raises, or [ydl.download] raises. *)
Definition attempt_raises (a : Attempt) : bool :=
  negb (probe_ok a) || hook_raises a ||
  match transfer a with TransferRaises => true | _ => false end.

(** The attempt ends without an exception but with no usable file. *)
Definition attempt_empty (a : Attempt) : bool :=
  probe_ok a && negb (hook_raises a) &&
  match transfer a with OutputMissing => true | _ => false end.

Definition attempt_fails (a : Attempt) : bool :=
  attempt_raises a || attempt_empty a.

(** The transfer succeeds with a non-empty output file. *)
Definition transfer_succeeds (a : Attempt) : bool :=
  probe_ok a && negb (hook_raises a) &&
  match transfer a with OutputOk => true | _ => false end.

(** The integrity check is requested and fails. *)
Definition verify_fails (o : Options) (a : Attempt) : bool :=
  verify o &&
  match _verify_download o (final_file a) with Some _ => true | None => false end.

Definition is_error_signal (s : Signal) : bool :=
  match s with download_error _ => true | _ => false end.

Definition signals_of (t : list Effect) : list Signal :=
  flat_map (fun e => match e with Emit s => [s] | _ => [] end) t.

Definition sleeps_of (t : list Effect) : list Z :=
  flat_map (fun e => match e with Sleep z => [z] | _ => [] end) t.

Definition hook_sleeps_of (t : list Effect) : nat :=
  List.length (filter (fun e => match e with HookSleep => true | _ => false end) t).

(** The effects of the [with] block of pass [k] on the item [u] up to
    the end of [ydl.download], in a run nobody disturbs. *)
Definition body_block (u : string) (a : Attempt) : list Effect :=
  if probe_ok a
  then Emit (metadata_received u) :: progress_block u (ticks a)
  else [].

(** The effects of a failing pass number [k] on the item [u]. *)
Definition fail_block (u : string) (k : Z) (a : Attempt) : list Effect :=
  body_block u a ++
  (if attempt_raises a
   then LogError k :: (if k =? max_attempts then [] else [Sleep (5 * k)])
   else [LogWarning k]).

(** The state of the loop between two passes of a run nobody disturbs
    and that has not succeeded yet. *)
Record Pending (w : DownloadWorker) (r : Run) (k : Z) (t : list Effect)
  : Prop := {
  pend_attempt : attempt r = k;
  pend_success : success r = false;
  pend_cancelled : cancelled r = false;
  pend_paused : is_paused r = false;
  pend_url : item_url r = url (download_item w);
  pend_options : item_options r = options (download_item w);
  pend_trace : trace r = t
}.

(** *** Sample runs *)

Definition video_url : string := "https://youtu.be/abc".

Definition plain_options : Options :=
  {| audio_only := false; verify := false; format := "" |}.

Definition verifying_options : Options :=
  {| audio_only := false; verify := true; format := "" |}.

Definition sound_file : FileObs :=
  {| file_exists := true; file_size := 1000; ffmpeg_returncode := Some 0 |}.

Definition missing_file : FileObs :=
  {| file_exists := false; file_size := 0; ffmpeg_returncode := None |}.

(** An attempt during which the hook is not called. *)
Definition attempt_of (po : bool) (tr : Transfer) (f : FileObs) : Attempt :=
  {| probe_ok := po; probe_size := 1000; ticks := []; transfer := tr;
     final_file := f; cancel_at := None |}.

(** Nobody cancels, FFmpeg is installed. *)
Definition quiet_env (f : Z -> Attempt) : Env :=
  {| cancelled_before_start := false; ffmpeg_found := true; attempts := f |}.

Definition sample_worker (o : Options) : DownloadWorker :=
  new_worker 0 (new_item video_url o).

(** Attempt 1 leaves an empty file, attempt 2 succeeds. *)
Definition env_empty_then_ok : Env :=
  quiet_env (fun k => if k =? 1 then attempt_of true OutputMissing missing_file
                      else attempt_of true OutputOk sound_file).

(** Attempts 1 and 2 raise, attempt 3 succeeds. *)
Definition env_third_time_lucky : Env :=
  quiet_env (fun k => if k =? 3 then attempt_of true OutputOk sound_file
                      else attempt_of true TransferRaises missing_file).

(** Every attempt raises. *)
Definition env_always_raises : Env :=
  quiet_env (fun _ => attempt_of true TransferRaises missing_file).

(** The first transfer succeeds; the file [_verify_download] looks for
    is not there. *)
Definition env_unverifiable : Env :=
  quiet_env (fun _ => attempt_of true OutputOk missing_file).

(** A tick at [n] of 200 bytes, [n] seconds into the run. *)
Definition tick_at (n : Z) : Hook.Tick :=
  {| Hook.tick_status := Hook.TickDownloading;
     Hook.downloaded_bytes := Hook.PyInt n;
     Hook.tick_total_bytes := Hook.PyInt 200;
     Hook.total_bytes_estimate := Hook.Absent;
     Hook.eta_str := None |}.

Definition quiet_call (n : Z) : HookCall :=
  {| hook_tick := tick_at n; hook_now := inject_Z n;
     calls_before := []; calls_during := [] |}.

(** Attempts 1 and 2: two progress ticks, then [ydl.download] raises.
    Attempt 3: two ticks and a non-empty file. *)
Definition env_lucky_with_ticks : Env :=
  quiet_env (fun k =>
    {| probe_ok := true; probe_size := 200;
       ticks := [quiet_call 50; quiet_call 100];
       transfer := if k =? 3 then OutputOk else TransferRaises;
       final_file := sound_file; cancel_at := None |}).

(** Every attempt: a tick, then a tick whose byte count is [None]. *)
Definition env_hook_always_raises : Env :=
  quiet_env (fun _ =>
    {| probe_ok := true; probe_size := 200;
       ticks := [quiet_call 50;
                 {| hook_tick :=
                      {| Hook.tick_status := Hook.TickDownloading;
                         Hook.downloaded_bytes := Hook.PyNone;
                         Hook.tick_total_bytes := Hook.PyInt 200;
                         Hook.total_bytes_estimate := Hook.Absent;
                         Hook.eta_str := None |};
                    hook_now := 2; calls_before := []; calls_during := [] |}];
       transfer := OutputOk;
       final_file := sound_file; cancel_at := None |}).

(** The job is paused before the second tick of the first transfer and
    resumed during the third half-second of the wait. *)
Definition env_paused_then_resumed : Env :=
  quiet_env (fun _ =>
    {| probe_ok := true; probe_size := 200;
       ticks := [quiet_call 50;
                 {| hook_tick := tick_at 100; hook_now := 5;
                    calls_before := [CallPause];
                    calls_during := [[]; []; [CallResume]] |}];
       transfer := OutputOk;
       final_file := sound_file; cancel_at := None |}).

(** The job is paused before the second tick of the first transfer and
    neither resumed nor cancelled. *)
Definition env_paused_for_good : Env :=
  quiet_env (fun _ =>
    {| probe_ok := true; probe_size := 200;
       ticks := [quiet_call 50;
                 {| hook_tick := tick_at 100; hook_now := 5;
                    calls_before := [CallPause];
                    calls_during := [[]; []] |}];
       transfer := OutputOk;
       final_file := sound_file; cancel_at := None |}).

(** The claim about sleeping, as stated: every failed attempt that is
    followed by another attempt is followed by a sleep of 5 seconds
    times its number. *)
Definition sleeps_between_failed_attempts (env : Env) (w : DownloadWorker)
  : Prop :=
  forall r k,
    run env w = Some r -> 1 <= k < attempt r ->
    attempt_fails (attempts env k) = true -> In (5 * k) (sleeps r).

End WorkerSpec.

(** ** Vocabulary and sample states for the manager *)

Module ManagerSpec.
Import Manager.
Local Open Scope Z_scope.
Import WorkerSpec.

Definition queue_urls (m : DownloadManager) : list string :=
  map url (download_queue m).

(** Every job the manager has created and not dropped from the
    backlog: those handed to the pool, then those still waiting. *)
Definition jobs (m : DownloadManager) : list string :=
  started m ++ queue_urls m.

Definition is_queue_updated (s : Signal) : bool :=
  match s with queue_updated _ => true | _ => false end.

(** *** Admission *)

(** What [start_next_download] leaves alone and what it preserves. *)
Record Admits (m m' : DownloadManager) : Prop := {
  adm_jobs : jobs m' = jobs m;
  adm_started : exists more, started m' = started m ++ more;
  adm_paused : paused_downloads m' = paused_downloads m;
  adm_limit : maxThreadCount m' = maxThreadCount m;
  adm_max : max_concurrent m' = max_concurrent m;
  adm_stored : stored_max_concurrent m' = stored_max_concurrent m;
  adm_emitted : exists sigs, emitted m' = emitted m ++ sigs /\
                             forallb is_queue_updated sigs = true;
  adm_active : forall k, Dict.mem k (active_downloads m) = true ->
                         Dict.mem k (active_downloads m') = true;
  adm_active_from : forall k, Dict.mem k (active_downloads m') = true ->
                              Dict.mem k (active_downloads m) = true \/
                              In k (queue_urls m)
}.

(** *** Sample states *)

Definition url_a : string := "https://youtu.be/a".
Definition url_b : string := "https://vimeo.com/b".
Definition url_c : string := "https://www.twitch.tv/c".
Definition malformed_url : string := "not a url".

Definition default_options : Options :=
  {| audio_only := false; verify := false; format := "" |}.

(** A fresh manager whose limit has been set to [n] in the settings
    dialog. *)
Definition manager_with_limit (n : Z) : DownloadManager :=
  MainWindow.save_settings n (init 0).

(** Limit 1, [url_a] downloading, [url_b] waiting. *)
Definition one_active_one_waiting : DownloadManager :=
  add_download [url_a; url_b] default_options (manager_with_limit 1).

Definition seven_urls : list string :=
  [ "https://youtu.be/1"; "https://youtu.be/2"; "https://youtu.be/3";
    "https://youtu.be/4"; "https://youtu.be/5"; "https://youtu.be/6";
    "https://youtu.be/7" ].

(** Limit 2, two downloads active, five waiting. *)
Definition two_active_five_waiting : DownloadManager :=
  add_download seven_urls default_options (manager_with_limit 2).

(** Limit 1, [url_a] paused, [url_b] downloading. *)
Definition one_paused_one_active : DownloadManager :=
  pause_download url_a one_active_one_waiting.


(** *** Vocabulary of the claims as stated *)

(** The URL is in the backlog, the active set or the paused set. *)
Definition tracked (u : string) (m : DownloadManager) : bool :=
  existsb (fun it => String.eqb (url it) u) (download_queue m)
  || Dict.mem u (active_downloads m) || Dict.mem u (paused_downloads m).

(** Number of jobs the manager holds for the URL. *)
Definition jobs_for (u : string) (m : DownloadManager) : nat :=
  (List.length (filter (fun it => String.eqb (url it) u) (download_queue m))
   + (if Dict.mem u (active_downloads m) then 1 else 0)
   + (if Dict.mem u (paused_downloads m) then 1 else 0))%nat.

(** The claim on re-submission, as stated. *)
Definition resubmission_is_noop (u : string) (o : Options)
           (m : DownloadManager) : Prop :=
  tracked u m = true -> jobs_for u (add_download [u] o m) = jobs_for u m.

(** The signals a call added to the log. *)
Definition new_signals (m m' : DownloadManager) : list Signal :=
  skipn (List.length (emitted m)) (emitted m').

(** The only signal that reports a failure for a URL. *)
Definition reports_rejection (u : string) (s : Signal) : bool :=
  match s with download_error u' => String.eqb u' u | _ => false end.

(** The claim on batches, as stated, for one rejected URL. *)
Definition rejection_reported_once (urls : list string) (u : string)
           (o : Options) (m : DownloadManager) : Prop :=
  List.length (filter (reports_rejection u)
                      (new_signals m (add_download urls o m))) = 1%nat.

(** After an admission round either the backlog is empty or the active
    set is at the limit. *)
Definition admission_done (m : DownloadManager) : Prop :=
  download_queue m = [] \/
  maxThreadCount m <= Z.of_nat (List.length (active_downloads m)).

(** The claim on [Resume] with a full active set, as stated. *)
Definition resume_requeues_at_head (u : string) (m : DownloadManager) : Prop :=
  let m' := resume_download u m in
  active_downloads m' = active_downloads m /\
  exists it, download_queue m' = it :: download_queue m /\ url it = u.

(** The first transfer succeeds. *)
Definition env_success : Worker.Env :=
  quiet_env
    (fun _ => attempt_of true Worker.OutputOk sound_file).

End ManagerSpec.

(** ** Vocabulary for further properties of [Utils] *)

Module UtilsSpec.

(** A character that [urlsplit] leaves in the network location: not
    tab, CR or LF, not one of [/?#], not a square bracket. *)
Definition host_char (c : ascii) : bool :=
  negb (Urllib.unsafe_byte c) && negb (Urllib.netloc_delim c)
  && negb (Ascii.eqb c "[") && negb (Ascii.eqb c "]").

End UtilsSpec.

(** ** Vocabulary for further properties of the worker *)

Module WorkerMoreSpec.
Import Worker WorkerSpec.

(** Nothing so far has marked the item as failed: its status is not
    [error] and no [download_error] is in the trace. *)
Definition unfailed (r : Run) : Prop :=
  final_status r <> error /\
  existsb is_error_signal (signals_of (trace r)) = false.

(** The [cancel()] planned for the attempt does take place: a
    cancellation planned for the transfer needs the probe to succeed,
    or there is no transfer. *)
Definition cancel_lands (a : Attempt) : bool :=
  match cancel_at a with
  | Some DuringTransfer => probe_ok a
  | Some _ => true
  | None => false
  end.

(** The effects of the retry loop: every effect but the two signals
    emitted after it. *)
Definition is_loop_effect (e : Effect) : bool :=
  match e with
  | Emit (download_error _) | Emit (worker_finished _) => false
  | _ => true
  end.

Definition audio_options : Options :=
  {| audio_only := true; verify := false; format := "" |}.

(** Nobody cancels, FFmpeg is not installed. *)
Definition env_without_ffmpeg : Env :=
  {| cancelled_before_start := false; ffmpeg_found := false;
     attempts := fun _ => attempt_of true OutputOk sound_file |}.

(** [cancel()] runs before the pool starts the worker. *)
Definition env_cancelled_early : Env :=
  {| cancelled_before_start := true; ffmpeg_found := true;
     attempts := fun _ => attempt_of true OutputOk sound_file |}.

(** The first attempt raises and [cancel()] arrives during the sleep
    that follows. *)
Definition env_cancelled_in_backoff : Env :=
  quiet_env (fun _ => {| probe_ok := true; probe_size := 1000;
                         ticks := [];
                         transfer := TransferRaises;
                         final_file := missing_file;
                         cancel_at := Some AfterBody |}).

(** The job is paused before the second tick of the first transfer,
    which then raises; [cancel()] comes later, and finds the worker
    waiting in the hook. *)
Definition env_paused_then_cancelled : Env :=
  quiet_env (fun _ =>
    {| probe_ok := true; probe_size := 200;
       ticks := [quiet_call 50;
                 {| hook_tick := tick_at 100; hook_now := 5;
                    calls_before := [CallPause];
                    calls_during := [[]; []] |}];
       transfer := TransferRaises;
       final_file := missing_file; cancel_at := Some AfterBody |}).

End WorkerMoreSpec.

(** ** Vocabulary for further properties of the manager *)

Module ManagerMoreSpec.
Import Manager ManagerSpec.
Local Open Scope Z_scope.

(** The active set holds no more entries than the limit allows. *)
Definition within_limit (m : DownloadManager) : Prop :=
  Z.of_nat (List.length (active_downloads m)) <= maxThreadCount m.

(** Both dicts have each key once, as Python dicts do. *)
Definition keys_unique (m : DownloadManager) : Prop :=
  NoDup (Dict.keys (active_downloads m)) /\
  NoDup (Dict.keys (paused_downloads m)).

(** The two properties every operation of the manager keeps. *)
Definition invariant (m : DownloadManager) : Prop :=
  within_limit m /\ keys_unique m.

(** A URL of the active set is nowhere else. *)
Definition owned_once (u : string) (m : DownloadManager) : Prop :=
  Dict.mem u (active_downloads m) = true ->
  Dict.mem u (paused_downloads m) = false /\ ~ In u (queue_urls m).

End ManagerMoreSpec.

(** ** Vocabulary for the scheduled downloads *)

Module ScheduleSpec.
Import Manager MainWindow.
Local Open Scope Z_scope.

(** The entry is due at [now]: a dict, not completed, with a valid
    time that has come. *)
Definition due (now : Z) (entry : option Schedule) : bool :=
  match entry with
  | Some s =>
      negb (sched_completed s) &&
      match sched_time s with Some t => t <=? now | None => false end
  | None => false
  end.

(** The URLs a due entry submits: all of them, if its options are a
    dict. *)
Definition submitted_urls (now : Z) (entry : option Schedule) : list string :=
  match entry with
  | Some s =>
      if due now entry
      then match sched_options s with Some _ => sched_urls s | None => [] end
      else []
  | None => []
  end.

(** The entry as a check at [now] leaves it in the list: a due entry
    that does not repeat is marked completed, a due entry that repeats
    is moved one day on, and any other entry is as it was. *)
Definition checked (add_day : Z -> Z) (now : Z) (entry : option Schedule)
  : option Schedule :=
  match entry with
  | Some s =>
      match sched_time s with
      | Some t =>
          if due now entry
          then Some (if sched_repeat s then reschedule (add_day t) s
                     else complete s)
          else entry
      | None => entry
      end
  | None => None
  end.

(** A repeating entry that is due at [now] is not more than a day
    late. *)
Definition at_most_a_day_late (add_day : Z -> Z) (now : Z)
           (entry : option Schedule) : Prop :=
  match entry with
  | Some s =>
      sched_repeat s = true -> sched_completed s = false ->
      forall t, sched_time s = Some t -> t <= now -> now < add_day t
  | None => True
  end.

Definition next_day (t : Z) : Z := t + 86400.

Definition sample_schedules : list (option Schedule) :=
  [ Some {| sched_time := Some 1000; sched_urls := ["https://youtu.be/a"];
            sched_options := Some {| audio_only := false; verify := false;
                                     format := "" |};
            sched_repeat := false; sched_completed := false |};
    None;
    Some {| sched_time := Some 2000; sched_urls := ["https://vimeo.com/b"];
            sched_options := Some {| audio_only := true; verify := false;
                                     format := "" |};
            sched_repeat := true; sched_completed := false |};
    Some {| sched_time := None; sched_urls := ["https://youtu.be/c"];
            sched_options := None;
            sched_repeat := false; sched_completed := false |} ].

End ScheduleSpec.

(** * Properties *)

(** ** URL validation *)

Module UtilsFacts.
Import PyStr Utils.

Example validate_youtube :
  validate_url "https://www.youtube.com/watch?v=abc" = true.
Proof. reflexivity. Qed.

Example validate_mobile_youtube :
  validate_url "HTTPS://M.YouTube.com/watch?v=abc" = true.
Proof. reflexivity. Qed.

Example validate_short_tiktok :
  validate_url "https://vm.tiktok.com/ZM1234/" = true.
Proof. reflexivity. Qed.

Example validate_ftp : validate_url "ftp://youtube.com/x" = false.
Proof. reflexivity. Qed.

Example validate_plain_text : validate_url "not a url" = false.
Proof. reflexivity. Qed.

Example validate_other_host : validate_url "https://example.org/v" = false.
Proof. reflexivity. Qed.

(** [replace("m.", "")] removes every occurrence, not only a prefix. *)
Example clean_instagram : clean_domain "www.instagram.com" = "instagracom".
Proof. reflexivity. Qed.

Example spec_clean_instagram :
  spec_clean_domain "www.instagram.com" = "instagram.com".
Proof. reflexivity. Qed.

(** An accepted URL has scheme [http] or [https]. *)
Lemma validate_url_scheme (u : string) :
  validate_url u = true ->
  exists parsed, Urllib.urlparse u = Some parsed /\
                 (Urllib.scheme parsed = "http" \/ Urllib.scheme parsed = "https").
Proof.
  unfold validate_url.
  destruct (Urllib.urlparse u) as [parsed|]; [|discriminate].
  destruct (scheme_ok (Urllib.scheme parsed)) eqn:Hs; simpl; [|discriminate].
  intros _. exists parsed. split; [reflexivity|].
  unfold scheme_ok in Hs. apply orb_true_iff in Hs.
  destruct Hs as [H|H]; apply String.eqb_eq in H; auto.
Qed.

(** An accepted URL has a cleaned host containing a supported domain. *)
Lemma validate_url_domain (u : string) :
  validate_url u = true ->
  exists parsed site d,
    Urllib.urlparse u = Some parsed /\
    In site Config.SUPPORTED_SITES /\ In d (snd site) /\
    contains d (clean_domain (Urllib.netloc parsed)) = true.
Proof.
  unfold validate_url.
  destruct (Urllib.urlparse u) as [parsed|]; [|discriminate].
  destruct (negb (scheme_ok (Urllib.scheme parsed))); [discriminate|].
  unfold site_match. intros H.
  apply existsb_exists in H. destruct H as [site [Hin H]].
  apply existsb_exists in H. destruct H as [d [Hd H]].
  exists parsed, site, d. auto.
Qed.

(** C8 (the code departs from the claim).  The URL
    [https://www.instagram.com/reel/abc] has scheme [https] and host
    [www.instagram.com]; with the [www.] prefix stripped the host is
    [instagram.com], a domain of [SUPPORTED_SITES], so validation as
    the claim words it accepts the URL.  [validate_url] rejects it:
    [replace("m.", "")] also deletes the [m.] inside [instagram.com],
    and [instagracom] contains no supported domain. *)
Theorem validate_url_instagram :
  let u := "https://www.instagram.com/reel/abc" in
  Urllib.urlparse u
    = Some {| Urllib.scheme := "https"; Urllib.netloc := "www.instagram.com" |} /\
  In "instagram.com" (flat_map snd Config.SUPPORTED_SITES) /\
  spec_validate_url u = true /\
  clean_domain "www.instagram.com" = "instagracom" /\
  validate_url u = false.
Proof.
  cbv zeta. repeat split; try reflexivity.
  simpl. tauto.
Qed.

End UtilsFacts.

(** ** The progress hook *)

Module HookFacts.
Import Hook.
Local Open Scope Q_scope.
Import HookSpec.

Lemma py_div_nonzero (a b : Q) : ~ b == 0 -> py_div a b = Some (a / b).
Proof.
  intros Hb. unfold py_div.
  destruct (Qeq_bool b 0) eqn:E; [|reflexivity].
  apply Qeq_bool_iff in E. contradiction.
Qed.

(** The divisor of the progress ratio is at least 1. *)
Lemma total_floor_positive (total : Z) :
  (if (total <=? 0)%Z then 1%Z else total) = Z.max total 1 /\
  ~ inject_Z (Z.max total 1) == 0.
Proof.
  split.
  - destruct (Z.leb_spec total 0); lia.
  - intros H. unfold Qeq in H. simpl in H. lia.
Qed.

(** The divisor of the speed is at least a tenth of a second. *)
Lemma elapsed_floor_positive (x : Q) :
  (1 # 10) <= Qmax (1 # 10) x /\ ~ Qmax (1 # 10) x == 0.
Proof.
  assert (H : (1 # 10) <= Qmax (1 # 10) x) by apply Q.le_max_l.
  split; [exact H|].
  intros E. rewrite E in H. revert H. unfold Qle. simpl. lia.
Qed.





Example sample_tick_progress :
  match _update_progress 10 [] sample_tick fresh_worker with
  | Updated w' _ =>
      Qeq_bool (progress (download_item w')) 25 &&
      Qeq_bool (speed (download_item w')) 5
  | _ => false
  end = true.
Proof. reflexivity. Qed.


End HookFacts.

(** ** More on the progress hook *)

Module HookMoreFacts.
Import Hook HookSpec HookFacts.

Local Open Scope Q_scope.

(** The wait loop is left only with the worker resumed or cancelled. *)
Lemma wait_while_paused_left polls p c p' c' :
  wait_while_paused polls p c = Some (p', c') -> p' && negb c' = false.
Proof.
  revert p c. induction polls as [|[p0 c0] polls IH]; intros p c; cbn.
  - destruct (p && negb c) eqn:E; [discriminate|]. now intros [= <- <-].
  - destruct (p && negb c) eqn:E; [apply IH|]. now intros [= <- <-].
Qed.

(** What a tick that updates the item has gone through. *)
Lemma update_progress_updated now polls d w w' s :
  _update_progress now polls d w = Updated w' s ->
  exists current total,
    tick_status d = TickDownloading /\
    _is_cancelled w = false /\
    wait_while_paused polls (_is_paused w) false = Some (false, false) /\
    get_current d = Some current /\ get_total d = Some total /\
    s = progress_updated (url (download_item w)) /\
    w' = store_progress
           (Qmin 100 (Qmax 0 (inject_Z current / inject_Z (Z.max total 1) * 100)))
           (inject_Z (current - last_bytes w) / Qmax (1 # 10) (now - start_time w))
           (match eta_str d with Some e => e | None => "--:--"%string end)
           current (Z.max total 1) (with_flags false false w).
Proof.
  unfold _update_progress.
  destruct (tick_status d); try discriminate.
  destruct (_is_cancelled w) eqn:Hc; try discriminate.
  destruct (wait_while_paused polls (_is_paused w) false) as [[p c]|] eqn:Hw;
    try discriminate.
  destruct c; try discriminate.
  pose proof (wait_while_paused_left _ _ _ _ _ Hw) as Hp.
  cbn in Hp. rewrite andb_true_r in Hp. subst p.
  destruct (get_current d) as [current|]; try discriminate.
  destruct (get_total d) as [total|]; try discriminate.
  destruct (total_floor_positive total) as [-> Hnz].
  rewrite (py_div_nonzero _ _ Hnz). cbn [start_time last_bytes with_flags].
  rewrite (py_div_nonzero _ _ (proj2 (elapsed_floor_positive (now - start_time w)))).
  intros [= <- <-]. exists current, total. repeat split; reflexivity.
Qed.

(** A tick that updates the item was taken with the worker neither
    paused nor cancelled; it writes the progress fields and
    [last_bytes] and nothing else: the URL, the options, the status and
    the worker's start time are as before.  The total it stores is at
    least 1. *)
Theorem processed_tick_frame now polls d w w' s :
  _update_progress now polls d w = Updated w' s ->
  _is_paused w' = false /\ _is_cancelled w' = false /\
  url (download_item w') = url (download_item w) /\
  options (download_item w') = options (download_item w) /\
  status (download_item w') = status (download_item w) /\
  start_time w' = start_time w /\
  last_bytes w' = bytes_downloaded (download_item w') /\
  (1 <= total_bytes (download_item w'))%Z /\
  s = progress_updated (url (download_item w)).
Proof.
  intros H. apply update_progress_updated in H.
  destruct H as [current [total [_ [_ [_ [_ [_ [-> ->]]]]]]]].
  cbn. repeat split; try reflexivity. lia.
Qed.

Lemma processed_tick_frame_witness :
  exists w',
    _update_progress 10 [] sample_tick fresh_worker
      = Updated w' (progress_updated "https://youtu.be/abc") /\
    _is_paused w' = false /\ _is_cancelled w' = false /\
    status (download_item w') = queued /\
    start_time w' = 0 /\
    last_bytes w' = 50%Z /\ total_bytes (download_item w') = 200%Z.
Proof.
  eexists. split; [reflexivity|].
  destruct (processed_tick_frame 10 [] sample_tick fresh_worker _ _ eq_refl)
    as [Hp [Hc [_ [_ [Hs [Ht [Hl _]]]]]]].
  repeat split; assumption || reflexivity.
Defined.

(** The progress stored by a tick saturates: it is 100 as soon as the
    bytes downloaded reach the total, the total being taken as 1 when
    it is unknown or not positive, and 0 when no byte is downloaded. *)
Theorem progress_saturates now polls d w w' s current total :
  _update_progress now polls d w = Updated w' s ->
  get_current d = Some current -> get_total d = Some total ->
  ((Z.max total 1 <= current)%Z -> progress (download_item w') == 100) /\
  ((current <= 0)%Z -> progress (download_item w') == 0).
Proof.
  intros H Hc Ht. apply update_progress_updated in H.
  destruct H as [c' [t' [_ [_ [_ [Hc' [Ht' [_ ->]]]]]]]].
  rewrite Hc in Hc'. rewrite Ht in Ht'.
  injection Hc' as <-. injection Ht' as <-.
  cbn [progress download_item store_progress].
  assert (Hpos : 0 < inject_Z (Z.max total 1))
    by (change 0 with (inject_Z 0); rewrite <- Zlt_Qlt; lia).
  split; intros Hle.
  - apply Q.min_l. apply Qle_trans with (inject_Z current / inject_Z (Z.max total 1) * 100);
      [|apply Q.le_max_r].
    setoid_replace 100 with (1 * 100) at 1 by reflexivity.
    apply Qmult_le_compat_r; [|discriminate].
    apply Qle_shift_div_l; [exact Hpos|].
    rewrite Qmult_1_l. now rewrite <- Zle_Qle.
  - assert (Hneg : inject_Z current / inject_Z (Z.max total 1) * 100 <= 0).
    { setoid_replace 0 with (0 * 100) by reflexivity.
      apply Qmult_le_compat_r; [|discriminate].
      apply Qle_shift_div_r; [exact Hpos|].
      rewrite Qmult_0_l. change 0 with (inject_Z 0). now rewrite <- Zle_Qle. }
    rewrite Q.max_l by exact Hneg. apply Q.min_r. discriminate.
Qed.

Lemma progress_saturates_witness :
  exists w',
    _update_progress 10 []
      {| tick_status := TickDownloading; downloaded_bytes := PyInt 7;
         tick_total_bytes := PyNone; total_bytes_estimate := Absent;
         eta_str := None |} fresh_worker
      = Updated w' (progress_updated "https://youtu.be/abc") /\
    progress (download_item w') == 100.
Proof.
  eexists. split; [reflexivity|].
  apply (proj1 (progress_saturates 10 []
                  {| tick_status := TickDownloading; downloaded_bytes := PyInt 7;
                     tick_total_bytes := PyNone; total_bytes_estimate := Absent;
                     eta_str := None |}
                  fresh_worker _ _ 7 1 eq_refl eq_refl eq_refl)).
  cbn. lia.
Defined.

(** A key missing from the status dict never makes the hook fail:
    [downloaded_bytes] defaults to 0 and the total to 1.  A tick that
    is processed raises, with [TypeError], exactly when
    [downloaded_bytes] holds [None], or [total_bytes] is missing, [None]
    or 0 while [total_bytes_estimate] holds [None]; otherwise it
    updates the item. *)
Theorem tick_none_raises now polls d w p :
  tick_status d = TickDownloading ->
  _is_cancelled w = false ->
  wait_while_paused polls (_is_paused w) false = Some (p, false) ->
  let none_total :=
    total_bytes_estimate d = PyNone /\
    (tick_total_bytes d = Absent \/ tick_total_bytes d = PyNone \/
     tick_total_bytes d = PyInt 0) in
  (_update_progress now polls d w = Raises TypeError <->
   downloaded_bytes d = PyNone \/ none_total) /\
  (~ (downloaded_bytes d = PyNone \/ none_total) ->
   exists w', _update_progress now polls d w
              = Updated w' (progress_updated (url (download_item w)))).
Proof.
  intros Hst Hc Hw none_total.
  assert (Hcur : get_current d = None <-> downloaded_bytes d = PyNone).
  { unfold get_current. destruct (downloaded_bytes d); split;
      congruence || discriminate. }
  assert (Htot : get_total d = None <-> none_total).
  { unfold get_total, none_total.
    destruct (tick_total_bytes d) as [| |z], (total_bytes_estimate d);
      try destruct (Z.eqb_spec z 0); subst;
      split; try discriminate; try (intros [? ?]; discriminate);
      try (intros [? [?|[?|?]]]; congruence); auto; intros _; auto. }
  assert (Hout :
    _update_progress now polls d w =
    match get_current d, get_total d with
    | Some current, Some total =>
        Updated
          (store_progress
             (Qmin 100 (Qmax 0 (inject_Z current / inject_Z (Z.max total 1) * 100)))
             (inject_Z (current - last_bytes w) / Qmax (1 # 10) (now - start_time w))
             (match eta_str d with Some e => e | None => "--:--"%string end)
             current (Z.max total 1) (with_flags false p w))
          (progress_updated (url (download_item w)))
    | _, _ => Raises TypeError
    end).
  { unfold _update_progress. rewrite Hst, Hc, Hw.
    destruct (get_current d) as [current|]; [|reflexivity].
    destruct (get_total d) as [total|]; [|reflexivity].
    destruct (total_floor_positive total) as [-> Hnz].
    rewrite (py_div_nonzero _ _ Hnz). cbn [start_time last_bytes with_flags].
    now rewrite (py_div_nonzero _ _
                   (proj2 (elapsed_floor_positive (now - start_time w)))). }
  rewrite Hout, <- Hcur, <- Htot.
  destruct (get_current d) as [current|], (get_total d) as [total|]; split;
    try (split; [discriminate | intros [?|?]; discriminate]);
    try (split; [auto | reflexivity]);
    try (intros H; exfalso; apply H; auto; fail);
    try (intros _; eauto).
Qed.

Lemma tick_none_raises_witness :
  _update_progress 10 []
    {| tick_status := TickDownloading; downloaded_bytes := PyInt 7;
       tick_total_bytes := PyInt 0; total_bytes_estimate := PyNone;
       eta_str := None |} fresh_worker
  = Raises TypeError.
Proof.
  apply (proj1 (tick_none_raises 10 []
                  {| tick_status := TickDownloading; downloaded_bytes := PyInt 7;
                     tick_total_bytes := PyInt 0; total_bytes_estimate := PyNone;
                     eta_str := None |}
                  fresh_worker false eq_refl eq_refl eq_refl)).
  right. split; [reflexivity | right; right; reflexivity].
Defined.

End HookMoreFacts.

(** ** The worker's retry loop *)

Module WorkerFacts.
Import Worker.
Local Open Scope Z_scope.
Import WorkerSpec WorkerMoreSpec.

(** *** The shape of a trace *)

Lemma follows_settled prev e :
  settled prev = true -> follows prev e = quiet_after prev e.
Proof.
  destruct prev as [[s|k|k|z|]|]; simpl; try reflexivity.
  destruct (k <? max_attempts); [discriminate | reflexivity].
Qed.

Lemma follows_first prev e :
  settled prev = true -> quiet_after None e = true -> follows prev e = true.
Proof.
  intros Hs H. rewrite follows_settled by assumption.
  destruct e; simpl in *; try reflexivity; discriminate.
Qed.

Lemma backoff_from_settled prev t :
  settled prev = true -> backoff_ok t = true -> backoff_from prev t = true.
Proof.
  intros H Ht. destruct t as [|e rest]; simpl in *; [exact H|].
  apply andb_true_iff in Ht. destruct Ht as [He Hr].
  apply andb_true_iff. split; [now apply follows_first | exact Hr].
Qed.

Lemma backoff_from_app prev t b :
  backoff_from prev t = true -> backoff_ok b = true ->
  backoff_from prev (t ++ b) = true.
Proof.
  revert prev. induction t as [|e rest IH]; intros prev Ht Hb; simpl in *.
  - now apply backoff_from_settled.
  - apply andb_true_iff in Ht. destruct Ht as [-> Ht]. simpl. auto.
Qed.

Lemma backoff_ok_app t b :
  backoff_ok t = true -> backoff_ok b = true -> backoff_ok (t ++ b) = true.
Proof. apply backoff_from_app. Qed.

Lemma calm_backoff_from prev b :
  settled prev = true -> forallb calm b = true -> backoff_from prev b = true.
Proof.
  revert prev. induction b as [|e rest IH]; intros prev Hp Hb; simpl in *.
  - exact Hp.
  - apply andb_true_iff in Hb. destruct Hb as [He Hr].
    rewrite (follows_settled _ _ Hp).
    destruct e; try discriminate; simpl; apply IH; auto.
Qed.

Lemma in_transfer_settled p : in_transfer p = true -> settled (Some p) = true.
Proof. destruct p; try discriminate; reflexivity. Qed.

Lemma hook_effect_in_transfer e : hook_effect e = true -> in_transfer e = true.
Proof. destruct e as [[]| | | |]; try discriminate; reflexivity. Qed.

(** Within a transfer: after the signal that precedes [ydl.download]
    come the effects of the hook, then signals and warnings. *)
Lemma hook_block_backoff p hb tail :
  in_transfer p = true -> forallb hook_effect hb = true ->
  forallb calm tail = true ->
  backoff_from (Some p) (hb ++ tail) = true.
Proof.
  revert p. induction hb as [|e hb IH]; intros p Hp Hh Ht;
    cbn [app backoff_from forallb] in *.
  - apply calm_backoff_from; auto using in_transfer_settled.
  - apply andb_true_iff in Hh. destruct Hh as [He Hr].
    rewrite (follows_settled _ _ (in_transfer_settled _ Hp)).
    assert (Hq : quiet_after (Some p) e = true).
    { destruct e as [[]| | | |]; try discriminate He; simpl; auto. }
    rewrite Hq. cbn [andb]. apply IH; auto using hook_effect_in_transfer.
Qed.

Lemma hook_effect_unfinished hb :
  forallb hook_effect hb = true -> existsb is_finished hb = false.
Proof.
  induction hb as [|e hb IH]; simpl; [reflexivity|].
  intros H. apply andb_true_iff in H. destruct H as [He Hr].
  rewrite (IH Hr). destruct e as [[]| | | |]; try discriminate He; reflexivity.
Qed.

Lemma calm_unfinished_app hb tail :
  forallb hook_effect hb = true -> existsb is_finished tail = false ->
  existsb is_finished (hb ++ tail) = false.
Proof.
  intros Hh Ht. now rewrite existsb_app, (hook_effect_unfinished _ Hh), Ht.
Qed.

Lemma raise_block_ok b k :
  backoff_ok b = true -> k <= max_attempts ->
  backoff_ok (b ++ LogError k ::
                (if k =? max_attempts then [] else [Sleep (5 * k)])) = true.
Proof.
  intros Hb Hk. apply backoff_ok_app; [exact Hb|].
  unfold backoff_ok. simpl.
  destruct (Z.eqb_spec k max_attempts) as [->|Hne]; simpl.
  - reflexivity.
  - destruct (Z.ltb_spec k max_attempts); [|lia].
    now rewrite Z.eqb_refl.
Qed.

(** *** What one pass of the loop does *)

Lemma cancel_call_facts r :
  attempt (cancel_call r) = attempt r /\
  success (cancel_call r) = success r /\
  trace (cancel_call r) = trace r /\
  item_url (cancel_call r) = item_url r /\
  item_options (cancel_call r) = item_options r.
Proof. unfold cancel_call. destruct (cancelled r); auto. Qed.

Lemma cancel_arrives_facts at_ a r :
  attempt (cancel_arrives at_ a r) = attempt r /\
  success (cancel_arrives at_ a r) = success r /\
  trace (cancel_arrives at_ a r) = trace r /\
  item_url (cancel_arrives at_ a r) = item_url r /\
  item_options (cancel_arrives at_ a r) = item_options r.
Proof.
  unfold cancel_arrives.
  destruct (cancel_at a) as [[]|], at_; auto using cancel_call_facts.
Qed.

Lemma extends_refl r : Extends r r [].
Proof. constructor; auto using app_nil_r. Qed.

Lemma extends_trans r r1 r2 b1 b2 :
  Extends r r1 b1 -> Extends r1 r2 b2 -> Extends r r2 (b1 ++ b2).
Proof.
  intros [Ha Hu Ho Ht] [Ha' Hu' Ho' Ht']. constructor; try congruence.
  now rewrite Ht', Ht, app_assoc.
Qed.

Lemma extends_effect r r1 b e :
  Extends r r1 b -> Extends r (effect e r1) (b ++ [e]).
Proof.
  intros [Ha Hu Ho Ht]. constructor; auto.
  cbn [trace effect]. now rewrite Ht, app_assoc.
Qed.

Lemma extends_upd_worker r r1 b f :
  (forall w, url (download_item (f w)) = url (download_item w) /\
             options (download_item (f w)) = options (download_item w)) ->
  Extends r r1 b -> Extends r (upd_worker f r1) b.
Proof.
  intros Hf [Ha Hu Ho Ht]. constructor; auto.
  - unfold item_url in *. cbn [worker upd_worker]. now rewrite (proj1 (Hf _)).
  - unfold item_options in *. cbn [worker upd_worker].
    now rewrite (proj2 (Hf _)).
Qed.

Lemma extends_set_success r r1 b :
  Extends r r1 b -> Extends r (set_success r1) b.
Proof. intros [Ha Hu Ho Ht]. constructor; auto. Qed.

Lemma extends_cancel_call r r1 b :
  Extends r r1 b -> Extends r (cancel_call r1) b.
Proof.
  intros [Ha Hu Ho Ht].
  destruct (cancel_call_facts r1) as [Ca [_ [Ct [Cu Co]]]].
  constructor; congruence.
Qed.

Lemma extends_cancel_arrives r r1 b at_ a :
  Extends r r1 b -> Extends r (cancel_arrives at_ a r1) b.
Proof.
  intros [Ha Hu Ho Ht].
  destruct (cancel_arrives_facts at_ a r1) as [Ca [_ [Ct [Cu Co]]]].
  constructor; congruence.
Qed.

Lemma extends_arrive r r1 b c :
  Extends r r1 b -> Extends r (arrive c r1) b.
Proof.
  intros H. destruct c; cbn [arrive];
    [apply extends_upd_worker; [intros; split; reflexivity | exact H] ..
    | now apply extends_cancel_call].
Qed.

Lemma extends_arrive_all r r1 b calls :
  Extends r r1 b -> Extends r (arrive_all calls r1) b.
Proof.
  unfold arrive_all. revert r1.
  induction calls as [|c calls IH]; intros r1 H; cbn [fold_left]; [exact H|].
  apply IH. now apply extends_arrive.
Qed.

Ltac extends :=
  repeat first
    [ apply extends_effect
    | apply extends_set_success
    | apply extends_cancel_arrives
    | apply extends_arrive_all
    | apply extends_upd_worker; [intros; split; reflexivity|]
    | apply extends_refl ].

Lemma extends_eq r r1 b b' : Extends r r1 b' -> b' = b -> Extends r r1 b.
Proof. now intros H <-. Qed.

Ltac extends_to :=
  eapply extends_eq;
  [extends | cbn [app]; rewrite <- ?app_assoc; reflexivity].

(** *** The hook within a transfer *)

(** What a call of the hook that updates the item leaves as it was. *)
Lemma hook_update_frame now d w w' s :
  Hook._update_progress now [] d w = Hook.Updated w' s ->
  s = progress_updated (url (download_item w)) /\
  url (download_item w') = url (download_item w) /\
  options (download_item w') = options (download_item w) /\
  status (download_item w') = status (download_item w) /\
  _is_cancelled w' = _is_cancelled w /\ _is_paused w' = _is_paused w /\
  _is_cancelled w = false /\ _is_paused w = false.
Proof.
  intros H. apply HookMoreFacts.update_progress_updated in H.
  destruct H as [current [total [_ [Hc [Hw [_ [_ [-> ->]]]]]]]].
  cbn [Hook.wait_while_paused] in Hw.
  destruct (_is_paused w); [discriminate Hw|].
  rewrite Hc. cbn. repeat split; reflexivity.
Qed.

(** The wait loop as [run] goes through it is the wait loop of
    [Hook._update_progress] on the flags read after each sleep. *)
Lemma hook_wait_agrees script r :
  Hook.wait_while_paused (flag_readings script r) (is_paused r) (cancelled r)
  = if fst (hook_wait script r)
    then Some (is_paused (snd (hook_wait script r)),
               cancelled (snd (hook_wait script r)))
    else None.
Proof.
  revert r. induction script as [|calls script IH]; intros r;
    cbn [flag_readings hook_wait Hook.wait_while_paused];
    destruct (is_paused r && negb (cancelled r)); cbn [fst snd];
    try reflexivity.
  apply IH.
Qed.

Lemma hook_wait_extends script r :
  exists hb,
    Extends r (snd (hook_wait script r)) hb /\
    forallb hook_effect hb = true.
Proof.
  revert r. induction script as [|calls script IH]; intros r;
    cbn [hook_wait]; destruct (is_paused r && negb (cancelled r)); cbn [snd].
  - exists [HookSleep]. split; [extends_to | reflexivity].
  - exists []. split; [extends | reflexivity].
  - destruct (IH (arrive_all calls (effect HookSleep r))) as [hb [He Hh]].
    exists ([HookSleep] ++ hb). split; [|exact Hh].
    eapply extends_trans; [|exact He]. extends_to.
  - exists []. split; [extends | reflexivity].
Qed.

Lemma hook_call_extends a h r :
  exists hb,
    Extends r (snd (hook_call a h r)) hb /\
    forallb hook_effect hb = true /\
    fst (hook_call a h r) <> OutOfFuel.
Proof.
  unfold hook_call. cbv zeta.
  set (r1 := arrive_all (calls_before h) r).
  assert (H1 : Extends r r1 []) by (subst r1; extends).
  assert (Hidle : exists hb, Extends r r1 hb /\ forallb hook_effect hb = true /\
                             Normal <> OutOfFuel)
    by (exists []; split; [exact H1 | split; [reflexivity | discriminate]]).
  destruct (Hook.tick_status (hook_tick h)); cbn [fst snd]; try exact Hidle.
  destruct (cancelled r1); cbn [fst snd]; try exact Hidle.
  destruct (hook_wait_extends (calls_during h ++ planned_cancel a) r1)
    as [hb [He Hh]].
  destruct (hook_wait (calls_during h ++ planned_cancel a) r1) as [left r2].
  cbn [snd] in He.
  assert (H2 : Extends r r2 hb) by (apply (extends_trans _ _ _ _ _ H1 He)).
  destruct left; cbn [fst snd];
    [|exists hb; split; [exact H2 | split; [exact Hh | discriminate]]].
  destruct (Hook._update_progress (hook_now h) [] (hook_tick h) (worker r2))
    as [| | |e|w' s] eqn:Eu; cbn [fst snd];
    try (exists hb; split; [exact H2 | split; [exact Hh | discriminate]]).
  destruct (hook_update_frame _ _ _ _ _ Eu) as [-> [Hu [Ho _]]].
  exists (hb ++ [Emit (progress_updated (url (download_item (worker r2))))]).
  split; [|split; [|discriminate]].
  - apply extends_effect. destruct H2 as [Xa Xu Xo Xt].
    constructor; auto; unfold item_url, item_options in *;
      cbn [worker upd_worker]; congruence.
  - now rewrite forallb_app, Hh.
Qed.

Lemma hook_calls_extends a hs r :
  exists hb,
    Extends r (snd (hook_calls a hs r)) hb /\
    forallb hook_effect hb = true /\
    fst (hook_calls a hs r) <> OutOfFuel.
Proof.
  revert r. induction hs as [|h hs IH]; intros r; cbn [hook_calls].
  - exists []. split; [extends | split; [reflexivity | discriminate]].
  - destruct (hook_call_extends a h r) as [hb [He [Hh Hf]]].
    destruct (hook_call a h r) as [fl r1]. cbn [fst snd] in *.
    destruct fl;
      try (exists hb; split; [exact He | split; [exact Hh | exact Hf]]).
    destruct (IH r1) as [hb' [He' [Hh' Hf']]].
    exists (hb ++ hb'). split; [now apply extends_trans with r1|].
    split; [|exact Hf']. now rewrite forallb_app, Hh, Hh'.
Qed.

Lemma download_ends_extends a r :
  exists tail,
    Extends r (snd (download_ends a r)) tail /\
    forallb calm tail = true /\ existsb is_finished tail = false /\
    fst (download_ends a r) <> OutOfFuel /\
    fst (download_ends a r) <> Hang.
Proof.
  unfold download_ends. cbv zeta.
  destruct (transfer a); cbn [fst snd].
  - exists []. split; [extends|]. repeat split; discriminate.
  - eexists. split; [extends_to|]. repeat split; discriminate.
  - match goal with |- context [if verify ?x then _ else _] =>
      destruct (verify x) end;
      [match goal with |- context [_verify_download ?x ?y] =>
         destruct (_verify_download x y) end|];
      cbn [fst snd]; eexists; (split; [extends_to|]);
      repeat split; discriminate.
Qed.

Lemma attempt_body_extends a r :
  exists b,
    Extends r (snd (attempt_body a r)) b /\
    backoff_ok b = true /\ existsb is_finished b = false /\
    fst (attempt_body a r) <> OutOfFuel.
Proof.
  unfold attempt_body. cbv zeta.
  destruct (probe_ok a); cbn [negb fst snd];
    [|exists []; split; [extends | repeat split; discriminate]].
  set (r1 := effect _ _).
  set (md := Emit (metadata_received (item_url
               (upd_worker (with_item (set_total_bytes (probe_size a)))
                           (cancel_arrives DuringProbe a r))))) in *.
  assert (H1 : Extends r r1 [md]) by (subst r1 md; extends_to).
  destruct (cancelled r1); cbn [fst snd];
    [exists [md]; split; [exact H1 | repeat split; discriminate]|].
  destruct (hook_calls_extends a (ticks a) (cancel_arrives DuringTransfer a r1))
    as [hb [He [Hh Hf]]].
  destruct (hook_calls a (ticks a) (cancel_arrives DuringTransfer a r1))
    as [fl r2]. cbn [fst snd] in *.
  assert (H2 : Extends r r2 ([md] ++ hb)).
  { eapply extends_trans; [|exact He]. now apply extends_cancel_arrives. }
  assert (Hplain : backoff_ok ([md] ++ hb) = true /\
                   existsb is_finished ([md] ++ hb) = false).
  { split.
    - unfold backoff_ok. cbn [app backoff_from]. subst md. cbn [follows quiet_after andb].
      rewrite <- (app_nil_r hb). now apply hook_block_backoff.
    - cbn [app existsb]. subst md. cbn [is_finished orb].
      now apply hook_effect_unfinished. }
  destruct fl; cbn [fst snd];
    try (exists ([md] ++ hb); split; [exact H2|];
         split; [apply Hplain | split; [apply Hplain | assumption || discriminate]]).
  destruct (download_ends_extends a r2) as [tail [Ht [Hc [Hu [Hf1 _]]]]].
  exists (([md] ++ hb) ++ tail). split; [now apply extends_trans with r2|].
  split; [|split; [|exact Hf1]].
  - rewrite <- app_assoc. unfold backoff_ok. cbn [app backoff_from].
    subst md. cbn [follows quiet_after andb]. now apply hook_block_backoff.
  - rewrite existsb_app, Hu. now rewrite (proj2 Hplain).
Qed.

Lemma iteration_extends a r :
  attempt r <= max_attempts ->
  exists b,
    Extends r (snd (iteration a r)) b /\
    backoff_ok b = true /\ existsb is_finished b = false /\
    fst (iteration a r) <> OutOfFuel.
Proof.
  intros Hk. unfold iteration.
  destruct (attempt_body_extends a r) as [b [Hext [Hquiet [Hfin Hfl]]]].
  destruct (attempt_body a r) as [fl r1]. cbn [fst snd] in *.
  assert (Hsame : exists b',
             Extends r (cancel_arrives AfterBody a r1) b' /\
             backoff_ok b' = true /\ existsb is_finished b' = false)
    by (exists b; auto using extends_cancel_arrives).
  destruct fl; cbn [fst snd];
    try (destruct Hsame as [b' [? [? ?]]]; exists b';
         split; [assumption|split; [assumption|split; [assumption|]]];
         first [discriminate | assumption]).
  - clear Hsame. cbn [effect attempt].
    rewrite (ext_attempt _ _ _ Hext).
    exists (b ++ LogError (attempt r) ::
              (if attempt r =? max_attempts then [] else [Sleep (5 * attempt r)])).
    split; [|split; [now apply raise_block_ok|split]].
    + destruct (attempt r =? max_attempts); cbn [snd].
      * apply extends_cancel_arrives.
        now apply (extends_effect r r1 b (LogError (attempt r))).
      * apply extends_cancel_arrives.
        change (b ++ [LogError (attempt r); Sleep (5 * attempt r)])
          with (b ++ [LogError (attempt r)] ++ [Sleep (5 * attempt r)]).
        rewrite app_assoc.
        apply (extends_effect r (effect (LogError (attempt r)) r1)).
        now apply extends_effect.
    + rewrite existsb_app, Hfin. simpl.
      destruct (attempt r =? max_attempts); reflexivity.
    + destruct (attempt r =? max_attempts); simpl; discriminate.
  - exists b. split; [exact Hext|]. repeat split; auto; discriminate.
Qed.

(** *** Properties kept by every pass of the loop *)

Section Preserved.
Variable P : Run -> Prop.
Hypothesis P_effect :
  forall e r, is_loop_effect e = true -> P r -> P (effect e r).
Hypothesis P_total :
  forall z r, P r -> P (upd_worker (with_item (set_total_bytes z)) r).
Hypothesis P_completed :
  forall r, P r -> P (upd_worker (with_item (set_status completed)) r).
Hypothesis P_cancel : forall r, P r -> P (upd_worker worker_cancel r).
Hypothesis P_pause : forall r, P r -> P (upd_worker worker_pause r).
Hypothesis P_resume : forall r, P r -> P (upd_worker worker_resume r).
Hypothesis P_progress :
  forall now d r w' s,
    Hook._update_progress now [] d (worker r) = Hook.Updated w' s ->
    P r -> P (upd_worker (fun _ => w') r).
Hypothesis P_success : forall r, P r -> P (set_success r).
Hypothesis P_next : forall r, P r -> P (next_attempt r).

Lemma cancel_call_preserves r : P r -> P (cancel_call r).
Proof. intros H. unfold cancel_call. destruct (cancelled r); auto. Qed.

Lemma cancel_arrives_preserves at_ a r : P r -> P (cancel_arrives at_ a r).
Proof.
  intros H. unfold cancel_arrives.
  destruct (cancel_at a) as [[]|], at_; auto using cancel_call_preserves.
Qed.

Lemma arrive_all_preserves calls r : P r -> P (arrive_all calls r).
Proof.
  unfold arrive_all. revert r.
  induction calls as [|c calls IH]; intros r H; cbn [fold_left]; [exact H|].
  apply IH. destruct c; cbn [arrive]; auto using cancel_call_preserves.
Qed.

Lemma hook_wait_preserves script r : P r -> P (snd (hook_wait script r)).
Proof.
  revert r. induction script as [|calls script IH]; intros r H;
    cbn [hook_wait]; destruct (is_paused r && negb (cancelled r)); cbn [snd];
    auto.
  apply IH. apply arrive_all_preserves. now apply P_effect.
Qed.

Lemma hook_call_preserves a h r : P r -> P (snd (hook_call a h r)).
Proof.
  intros H. unfold hook_call. cbv zeta.
  pose proof (arrive_all_preserves (calls_before h) r H) as H1.
  set (r1 := arrive_all (calls_before h) r) in *.
  destruct (Hook.tick_status (hook_tick h)); cbn [snd]; try exact H1.
  destruct (cancelled r1); cbn [snd]; try exact H1.
  pose proof (hook_wait_preserves (calls_during h ++ planned_cancel a) r1 H1)
    as H2.
  destruct (hook_wait (calls_during h ++ planned_cancel a) r1) as [left r2].
  cbn [snd] in H2.
  destruct left; cbn [snd]; [|exact H2].
  destruct (Hook._update_progress (hook_now h) [] (hook_tick h) (worker r2))
    as [| | |e|w' s] eqn:Eu; cbn [snd]; try exact H2.
  destruct (hook_update_frame _ _ _ _ _ Eu) as [-> _].
  apply P_effect; [reflexivity|]. eapply P_progress; eauto.
Qed.

Lemma hook_calls_preserves a hs r : P r -> P (snd (hook_calls a hs r)).
Proof.
  revert r. induction hs as [|h hs IH]; intros r H; cbn [hook_calls];
    [exact H|].
  pose proof (hook_call_preserves a h r H) as H1.
  destruct (hook_call a h r) as [fl r1]. cbn [snd] in H1.
  destruct fl; cbn [snd]; auto.
Qed.

Ltac preserved :=
  repeat first
    [ assumption
    | apply cancel_arrives_preserves
    | apply P_effect; [reflexivity|]
    | apply P_total
    | apply P_completed
    | apply P_success
    | apply P_next ].

Lemma download_ends_preserves a r : P r -> P (snd (download_ends a r)).
Proof.
  intros H. unfold download_ends. cbv zeta.
  destruct (transfer a); cbn [snd]; [preserved | preserved |].
  match goal with |- context [if verify ?x then _ else _] =>
    destruct (verify x) end; cbn [snd]; [|preserved].
  match goal with |- context [_verify_download ?x ?y] =>
    destruct (_verify_download x y) end; cbn [snd]; preserved.
Qed.

(** [ydl.download] and what follows it in the [with] block. *)
Lemma transfer_preserves a x :
  P x ->
  P (snd (match hook_calls a (ticks a) x with
          | (Normal, r) => download_ends a r
          | other => other
          end)).
Proof.
  intros H.
  pose proof (hook_calls_preserves a (ticks a) x H) as H2.
  destruct (hook_calls a (ticks a) x) as [fl r2]. cbn [snd] in H2.
  destruct fl; cbn [snd]; try exact H2.
  now apply download_ends_preserves.
Qed.

Lemma attempt_body_preserves a r : P r -> P (snd (attempt_body a r)).
Proof.
  intros H. unfold attempt_body. cbv zeta.
  destruct (probe_ok a); cbn [negb snd]; [|preserved].
  match goal with |- context [if cancelled ?x then _ else _] =>
    assert (H1 : P x) by preserved; destruct (cancelled x) end;
    cbn [snd]; [exact H1|].
  apply transfer_preserves. preserved.
Qed.

(** The handler of a pass. *)
Lemma handler_preserves a r :
  P (snd (attempt_body a r)) -> P (snd (iteration a r)).
Proof.
  intros Hb. unfold iteration.
  destruct (attempt_body a r) as [fl r1]. cbn [snd] in Hb.
  destruct fl; cbn [snd]; try (now apply cancel_arrives_preserves);
    [|exact Hb].
  match goal with |- context [if ?c then _ else _] => destruct c end;
    cbn [snd]; preserved.
Qed.

Lemma iteration_preserves a r : P r -> P (snd (iteration a r)).
Proof.
  intros H. apply handler_preserves. now apply attempt_body_preserves.
Qed.

Lemma retry_loop_preserves fuel env r : P r -> P (snd (retry_loop fuel env r)).
Proof.
  revert r. induction fuel as [|fuel IH]; intros r H; cbn [retry_loop];
    destruct ((attempt r <? max_attempts) && negb (success r) && negb (cancelled r));
    cbn [snd]; auto.
  pose proof (iteration_preserves (attempts env (attempt (next_attempt r)))
                (next_attempt r) (P_next _ H)) as Hi.
  destruct (iteration (attempts env (attempt (next_attempt r))) (next_attempt r))
    as [fl r1]. cbn [snd] in Hi.
  destruct fl; cbn [snd]; auto.
Qed.

Lemma run_try_preserves env r :
  (forall b r, P r -> P (upd_worker (with_ffmpeg b) r)) ->
  (forall r, P r -> P (upd_worker (with_item (set_status downloading)) r)) ->
  P r -> P (snd (run_try env r)).
Proof.
  intros Hff Hst H. unfold run_try. cbv zeta.
  set (r1 := upd_worker (with_item (set_status downloading)) r).
  set (check := negb (ffmpeg_checked (worker r1)) && _needs_ffmpeg (item_options r1)).
  set (r2 := if check then upd_worker (with_ffmpeg (ffmpeg_found env)) r1 else r1).
  assert (H2 : P r2) by (subst r2 r1; destruct check; auto).
  destruct (check && negb (ffmpeg_available (worker r2))); cbn [snd]; [exact H2|].
  pose proof (retry_loop_preserves (Z.to_nat max_attempts) env r2 H2) as H3.
  destruct (retry_loop (Z.to_nat max_attempts) env r2) as [fl r3].
  cbn [snd] in H3. unfold after_loop.
  destruct fl; [destruct (negb (success r3) && negb (cancelled r3))|..];
    exact H3.
Qed.
End Preserved.

Lemma run_try_not_stuck env r :
  stuck r = false -> stuck (snd (run_try env r)) = false.
Proof.
  apply (run_try_preserves (fun r => stuck r = false)); auto.
Qed.

(** *** The loop as a whole *)

Lemma advances_refl r : attempt r <= max_attempts -> Advances r r [].
Proof. intros H. constructor; auto using app_nil_r; lia. Qed.

Lemma advances_trans r r1 r2 b1 b2 :
  Advances r r1 b1 -> Advances r1 r2 b2 -> Advances r r2 (b1 ++ b2).
Proof.
  intros [A1 A2 A3 A4 A5 A6 A7] [B1 B2 B3 B4 B5 B6 B7].
  constructor; try congruence; try lia.
  - now rewrite B5, A5, app_assoc.
  - now apply backoff_ok_app.
  - now rewrite existsb_app, A7, B7.
Qed.

Lemma retry_loop_advances fuel env r :
  attempt r <= max_attempts ->
  exists b,
    Advances r (snd (retry_loop fuel env r)) b /\
    (max_attempts - attempt r <= Z.of_nat fuel ->
     fst (retry_loop fuel env r) <> OutOfFuel).
Proof.
  revert r. induction fuel as [|fuel IH]; intros r Hle; cbn [retry_loop].
  - destruct (Z.ltb_spec (attempt r) max_attempts); cbn [andb].
    + destruct (negb (success r) && negb (cancelled r)); cbn [fst snd];
        (exists []; split; [now apply advances_refl|]);
        intros Hfu;
        first [discriminate | idtac].
      exfalso. unfold max_attempts in *. lia.
    + exists []. split; [now apply advances_refl | discriminate].
  - destruct (Z.ltb_spec (attempt r) max_attempts); cbn [andb].
    2:{ exists []. split; [now apply advances_refl | discriminate]. }
    destruct (negb (success r) && negb (cancelled r)).
    2:{ exists []. split; [now apply advances_refl | discriminate]. }
    set (rn := next_attempt r).
    assert (Hn : attempt rn = attempt r + 1) by reflexivity.
    assert (Hrn : attempt rn <= max_attempts) by lia.
    destruct (iteration_extends (attempts env (attempt rn)) rn Hrn)
      as [b [[Ea Eu Eo Et] [Hb [Hf Hfl]]]].
    destruct (iteration (attempts env (attempt rn)) rn) as [fl r1].
    cbn [fst snd] in *.
    assert (Hstep : Advances r r1 b).
    { constructor; auto; try lia; rewrite ?Eu, ?Eo, ?Et; reflexivity. }
    destruct fl; cbn [fst snd];
      try (exists b; split; [exact Hstep | intros _; assumption || discriminate]).
    assert (Hr1 : attempt r1 <= max_attempts) by lia.
    destruct (IH r1 Hr1) as [b' [Hadv Hfuel]].
    exists (b ++ b'). split; [now apply advances_trans with r1|].
    intros Hfu. apply Hfuel. lia.
Qed.

Lemma run_try_advances env r :
  attempt r = 0 ->
  exists b,
    Advances r (snd (run_try env r)) b /\ fst (run_try env r) <> OutOfFuel.
Proof.
  intros H0. unfold run_try. cbv zeta.
  set (r1 := upd_worker (with_item (set_status downloading)) r).
  set (check := negb (ffmpeg_checked (worker r1)) && _needs_ffmpeg (item_options r1)).
  set (r2 := if check then upd_worker (with_ffmpeg (ffmpeg_found env)) r1 else r1).
  assert (H2 : Advances r r2 []).
  { constructor; try reflexivity; subst r2 r1;
      destruct check; cbn; try rewrite H0; try rewrite app_nil_r;
      try reflexivity; unfold max_attempts; lia. }
  destruct (check && negb (ffmpeg_available (worker r2))); cbn [fst snd].
  { exists []. split; [exact H2 | discriminate]. }
  assert (Hr2 : attempt r2 <= max_attempts) by (destruct H2; assumption).
  destruct (retry_loop_advances (Z.to_nat max_attempts) env r2 Hr2)
    as [b [Hadv Hfuel]].
  assert (Hnz : fst (retry_loop (Z.to_nat max_attempts) env r2) <> OutOfFuel).
  { apply Hfuel. destruct H2 as [A1 _ _ _ _ _ _]. rewrite H0 in A1.
    rewrite Z2Nat.id; unfold max_attempts; lia. }
  destruct (retry_loop (Z.to_nat max_attempts) env r2) as [fl r3].
  cbn [fst snd] in *.
  exists b. change b with ([] ++ b). unfold after_loop.
  destruct fl; [destruct (negb (success r3) && negb (cancelled r3))|..];
    cbn [fst snd]; (split; [now apply advances_trans with r2|]);
    try discriminate; assumption.
Qed.

(** *** A run that stays in the hook *)

Lemma hook_wait_stuck script r r' :
  hook_wait script r = (false, r') -> Waiting r'.
Proof.
  revert r. induction script as [|calls script IH]; intros r;
    cbn [hook_wait]; destruct (is_paused r && negb (cancelled r)) eqn:E;
    try discriminate.
  - intros H. injection H as <-.
    apply andb_true_iff in E. destruct E as [Ep Ec].
    apply negb_true_iff in Ec.
    split; [exact Ep | split; [exact Ec | now exists (trace r)]].
  - apply IH.
Qed.

Lemma hook_call_stuck a h r :
  fst (hook_call a h r) = Hang -> Waiting (snd (hook_call a h r)).
Proof.
  unfold hook_call. cbv zeta.
  set (r1 := arrive_all (calls_before h) r).
  destruct (Hook.tick_status (hook_tick h)); cbn [fst snd]; try discriminate.
  destruct (cancelled r1); cbn [fst snd]; try discriminate.
  destruct (hook_wait (calls_during h ++ planned_cancel a) r1) as [left r2] eqn:E.
  destruct left; cbn [fst snd].
  - destruct (Hook._update_progress (hook_now h) [] (hook_tick h) (worker r2));
      cbn [fst]; discriminate.
  - intros _. now apply hook_wait_stuck in E.
Qed.

Lemma hook_calls_stuck a hs r :
  fst (hook_calls a hs r) = Hang -> Waiting (snd (hook_calls a hs r)).
Proof.
  revert r. induction hs as [|h hs IH]; intros r; cbn [hook_calls];
    [discriminate|].
  pose proof (hook_call_stuck a h r) as H1.
  destruct (hook_call a h r) as [fl r1]. cbn [fst snd] in H1.
  destruct fl; cbn [fst snd]; try discriminate; auto.
Qed.

Lemma attempt_body_stuck a r :
  fst (attempt_body a r) = Hang -> Waiting (snd (attempt_body a r)).
Proof.
  unfold attempt_body. cbv zeta.
  destruct (probe_ok a); cbn [negb fst snd]; [|discriminate].
  match goal with |- context [if cancelled ?x then _ else _] =>
    destruct (cancelled x) end; cbn [fst snd]; [discriminate|].
  match goal with |- context [hook_calls a (ticks a) ?x] =>
    pose proof (hook_calls_stuck a (ticks a) x) as H2;
    destruct (hook_calls a (ticks a) x) as [fl r2] end.
  cbn [fst snd] in H2.
  destruct fl; cbn [fst snd]; try discriminate; auto.
  destruct (download_ends_extends a r2) as [_ [_ [_ [_ [_ Hn]]]]].
  intros H. contradiction.
Qed.

Lemma iteration_stuck a r :
  fst (iteration a r) = Hang -> Waiting (snd (iteration a r)).
Proof.
  unfold iteration.
  pose proof (attempt_body_stuck a r) as H1.
  destruct (attempt_body a r) as [fl r1]. cbn [fst snd] in H1.
  destruct fl; cbn [fst snd]; try discriminate; auto.
  destruct (attempt (effect (LogError (attempt r1)) r1) =? max_attempts);
    cbn [fst]; discriminate.
Qed.

Lemma retry_loop_stuck fuel env r :
  fst (retry_loop fuel env r) = Hang -> Waiting (snd (retry_loop fuel env r)).
Proof.
  revert r. induction fuel as [|fuel IH]; intros r; cbn [retry_loop];
    destruct ((attempt r <? max_attempts) && negb (success r) && negb (cancelled r));
    cbn [fst snd]; try discriminate.
  pose proof (iteration_stuck (attempts env (attempt (next_attempt r)))
                (next_attempt r)) as Hi.
  destruct (iteration (attempts env (attempt (next_attempt r))) (next_attempt r))
    as [fl r1]. cbn [fst snd] in Hi.
  destruct fl; cbn [fst snd]; try discriminate; auto.
Qed.

Lemma run_try_stuck env r :
  fst (run_try env r) = Hang -> Waiting (snd (run_try env r)).
Proof.
  unfold run_try. cbv zeta.
  match goal with |- context [if ?c then (Raise SubprocessError, _) else _] =>
    destruct c end; cbn [fst snd]; [discriminate|].
  match goal with |- context [retry_loop ?f env ?x] =>
    pose proof (retry_loop_stuck f env x) as H3;
    destruct (retry_loop f env x) as [fl r3] end.
  cbn [fst snd] in H3. unfold after_loop.
  destruct fl; [destruct (negb (success r3) && negb (cancelled r3))|..];
    cbn [fst snd]; try discriminate; auto.
Qed.

(** [run] makes at most three attempts and its trace obeys the
    discipline [backoff_ok].  Either it returns, and the last effect is
    the one [worker_finished] it emits; or its thread stays in the wait
    loop of the hook, and it emits no [worker_finished]. *)
Lemma run_spec env w :
  exists r,
    run env w = Some r /\
    0 <= attempt r <= max_attempts /\
    backoff_ok (trace r) = true /\
    (stuck r = false ->
     exists t,
       trace r = t ++ [Emit (worker_finished (url (download_item w)))] /\
       existsb is_finished t = false) /\
    (stuck r = true ->
     Waiting r /\ existsb is_finished (trace r) = false).
Proof.
  unfold run, except_finally, run_finally.
  set (r0 := initial_run env w).
  assert (Hu : item_url r0 = url (download_item w)).
  { subst r0. unfold initial_run, item_url. cbn [worker].
    destruct (cancelled_before_start env); reflexivity. }
  destruct (run_try_advances env r0 eq_refl) as [b [[A1 A2 A3 A4 A5 A6 A7] Hfl]].
  pose proof (run_try_stuck env r0) as Hst.
  pose proof (run_try_not_stuck env r0 eq_refl) as Hns.
  destruct (run_try env r0) as [fl r]. cbn [fst snd] in *.
  change (trace r0) with (@nil Effect) in A5. cbn [app] in A5.
  change (attempt r0) with 0 in A1.
  assert (Hplain :
    exists rf, Some (effect (Emit (worker_finished (item_url r))) r) = Some rf /\
      0 <= attempt rf <= max_attempts /\
      backoff_ok (trace rf) = true /\
      (stuck rf = false ->
       exists t,
         trace rf = t ++ [Emit (worker_finished (url (download_item w)))] /\
         existsb is_finished t = false) /\
      (stuck rf = true ->
       Waiting rf /\ existsb is_finished (trace rf) = false)).
  { eexists. split; [reflexivity|]. cbn [attempt trace effect stuck].
    split; [lia|]. split; [rewrite A5; now apply backoff_ok_app|].
    split; [|intros C; congruence].
    intros _. exists b. now rewrite A5, A3, Hu. }
  destruct fl; try contradiction; try exact Hplain.
  - destruct (negb (cancelled r)); [|exact Hplain].
    eexists. split; [reflexivity|].
    cbn [attempt trace effect stuck upd_worker].
    change (item_url (effect _ (upd_worker (with_item (set_status error)) r)))
      with (item_url r).
    change (item_url (upd_worker (with_item (set_status error)) r))
      with (item_url r).
    rewrite A5, A3, Hu. split; [lia|]. split; [|split].
    + rewrite <- app_assoc. now apply backoff_ok_app.
    + intros _. exists (b ++ [Emit (download_error (url (download_item w)))]).
      split; [reflexivity|]. now rewrite existsb_app, A7.
    + intros C. congruence.
  - eexists. split; [reflexivity|]. cbn [attempt trace set_stuck stuck].
    split; [lia|]. split; [now rewrite A5|].
    split; [discriminate|]. intros _. split; [|now rewrite A5].
    exact (Hst eq_refl).
Qed.

Lemma signals_of_app t1 t2 : signals_of (t1 ++ t2) = signals_of t1 ++ signals_of t2.
Proof. apply flat_map_app. Qed.

Lemma sleeps_of_app t1 t2 : sleeps_of (t1 ++ t2) = sleeps_of t1 ++ sleeps_of t2.
Proof. apply flat_map_app. Qed.

(** *** The loop, pass by pass *)

Lemma retry_loop_enter fuel env r :
  attempt r < max_attempts -> success r = false -> cancelled r = false ->
  retry_loop (S fuel) env r =
  match iteration (attempts env (attempt r + 1)) (next_attempt r) with
  | (Normal, r') => retry_loop fuel env r'
  | other => other
  end.
Proof.
  intros Hk Hs Hc. cbn [retry_loop]. rewrite Hs, Hc.
  destruct (Z.ltb_spec (attempt r) max_attempts); [|lia].
  cbn [andb negb attempt next_attempt].
  destruct (iteration (attempts env (attempt r + 1)) (next_attempt r)) as [[] ?];
    reflexivity.
Qed.

Lemma retry_loop_leave fuel env r :
  attempt r = max_attempts \/ success r = true ->
  retry_loop fuel env r = (Normal, r).
Proof.
  intros H. destruct fuel; cbn [retry_loop];
    (destruct H as [-> | ->];
     [rewrite Z.ltb_irrefl | rewrite andb_false_r]); reflexivity.
Qed.

(** *** The hook in a run nobody disturbs *)

Lemma hook_wait_unpaused script r :
  is_paused r = false -> hook_wait script r = (true, r).
Proof. intros H. destruct script; cbn [hook_wait]; now rewrite H. Qed.

(** On a worker that is neither paused nor cancelled, a tick with
    status [downloading] either raises [TypeError] or updates the
    item. *)
Lemma hook_update_unpaused now d w :
  _is_cancelled w = false -> _is_paused w = false ->
  is_downloading d = true ->
  (tick_raises d = true ->
   Hook._update_progress now [] d w = Hook.Raises Hook.TypeError) /\
  (tick_raises d = false ->
   exists w', Hook._update_progress now [] d w
              = Hook.Updated w' (progress_updated (url (download_item w)))).
Proof.
  intros Hc Hp Hd. unfold tick_raises. rewrite Hd. cbn [andb].
  unfold is_downloading in Hd. unfold Hook._update_progress.
  destruct (Hook.tick_status d); try discriminate Hd.
  rewrite Hc, Hp. cbn [Hook.wait_while_paused andb negb].
  destruct (Hook.get_current d) as [current|];
    [|split; [reflexivity | discriminate]].
  destruct (Hook.get_total d) as [total|];
    [|split; [reflexivity | discriminate]].
  split; [discriminate|]. intros _.
  destruct (HookFacts.total_floor_positive total) as [-> Hnz].
  rewrite (HookFacts.py_div_nonzero _ _ Hnz).
  cbn [start_time last_bytes with_flags].
  destruct (HookFacts.elapsed_floor_positive (now - start_time w)%Q) as [_ Hnz'].
  rewrite (HookFacts.py_div_nonzero _ _ Hnz').
  eexists. reflexivity.
Qed.

Lemma hook_call_undisturbed a h r :
  cancelled r = false -> is_paused r = false -> calls_before h = [] ->
  exists r',
    hook_call a h r
    = (if tick_raises (hook_tick h)
       then Raise (HookError Hook.TypeError) else Normal, r') /\
    Extends r r'
      (if tick_raises (hook_tick h) then []
       else if is_downloading (hook_tick h)
            then [Emit (progress_updated (item_url r))] else []) /\
    success r' = success r /\ cancelled r' = false /\ is_paused r' = false /\
    final_status r' = final_status r.
Proof.
  intros Hc Hp Hb. unfold hook_call. rewrite Hb. cbv zeta.
  cbn [arrive_all fold_left].
  destruct (is_downloading (hook_tick h)) eqn:Hd.
  2:{ unfold tick_raises. rewrite Hd. cbn [andb].
      unfold is_downloading in Hd.
      exists r. split; [destruct (Hook.tick_status (hook_tick h));
                        try discriminate Hd; reflexivity|].
      split; [apply extends_refl | auto 10]. }
  assert (Hs : Hook.tick_status (hook_tick h) = Hook.TickDownloading).
  { unfold is_downloading in Hd.
    destruct (Hook.tick_status (hook_tick h)); try discriminate Hd; reflexivity. }
  rewrite Hs, Hc, (hook_wait_unpaused _ _ Hp).
  destruct (hook_update_unpaused (hook_now h) (hook_tick h) (worker r) Hc Hp Hd)
    as [Hraise Hupd].
  destruct (tick_raises (hook_tick h)).
  - rewrite (Hraise eq_refl). exists r.
    split; [reflexivity|]. split; [apply extends_refl | auto 10].
  - destruct (Hupd eq_refl) as [w' Eu]. rewrite Eu.
    destruct (hook_update_frame _ _ _ _ _ Eu)
      as [_ [Hu [Ho [Hst [Hcw [Hpw _]]]]]].
    eexists. split; [reflexivity|]. split; [|split; [reflexivity|]].
    + apply (extends_effect r _ []).
      constructor; try reflexivity; unfold item_url, item_options;
        cbn [worker upd_worker trace]; auto using app_nil_r.
    + unfold cancelled, is_paused, final_status in *.
      cbn [worker upd_worker effect]. repeat split; congruence.
Qed.

Lemma hook_calls_undisturbed a hs r :
  cancelled r = false -> is_paused r = false ->
  (forall h, In h hs -> calls_before h = []) ->
  exists r',
    hook_calls a hs r
    = (if existsb (fun h => tick_raises (hook_tick h)) hs
       then Raise (HookError Hook.TypeError) else Normal, r') /\
    Extends r r' (progress_block (item_url r) hs) /\
    success r' = success r /\ cancelled r' = false /\ is_paused r' = false /\
    final_status r' = final_status r.
Proof.
  revert r. induction hs as [|h hs IH]; intros r Hc Hp Hb;
    cbn [hook_calls existsb progress_block].
  - exists r. split; [reflexivity|]. split; [apply extends_refl | auto 10].
  - destruct (hook_call_undisturbed a h r Hc Hp (Hb h (or_introl eq_refl)))
      as [r1 [E [Hext [Hs [Hc1 [Hp1 Hf1]]]]]].
    rewrite E. destruct (tick_raises (hook_tick h)); cbn [orb].
    + exists r1. auto 10.
    + destruct (IH r1 Hc1 Hp1) as [r2 [E2 [Hext2 [Hs2 [Hc2 [Hp2 Hf2]]]]]];
        [intros h' Hin; apply Hb; now right|].
      rewrite E2. exists r2. split; [reflexivity|].
      split; [|repeat split; congruence].
      rewrite (ext_url _ _ _ Hext) in Hext2.
      now apply extends_trans with r1.
Qed.

(** The [with] block up to the end of [ydl.download], in a run nobody
    disturbs. *)
Lemma attempt_body_undisturbed a r :
  cancel_at a = None ->
  (forall h, In h (ticks a) -> calls_before h = []) ->
  cancelled r = false -> is_paused r = false ->
  exists r2,
    attempt_body a r
    = (if negb (probe_ok a) then (Raise FetcherError, r2)
       else if hook_raises a then (Raise (HookError Hook.TypeError), r2)
       else download_ends a r2) /\
    Extends r r2 (body_block (item_url r) a) /\
    success r2 = success r /\ cancelled r2 = false /\ is_paused r2 = false.
Proof.
  intros Hca Hb Hc Hp. unfold attempt_body, cancel_arrives, body_block.
  rewrite Hca. cbv zeta.
  destruct (probe_ok a); cbn [negb].
  2:{ exists r. split; [reflexivity|]. split; [apply extends_refl | auto 10]. }
  set (r1 := effect _ _).
  assert (H1 : Extends r r1 [Emit (metadata_received (item_url r))])
    by (subst r1; extends_to).
  assert (Hc1 : cancelled r1 = false) by exact Hc.
  assert (Hp1 : is_paused r1 = false) by exact Hp.
  rewrite Hc1.
  destruct (hook_calls_undisturbed a (ticks a) r1 Hc1 Hp1 Hb)
    as [r2 [E [Hext [Hs [Hc2 [Hp2 _]]]]]].
  rewrite E. fold (hook_raises a).
  exists r2. split; [destruct (hook_raises a); reflexivity|].
  split; [|repeat split; auto].
  rewrite (ext_url _ _ _ H1) in Hext.
  change (Emit (metadata_received (item_url r)) :: progress_block (item_url r) (ticks a))
    with ([Emit (metadata_received (item_url r))] ++ progress_block (item_url r) (ticks a)).
  now apply extends_trans with r1.
Qed.

(** A pass whose attempt fails, in a run nobody disturbs. *)
Lemma iteration_fails a r :
  cancel_at a = None ->
  (forall h, In h (ticks a) -> calls_before h = []) ->
  cancelled r = false -> is_paused r = false -> attempt_fails a = true ->
  exists r' e,
    iteration a r =
      (if attempt_raises a && (attempt r =? max_attempts)
       then Raise e else Normal, r') /\
    Extends r r' (fail_block (item_url r) (attempt r) a) /\
    success r' = success r /\ cancelled r' = false /\ is_paused r' = false.
Proof.
  intros Hca Hb Hc Hp Hf.
  destruct (attempt_body_undisturbed a r Hca Hb Hc Hp)
    as [r2 [E [Hext [Hs [Hc2 Hp2]]]]].
  unfold iteration. rewrite E. clear E.
  unfold fail_block, attempt_fails, attempt_raises, attempt_empty in *.
  unfold cancel_arrives. rewrite Hca.
  assert (Hraise : forall e0,
    exists r' e,
      (let r3 := effect (LogError (attempt r2)) r2 in
       if attempt r3 =? max_attempts
       then (Raise e0, r3)
       else (Normal, effect (Sleep (5 * attempt r3)) r3))
      = (if true && (attempt r =? max_attempts) then Raise e else Normal, r') /\
      Extends r r'
        (body_block (item_url r) a ++
         LogError (attempt r) ::
         (if attempt r =? max_attempts then [] else [Sleep (5 * attempt r)])) /\
      success r' = success r /\ cancelled r' = false /\ is_paused r' = false).
  { intros e0. cbv zeta. cbn [effect attempt andb].
    rewrite (ext_attempt _ _ _ Hext).
    destruct (attempt r =? max_attempts); eexists; exists e0;
      (split; [reflexivity|]); (split; [|auto]).
    - now apply (extends_effect r r2).
    - change (body_block (item_url r) a ++
              [LogError (attempt r); Sleep (5 * attempt r)])
        with (body_block (item_url r) a ++
              [LogError (attempt r)] ++ [Sleep (5 * attempt r)]).
      rewrite app_assoc. apply extends_effect. now apply extends_effect. }
  destruct (probe_ok a); cbn [negb orb andb] in *; [|apply Hraise].
  destruct (hook_raises a); cbn [negb orb andb] in *; [apply Hraise|].
  unfold download_ends.
  destruct (transfer a); cbn [orb] in *; try discriminate.
  - apply Hraise.
  - eexists. exists FetcherError. cbn [andb]. split; [reflexivity|].
    split; [|auto]. rewrite <- (ext_attempt _ _ _ Hext).
    now apply extends_effect.
Qed.

(** The end of a transfer that succeeds, in a run nobody disturbs. *)
Lemma download_ends_ok a r2 :
  transfer a = OutputOk ->
  exists r',
    download_ends a r2
    = (match (if verify (item_options r2)
              then _verify_download (item_options r2) (final_file a)
              else None) with
       | Some e => Raise e
       | None => Normal
       end, r') /\
    Extends r2 r' [Emit (download_complete (item_url r2))] /\
    success r' = true /\ cancelled r' = cancelled r2 /\
    is_paused r' = is_paused r2 /\ final_status r' = completed.
Proof.
  intros Ht. unfold download_ends. rewrite Ht. cbv zeta.
  match goal with |- context [if verify ?x then _ else _] =>
    change x with (item_options r2) end.
  match goal with |- context [_verify_download ?x ?y] =>
    change (_verify_download x y)
      with (_verify_download (item_options r2) (final_file a)) end.
  destruct (verify (item_options r2));
    [destruct (_verify_download (item_options r2) (final_file a))|];
    eexists; (split; [reflexivity|]);
    (split; [extends_to | repeat split; reflexivity]).
Qed.

(** A pass whose transfer succeeds and whose integrity check, if
    requested, passes. *)
Lemma iteration_succeeds a r :
  cancel_at a = None ->
  (forall h, In h (ticks a) -> calls_before h = []) ->
  cancelled r = false -> is_paused r = false ->
  transfer_succeeds a = true -> verify_fails (item_options r) a = false ->
  exists r',
    iteration a r = (Normal, r') /\
    Extends r r' (body_block (item_url r) a ++
                  [Emit (download_complete (item_url r))]) /\
    success r' = true /\ cancelled r' = false /\
    final_status r' = completed.
Proof.
  intros Hca Hb Hc Hp Hs Hv.
  destruct (attempt_body_undisturbed a r Hca Hb Hc Hp)
    as [r2 [E [Hext [Hs2 [Hc2 Hp2]]]]].
  unfold iteration. rewrite E. clear E.
  unfold transfer_succeeds, verify_fails in *.
  unfold cancel_arrives. rewrite Hca.
  destruct (probe_ok a); cbn [negb andb] in *; [|discriminate].
  destruct (hook_raises a); cbn [negb andb] in *; [discriminate|].
  destruct (transfer a) eqn:Et; try discriminate.
  destruct (download_ends_ok a r2 Et) as [r' [E [Hx [Hs' [Hc' [Hp' Hf']]]]]].
  rewrite E. rewrite (ext_options _ _ _ Hext), (ext_url _ _ _ Hext) in *.
  assert (Hnone : (if verify (item_options r)
                   then _verify_download (item_options r) (final_file a)
                   else None) = None).
  { destruct (verify (item_options r)); [|reflexivity].
    cbn [andb] in Hv.
    destruct (_verify_download (item_options r) (final_file a));
      [discriminate | reflexivity]. }
  rewrite Hnone. exists r'. split; [reflexivity|].
  split; [now apply extends_trans with r2|].
  repeat split; congruence.
Qed.

(** A pass whose transfer succeeds and whose integrity check fails:
    the exception reaches the pass's handler, which re-raises it only
    on the last attempt. *)
Lemma iteration_verify_fails a r :
  cancel_at a = None ->
  (forall h, In h (ticks a) -> calls_before h = []) ->
  cancelled r = false -> is_paused r = false ->
  transfer_succeeds a = true -> verify_fails (item_options r) a = true ->
  exists r' e,
    iteration a r =
      (if attempt r =? max_attempts then Raise e else Normal, r') /\
    Extends r r'
      (body_block (item_url r) a ++
       [Emit (download_complete (item_url r)); LogError (attempt r)] ++
       (if attempt r =? max_attempts then [] else [Sleep (5 * attempt r)])) /\
    success r' = true /\ cancelled r' = false /\
    final_status r' = completed.
Proof.
  intros Hca Hb Hc Hp Hs Hv.
  destruct (attempt_body_undisturbed a r Hca Hb Hc Hp)
    as [r2 [E [Hext [Hs2 [Hc2 Hp2]]]]].
  unfold iteration. rewrite E. clear E.
  unfold transfer_succeeds, verify_fails in *.
  unfold cancel_arrives. rewrite Hca.
  destruct (probe_ok a); cbn [negb andb] in *; [|discriminate].
  destruct (hook_raises a); cbn [negb andb] in *; [discriminate|].
  destruct (transfer a) eqn:Et; try discriminate.
  destruct (download_ends_ok a r2 Et) as [r' [E [Hx [Hs' [Hc' [Hp' Hf']]]]]].
  rewrite E. rewrite (ext_options _ _ _ Hext), (ext_url _ _ _ Hext) in *.
  destruct (verify (item_options r)); cbn [andb] in Hv; [|discriminate].
  destruct (_verify_download (item_options r) (final_file a)) as [e|];
    [|discriminate].
  assert (Ha : attempt r' = attempt r)
    by (rewrite (ext_attempt _ _ _ Hx); apply (ext_attempt _ _ _ Hext)).
  assert (Hx' : Extends r r' (body_block (item_url r) a ++
                              [Emit (download_complete (item_url r))]))
    by now apply extends_trans with r2.
  cbn [effect attempt]. rewrite Ha.
  destruct (attempt r =? max_attempts); eexists; exists e;
    (split; [reflexivity|]);
    (split; [|repeat split; unfold cancelled, final_status in *;
              cbn [worker effect success]; congruence]).
  - rewrite app_nil_r.
    change (body_block (item_url r) a ++
            [Emit (download_complete (item_url r)); LogError (attempt r)])
      with (body_block (item_url r) a ++
            [Emit (download_complete (item_url r))] ++ [LogError (attempt r)]).
    rewrite app_assoc. now apply extends_effect.
  - change (body_block (item_url r) a ++
            [Emit (download_complete (item_url r)); LogError (attempt r)] ++
            [Sleep (5 * attempt r)])
      with (body_block (item_url r) a ++
            [Emit (download_complete (item_url r))] ++
            [LogError (attempt r)] ++ [Sleep (5 * attempt r)]).
    rewrite !app_assoc. apply extends_effect. apply extends_effect.
    exact Hx'.
Qed.

(** Past the FFmpeg check, [run_try] is the loop followed by the
    statement after it. *)
Lemma run_try_ready env w :
  cancelled_before_start env = false -> _is_cancelled w = false ->
  ffmpeg_ready env w ->
  exists r,
    run_try env (initial_run env w)
      = after_loop (retry_loop (Z.to_nat max_attempts) env r) /\
    attempt r = 0 /\ success r = false /\ cancelled r = false /\
    is_paused r = _is_paused w /\ stuck r = false /\
    trace r = [] /\
    item_url r = url (download_item w) /\
    item_options r = options (download_item w).
Proof.
  intros Hcb Hcw Hff. unfold run_try, initial_run. rewrite Hcb. cbv zeta.
  unfold item_options, cancelled, is_paused, item_url, upd_worker.
  cbn [worker attempt success trace stuck with_item download_item set_status
       options ffmpeg_checked].
  destruct (ffmpeg_checked w) eqn:Efc; cbn [negb andb].
  { eexists. split; [reflexivity|]. cbn. repeat split; auto. }
  destruct (_needs_ffmpeg (options (download_item w))) eqn:Enf.
  2:{ eexists. split; [reflexivity|]. cbn. repeat split; auto. }
  destruct Hff as [Hff|[Hff|Hff]]; try congruence.
  rewrite Hff. cbn.
  eexists. split; [reflexivity|]. cbn. repeat split; auto.
Qed.

Lemma final_status_finally r : final_status (run_finally r) = final_status r.
Proof. reflexivity. Qed.

Lemma trace_finally r :
  trace (run_finally r) = trace r ++ [Emit (worker_finished (item_url r))].
Proof. reflexivity. Qed.

Lemma hook_sleeps_of_app t1 t2 :
  hook_sleeps_of (t1 ++ t2) = (hook_sleeps_of t1 + hook_sleeps_of t2)%nat.
Proof. unfold hook_sleeps_of. now rewrite filter_app, length_app. Qed.

Lemma progress_block_facts u hs :
  sleeps_of (progress_block u hs) = [] /\
  hook_sleeps_of (progress_block u hs) = 0%nat /\
  existsb is_error_signal (signals_of (progress_block u hs)) = false.
Proof.
  induction hs as [|h hs [IH1 [IH2 IH3]]]; cbn [progress_block];
    [repeat split|].
  destruct (tick_raises (hook_tick h)); [repeat split|].
  destruct (is_downloading (hook_tick h)); cbn [app]; auto.
Qed.

Lemma body_block_facts u a :
  sleeps_of (body_block u a) = [] /\
  hook_sleeps_of (body_block u a) = 0%nat /\
  existsb is_error_signal (signals_of (body_block u a)) = false.
Proof.
  unfold body_block. destruct (probe_ok a); [|repeat split].
  destruct (progress_block_facts u (ticks a)) as [H1 [H2 H3]].
  repeat split; assumption.
Qed.

Lemma sleeps_of_fail_block u k a :
  sleeps_of (fail_block u k a) =
  if attempt_raises a && negb (k =? max_attempts) then [5 * k] else [].
Proof.
  unfold fail_block. rewrite sleeps_of_app, (proj1 (body_block_facts u a)).
  destruct (attempt_raises a), (k =? max_attempts); reflexivity.
Qed.

Lemma hook_sleeps_of_fail_block u k a :
  hook_sleeps_of (fail_block u k a) = 0%nat.
Proof.
  unfold fail_block.
  rewrite hook_sleeps_of_app, (proj1 (proj2 (body_block_facts u a))).
  destruct (attempt_raises a), (k =? max_attempts); reflexivity.
Qed.

Lemma errors_of_fail_block u k a :
  existsb is_error_signal (signals_of (fail_block u k a)) = false.
Proof.
  unfold fail_block.
  rewrite signals_of_app, existsb_app, (proj2 (proj2 (body_block_facts u a))).
  destruct (attempt_raises a), (k =? max_attempts); reflexivity.
Qed.

Section Passes.
Variables (env : Env) (w : DownloadWorker).
Hypothesis Hno : forall k, cancel_at (attempts env k) = None.
Hypothesis Hquiet :
  forall k h, In h (ticks (attempts env k)) -> calls_before h = [].

Local Abbreviation u := (url (download_item w)).
Local Abbreviation o := (options (download_item w)).

Ltac unfold_next r :=
  change (success (next_attempt r)) with (success r) in *;
  change (item_url (next_attempt r)) with (item_url r) in *;
  change (item_options (next_attempt r)) with (item_options r) in *;
  change (trace (next_attempt r)) with (trace r) in *;
  change (cancelled (next_attempt r)) with (cancelled r) in *;
  change (is_paused (next_attempt r)) with (is_paused r) in *;
  change (attempt (next_attempt r)) with (attempt r + 1) in *.

(** A failing pass that is not the last one: the loop goes on. *)
Lemma pass_fails fuel r k t :
  Pending w r k t -> k + 1 < max_attempts ->
  attempt_fails (attempts env (k + 1)) = true ->
  exists r',
    retry_loop (S fuel) env r = retry_loop fuel env r' /\
    Pending w r' (k + 1) (t ++ fail_block u (k + 1) (attempts env (k + 1))).
Proof.
  intros [Pa Ps Pc Pp Pu Po Pt] Hk Hf.
  rewrite retry_loop_enter by (auto; lia). rewrite Pa.
  destruct (iteration_fails (attempts env (k + 1)) (next_attempt r))
    as [r' [e [E [[Xa Xu Xo Xt] [Xs [Xc Xp]]]]]]; eauto.
  unfold_next r. rewrite Pa in *.
  destruct (Z.eqb_spec (k + 1) max_attempts) as [|_]; [lia|].
  rewrite andb_false_r in E. rewrite E.
  exists r'. split; [reflexivity|].
  constructor; try congruence; rewrite Xt, Pt, Pu; reflexivity.
Qed.

(** A failing last pass: the loop ends without success. *)
Lemma last_pass_fails fuel r t :
  Pending w r (max_attempts - 1) t ->
  attempt_fails (attempts env max_attempts) = true ->
  exists fl r',
    after_loop (retry_loop (S fuel) env r) = (Raise fl, r') /\
    Pending w r' max_attempts
            (t ++ fail_block u max_attempts (attempts env max_attempts)).
Proof.
  intros [Pa Ps Pc Pp Pu Po Pt] Hf.
  rewrite retry_loop_enter by (auto; unfold max_attempts in *; lia).
  rewrite Pa. change (max_attempts - 1 + 1) with max_attempts.
  destruct (iteration_fails (attempts env max_attempts) (next_attempt r))
    as [r' [e [E [[Xa Xu Xo Xt] [Xs [Xc Xp]]]]]]; eauto.
  unfold_next r. rewrite Pa in *.
  change (max_attempts - 1 + 1) with max_attempts in *.
  rewrite Z.eqb_refl, andb_true_r in E.
  rewrite E.
  assert (HP : Pending w r' max_attempts
            (t ++ fail_block u max_attempts (attempts env max_attempts))).
  { constructor; try congruence; rewrite Xt, Pt, Pu; reflexivity. }
  destruct (attempt_raises (attempts env max_attempts)).
  - exists e, r'. split; [reflexivity | exact HP].
  - rewrite retry_loop_leave by (left; congruence).
    exists RuntimeError, r'. split; [|exact HP].
    unfold after_loop. now rewrite Xs, Ps, Xc.
Qed.

(** A pass whose transfer succeeds and whose check passes: the loop
    ends with the item completed. *)
Lemma pass_succeeds fuel r k t :
  Pending w r k t -> k < max_attempts ->
  transfer_succeeds (attempts env (k + 1)) = true ->
  verify_fails o (attempts env (k + 1)) = false ->
  exists r',
    after_loop (retry_loop (S fuel) env r) = (Normal, r') /\
    attempt r' = k + 1 /\ final_status r' = completed /\
    item_url r' = u /\
    trace r' = t ++ body_block u (attempts env (k + 1)) ++
               [Emit (download_complete u)].
Proof.
  intros [Pa Ps Pc Pp Pu Po Pt] Hk Hs Hv.
  rewrite retry_loop_enter by (auto; lia). rewrite Pa.
  destruct (iteration_succeeds (attempts env (k + 1)) (next_attempt r))
    as [r' [E [[Xa Xu Xo Xt] [Xs [Xc Xf]]]]]; eauto.
  { change (item_options (next_attempt r)) with (item_options r).
    now rewrite Po. }
  rewrite E, retry_loop_leave by (right; assumption).
  unfold after_loop. rewrite Xs. cbn [negb andb].
  exists r'. split; [reflexivity|].
  unfold_next r. rewrite Pu in *. repeat split; congruence.
Qed.

(** A pass whose transfer succeeds and whose check fails.  Before
    the last attempt the handler swallows the exception, and since
    [success] is already set the loop ends normally; on the last
    attempt the exception is re-raised. *)
Lemma pass_verify_fails fuel r k t :
  Pending w r k t -> k < max_attempts ->
  transfer_succeeds (attempts env (k + 1)) = true ->
  verify_fails o (attempts env (k + 1)) = true ->
  exists r' e,
    after_loop (retry_loop (S fuel) env r)
      = (if k + 1 =? max_attempts then Raise e else Normal, r') /\
    attempt r' = k + 1 /\ final_status r' = completed /\
    cancelled r' = false /\
    item_url r' = u /\
    trace r' = t ++ body_block u (attempts env (k + 1)) ++
               [Emit (download_complete u); LogError (k + 1)] ++
               (if k + 1 =? max_attempts then [] else [Sleep (5 * (k + 1))]).
Proof.
  intros [Pa Ps Pc Pp Pu Po Pt] Hk Hs Hv.
  rewrite retry_loop_enter by (auto; lia). rewrite Pa.
  destruct (iteration_verify_fails (attempts env (k + 1)) (next_attempt r))
    as [r' [e [E [[Xa Xu Xo Xt] [Xs [Xc Xf]]]]]]; eauto.
  { change (item_options (next_attempt r)) with (item_options r).
    now rewrite Po. }
  rewrite E. unfold_next r. rewrite Pa in *. rewrite Pu in *.
  exists r', e. split.
  - destruct (k + 1 =? max_attempts); [reflexivity|].
    rewrite retry_loop_leave by (right; assumption).
    unfold after_loop. now rewrite Xs.
  - repeat split; congruence.
Qed.
End Passes.

(** *** Reading [backoff_ok] *)

Lemma backoff_from_tail prev pre x post :
  backoff_from prev (pre ++ x :: post) = true ->
  backoff_from (Some x) post = true.
Proof.
  revert prev. induction pre as [|p pre IH]; intros prev H; simpl in H;
    apply andb_true_iff in H; destruct H as [_ H]; eauto.
Qed.

Lemma backoff_ok_pair pre x y post :
  backoff_ok (pre ++ x :: y :: post) = true -> follows (Some x) y = true.
Proof.
  intros H. apply backoff_from_tail in H. cbn [backoff_from] in H.
  now apply andb_true_iff in H.
Qed.

(** The log line of a raised attempt [k < 3] is followed at once by a
    sleep of [5 * k] seconds. *)
Lemma backoff_after_error t pre k post :
  backoff_ok t = true -> t = pre ++ LogError k :: post -> k < max_attempts ->
  exists post', post = Sleep (5 * k) :: post'.
Proof.
  intros H -> Hk. destruct post as [|y post].
  - apply backoff_from_tail in H. simpl in H.
    destruct (Z.ltb_spec k max_attempts); [discriminate | lia].
  - apply backoff_ok_pair in H. simpl in H.
    destruct (Z.ltb_spec k max_attempts); [|lia].
    destruct y; try discriminate.
    apply Z.eqb_eq in H. subst. eauto.
Qed.

(** A sleep of [run] comes only right after the log line of a raised
    attempt [k < 3], and lasts [5 * k] seconds. *)
Lemma backoff_before_sleep t pre z post :
  backoff_ok t = true -> t = pre ++ Sleep z :: post ->
  exists pre' k, pre = pre' ++ [LogError k] /\ k < max_attempts /\ z = 5 * k.
Proof.
  intros H ->. destruct pre as [|p0 pre0]; [discriminate H|].
  destruct (@exists_last _ (p0 :: pre0)) as [pre' [p E]]; [discriminate|].
  rewrite E in *. clear E.
  rewrite <- app_assoc in H. apply backoff_ok_pair in H.
  destruct p as [|j| | |]; simpl in H; try discriminate.
  destruct (Z.ltb_spec j max_attempts); [|discriminate].
  apply Z.eqb_eq in H. eauto.
Qed.

(** After the warning of an attempt that left no file there is no
    sleep. *)
Lemma backoff_after_warning t pre k post :
  backoff_ok t = true -> t = pre ++ LogWarning k :: post ->
  forall z post', post <> Sleep z :: post'.
Proof.
  intros H -> z post' ->. apply backoff_ok_pair in H. discriminate H.
Qed.

(** A sleep of the hook comes only within a transfer: right after the
    signal emitted before [ydl.download], after the signal of an
    earlier call of the hook, or after another sleep of the hook. *)
Lemma backoff_before_hook_sleep t pre post :
  backoff_ok t = true -> t = pre ++ HookSleep :: post ->
  exists pre' e, pre = pre' ++ [e] /\ in_transfer e = true.
Proof.
  intros H ->. destruct pre as [|p0 pre0]; [discriminate H|].
  destruct (@exists_last _ (p0 :: pre0)) as [pre' [p E]]; [discriminate|].
  rewrite E in *. clear E.
  rewrite <- app_assoc in H. apply backoff_ok_pair in H.
  exists pre', p. split; [reflexivity|].
  destruct p as [s|j|j|z|]; simpl in H; try assumption; try discriminate.
  destruct (j <? max_attempts); discriminate.
Qed.

(** *** A job that nobody pauses *)

Lemma cancel_call_paused r : is_paused (cancel_call r) = is_paused r.
Proof. unfold cancel_call. destruct (cancelled r); reflexivity. Qed.

Lemma cancel_arrives_paused at_ a r : is_paused (cancel_arrives at_ a r) = is_paused r.
Proof.
  unfold cancel_arrives.
  destruct (cancel_at a) as [[]|], at_; auto using cancel_call_paused.
Qed.

Lemma arrive_all_unpaused calls r :
  ~ In CallPause calls -> is_paused r = false ->
  is_paused (arrive_all calls r) = false.
Proof.
  unfold arrive_all. revert r.
  induction calls as [|c calls IH]; intros r Hn Hp; cbn [fold_left];
    [exact Hp|].
  apply IH; [intros Hin; apply Hn; now right|].
  destruct c; cbn [arrive].
  - exfalso. apply Hn. now left.
  - reflexivity.
  - now rewrite cancel_call_paused.
Qed.

Lemma hook_call_unpaused a h r :
  ~ In CallPause (calls_before h) -> is_paused r = false ->
  is_paused (snd (hook_call a h r)) = false /\ fst (hook_call a h r) <> Hang.
Proof.
  intros Hn Hp. unfold hook_call. cbv zeta.
  pose proof (arrive_all_unpaused _ _ Hn Hp) as H1.
  set (r1 := arrive_all (calls_before h) r) in *.
  destruct (Hook.tick_status (hook_tick h)); cbn [fst snd];
    try (split; [exact H1 | discriminate]).
  destruct (cancelled r1); cbn [fst snd];
    try (split; [exact H1 | discriminate]).
  rewrite (hook_wait_unpaused _ _ H1).
  destruct (Hook._update_progress (hook_now h) [] (hook_tick h) (worker r1))
    as [| | |e|w' s] eqn:Eu; cbn [fst snd];
    try (split; [exact H1 | discriminate]).
  destruct (hook_update_frame _ _ _ _ _ Eu) as [_ [_ [_ [_ [_ [Hpw _]]]]]].
  split; [|discriminate]. unfold is_paused in *. cbn [worker effect upd_worker].
  congruence.
Qed.

Lemma hook_calls_unpaused a hs r :
  (forall h, In h hs -> ~ In CallPause (calls_before h)) ->
  is_paused r = false ->
  is_paused (snd (hook_calls a hs r)) = false /\ fst (hook_calls a hs r) <> Hang.
Proof.
  revert r. induction hs as [|h hs IH]; intros r Hn Hp; cbn [hook_calls].
  - split; [exact Hp | discriminate].
  - destruct (hook_call_unpaused a h r (Hn h (or_introl eq_refl)) Hp)
      as [H1 Hf].
    destruct (hook_call a h r) as [fl r1]. cbn [fst snd] in *.
    destruct fl; try (split; [exact H1 | assumption || discriminate]).
    apply IH; [intros h' Hin; apply Hn; now right | exact H1].
Qed.

Lemma download_ends_paused a r : is_paused (snd (download_ends a r)) = is_paused r.
Proof.
  unfold download_ends. cbv zeta. destruct (transfer a); try reflexivity.
  match goal with |- context [if verify ?x then _ else _] =>
    destruct (verify x) end; [|reflexivity].
  match goal with |- context [_verify_download ?x ?y] =>
    destruct (_verify_download x y) end; reflexivity.
Qed.

Lemma attempt_body_unpaused a r :
  (forall h, In h (ticks a) -> ~ In CallPause (calls_before h)) ->
  is_paused r = false ->
  is_paused (snd (attempt_body a r)) = false /\ fst (attempt_body a r) <> Hang.
Proof.
  intros Hn Hp. unfold attempt_body. cbv zeta.
  assert (H0 : is_paused (cancel_arrives DuringProbe a r) = false)
    by now rewrite cancel_arrives_paused.
  destruct (probe_ok a); cbn [negb fst snd]; [|split; [exact H0 | discriminate]].
  set (r1 := effect _ _).
  assert (H1 : is_paused r1 = false) by exact H0.
  destruct (cancelled r1); cbn [fst snd]; [split; [exact H1 | discriminate]|].
  destruct (hook_calls_unpaused a (ticks a) (cancel_arrives DuringTransfer a r1) Hn)
    as [H2 Hf]; [now rewrite cancel_arrives_paused|].
  destruct (hook_calls a (ticks a) (cancel_arrives DuringTransfer a r1))
    as [fl r2]. cbn [fst snd] in *.
  destruct fl; cbn [fst snd]; try (split; [exact H2 | assumption || discriminate]).
  split; [now rewrite download_ends_paused|].
  now destruct (download_ends_extends a r2) as [_ [_ [_ [_ [_ Hh]]]]].
Qed.

Lemma iteration_unpaused a r :
  (forall h, In h (ticks a) -> ~ In CallPause (calls_before h)) ->
  is_paused r = false ->
  is_paused (snd (iteration a r)) = false /\ fst (iteration a r) <> Hang.
Proof.
  intros Hn Hp. unfold iteration.
  destruct (attempt_body_unpaused a r Hn Hp) as [H1 Hf].
  destruct (attempt_body a r) as [fl r1]. cbn [fst snd] in *.
  destruct fl; cbn [fst snd];
    try (split; [now rewrite cancel_arrives_paused | discriminate]);
    [|contradiction].
  destruct (attempt (effect (LogError (attempt r1)) r1) =? max_attempts);
    cbn [fst snd]; (split; [now rewrite cancel_arrives_paused | discriminate]).
Qed.

Lemma retry_loop_unpaused fuel env r :
  (forall k h, In h (ticks (attempts env k)) -> ~ In CallPause (calls_before h)) ->
  is_paused r = false ->
  fst (retry_loop fuel env r) <> Hang.
Proof.
  intros Hn. revert r. induction fuel as [|fuel IH]; intros r Hp;
    cbn [retry_loop];
    destruct ((attempt r <? max_attempts) && negb (success r) && negb (cancelled r));
    cbn [fst]; try discriminate.
  destruct (iteration_unpaused (attempts env (attempt (next_attempt r)))
              (next_attempt r) (Hn _) Hp) as [H1 Hf].
  destruct (iteration (attempts env (attempt (next_attempt r))) (next_attempt r))
    as [fl r1]. cbn [fst snd] in *.
  destruct fl; cbn [fst]; try discriminate; auto.
Qed.

Lemma run_try_unpaused env w :
  never_paused env w -> fst (run_try env (initial_run env w)) <> Hang.
Proof.
  intros [Hp Hn]. unfold run_try. cbv zeta.
  match goal with |- context [if ?c then (Raise SubprocessError, _) else _] =>
    destruct c end; cbn [fst]; [discriminate|].
  match goal with |- context [retry_loop ?f env ?x] =>
    assert (Hx : is_paused x = false);
    [|pose proof (retry_loop_unpaused f env x Hn Hx) as H3;
      destruct (retry_loop f env x) as [fl r3]] end.
  { unfold initial_run, is_paused.
    destruct (_ && _); cbn; destruct (cancelled_before_start env); exact Hp. }
  cbn [fst] in H3. unfold after_loop.
  destruct fl; [destruct (negb (success r3) && negb (cancelled r3))|..];
    cbn [fst]; try discriminate; assumption.
Qed.

(** *** Results *)

(** A run returns unless the job is paused during a transfer and then
    neither resumed nor cancelled.  A run that returns ends with the
    one [worker_finished] it emits.  A run that does not return stays
    in the wait loop of the hook, paused and not cancelled, and emits
    no [worker_finished].  A job that nobody pauses returns. *)
Theorem worker_finished_unless_waiting env w :
  exists r,
    run env w = Some r /\
    (stuck r = false ->
     exists t,
       signals r = t ++ [worker_finished (url (download_item w))] /\
       forall u, ~ In (worker_finished u) t) /\
    (stuck r = true ->
     is_paused r = true /\ cancelled r = false /\
     (exists t, trace r = t ++ [HookSleep]) /\
     forall u, ~ In (worker_finished u) (signals r)) /\
    (never_paused env w -> stuck r = false).
Proof.
  assert (Hsig : forall t u,
             existsb is_finished t = false ->
             ~ In (worker_finished u) (signals_of t)).
  { intros t u Hf Hin. unfold signals_of in Hin. apply in_flat_map in Hin.
    destruct Hin as [e [He Hu]].
    assert (Hfe : is_finished e = false).
    { destruct (is_finished e) eqn:Ee; [|reflexivity].
      assert (existsb is_finished t = true)
        by (apply existsb_exists; eauto). congruence. }
    destruct e as [sg| | | |]; simpl in Hu; try contradiction.
    destruct Hu as [->|[]]. discriminate Hfe. }
  destruct (run_spec env w) as [r [E [_ [_ [Hret Hwait]]]]].
  exists r. split; [exact E|]. split; [|split].
  - intros Hs. destruct (Hret Hs) as [t [Ht Hf]].
    exists (signals_of t). split; [|intros u; now apply Hsig].
    change (signals r) with (signals_of (trace r)).
    now rewrite Ht, signals_of_app.
  - intros Hs. destruct (Hwait Hs) as [[Hp [Hc Ht]] Hf].
    repeat split; auto. intros u. now apply Hsig.
  - intros Hnp. pose proof (run_try_unpaused env w Hnp) as Hh.
    pose proof (run_try_not_stuck env (initial_run env w) eq_refl) as Hns.
    unfold run, except_finally in E.
    destruct (run_try env (initial_run env w)) as [fl r']. cbn [fst snd] in *.
    destruct fl; try discriminate E; try contradiction;
      try (injection E as <-; exact Hns).
    destruct (negb (cancelled r')); injection E as <-; exact Hns.
Qed.

(** A job paused before a tick and resumed during the third half-second
    of the wait: the hook sleeps three times and the run returns with
    the item completed. *)
Example paused_then_resumed :
  option_map (fun r => (stuck r, final_status r, hook_sleeps r, signals r))
    (run env_paused_then_resumed (sample_worker plain_options))
  = Some (false, completed, 3%nat,
          [metadata_received video_url; progress_updated video_url;
           progress_updated video_url; download_complete video_url;
           worker_finished video_url]).
Proof. reflexivity. Qed.

(** A job paused before a tick and never resumed or cancelled: the run
    stays in the hook and emits no [worker_finished]. *)
Example paused_for_good :
  option_map (fun r => (stuck r, final_status r, signals r))
    (run env_paused_for_good (sample_worker plain_options))
  = Some (true, paused,
          [metadata_received video_url; progress_updated video_url]).
Proof. reflexivity. Qed.

(** C4 (as stated, refuted).  Attempt 1 ends with an empty output
    file, attempt 2 succeeds: the worker goes from the failed attempt
    to the next one without sleeping. *)
Lemma empty_output_retried_without_sleep :
  ~ sleeps_between_failed_attempts env_empty_then_ok (sample_worker plain_options).
Proof.
  intros H.
  pose proof (H _ 1 eq_refl) as H1.
  vm_compute in H1.
  apply H1; [split; [discriminate | reflexivity] | reflexivity].
Qed.

(** C4 (amended).  A run makes at most three attempts.  In its trace
    the log line of an attempt [k < 3] that ended in an exception is
    followed at once by a sleep of [5 * k] seconds, and [run] sleeps
    nowhere else; in particular an attempt that left a missing or empty
    file is retried without sleeping.  The one other sleep of the
    program, half a second at a time in the wait loop of the progress
    hook while the job is paused, comes only within a transfer: after
    the signal that precedes [ydl.download], after a progress signal or
    after another such sleep.  In a run that nobody pauses, resumes or
    cancels and that gets past the FFmpeg check, with attempts 1 and 2
    failing: if the third transfer succeeds (and the integrity check,
    when requested, passes) the run returns, the item ends [completed]
    and no [download_error] is emitted; if the third attempt fails too
    the run returns, the item ends in [error] and [download_error] is
    emitted; in both cases [run] has slept 5 seconds after a first
    attempt that raised and 10 seconds after a second attempt that
    raised, and the hook has not slept. *)
Theorem retry_policy env w :
  (exists r,
      run env w = Some r /\
      0 <= attempt r <= 3 /\
      (forall pre k post,
          trace r = pre ++ LogError k :: post -> k < 3 ->
          exists post', post = Sleep (5 * k) :: post') /\
      (forall pre z post,
          trace r = pre ++ Sleep z :: post ->
          exists pre' k, pre = pre' ++ [LogError k] /\ k < 3 /\ z = 5 * k) /\
      (forall pre k post z post',
          trace r = pre ++ LogWarning k :: post -> post <> Sleep z :: post') /\
      (forall pre post,
          trace r = pre ++ HookSleep :: post ->
          exists pre' e, pre = pre' ++ [e] /\ in_transfer e = true)) /\
  (undisturbed env w -> ffmpeg_ready env w ->
   attempt_fails (attempts env 1) = true ->
   attempt_fails (attempts env 2) = true ->
   let backoff :=
     (if attempt_raises (attempts env 1) then [5] else []) ++
     (if attempt_raises (attempts env 2) then [10] else []) in
   (transfer_succeeds (attempts env 3) = true ->
    verify_fails (options (download_item w)) (attempts env 3) = false ->
    exists r,
      run env w = Some r /\ stuck r = false /\ attempt r = 3 /\
      final_status r = completed /\
      existsb is_error_signal (signals r) = false /\
      sleeps r = backoff /\ hook_sleeps r = 0%nat) /\
   (attempt_fails (attempts env 3) = true ->
    exists r,
      run env w = Some r /\ stuck r = false /\ attempt r = 3 /\
      final_status r = error /\
      In (download_error (url (download_item w))) (signals r) /\
      sleeps r = backoff /\ hook_sleeps r = 0%nat)).
Proof.
  split.
  - destruct (run_spec env w) as [r [E [Ha [Hb _]]]].
    exists r. split; [exact E|]. split; [exact Ha|].
    split; [|split; [|split]].
    + intros pre k post Ht Hk. eapply backoff_after_error; eauto.
    + intros pre z post Ht. eapply backoff_before_sleep; eauto.
    + intros pre k post z post' Ht. eapply backoff_after_warning; eauto.
    + intros pre post Ht. eapply backoff_before_hook_sleep; eauto.
  - intros [Hcb [Hcw [Hpw Hq]]] Hff F1 F2 backoff.
    assert (Hno : forall k, cancel_at (attempts env k) = None)
      by (intros k; apply Hq).
    assert (Hquiet : forall k h, In h (ticks (attempts env k)) ->
                                 calls_before h = [])
      by (intros k; apply Hq).
    destruct (run_try_ready env w Hcb Hcw Hff)
      as [r0 [Ert [A0 [S0 [C0 [P0' [_ [T0 [U0 O0]]]]]]]]].
    rewrite Hpw in P0'.
    pose proof (run_try_not_stuck env (initial_run env w) eq_refl) as Hns.
    assert (P0 : Pending w r0 0 []) by (constructor; assumption).
    destruct (pass_fails env w Hno Hquiet 2 r0 0 [] P0) as [r1 [L1 P1]];
      [reflexivity | exact F1 |].
    destruct (pass_fails env w Hno Hquiet 1 r1 (0 + 1) _ P1) as [r2 [L2 P2]];
      [reflexivity | exact F2 |].
    change (0 + 1 + 1) with 2 in *. change (0 + 1) with 1 in *.
    unfold run. rewrite Ert in *. change (Z.to_nat max_attempts) with 3%nat in *.
    rewrite L1, L2 in *. split.
    + intros S3 V3.
      destruct (pass_succeeds env w Hno Hquiet 0 r2 2 _ P2)
        as [r3 [L3 [A3 [F3 [U3 T3]]]]];
        [reflexivity | exact S3 | exact V3 |].
      rewrite L3 in *. cbn [snd] in Hns.
      exists (run_finally r3). split; [reflexivity|].
      split; [exact Hns|]. split; [exact A3|]. split; [exact F3|].
      change (signals (run_finally r3)) with (signals_of (trace (run_finally r3))).
      change (sleeps (run_finally r3)) with (sleeps_of (trace (run_finally r3))).
      change (hook_sleeps (run_finally r3))
        with (hook_sleeps_of (trace (run_finally r3))).
      rewrite trace_finally, T3.
      destruct (body_block_facts (url (download_item w)) (attempts env (2 + 1)))
        as [B1 [B2 B3]].
      split; [|split].
      * rewrite !signals_of_app, !existsb_app, !errors_of_fail_block, B3.
        reflexivity.
      * rewrite !sleeps_of_app, !sleeps_of_fail_block, B1.
        cbn. rewrite !andb_true_r, !app_nil_r. reflexivity.
      * rewrite !hook_sleeps_of_app, !hook_sleeps_of_fail_block, B2.
        reflexivity.
    + intros F3.
      destruct (last_pass_fails env w Hno Hquiet 0 r2 _ P2 F3)
        as [fl [r3 [L3 P3]]].
      rewrite L3 in *. cbn [snd] in Hns.
      destruct P3 as [Pa Ps Pc Pp Pu Po Pt].
      unfold except_finally. rewrite Pc. cbn [negb].
      eexists. split; [reflexivity|].
      split; [exact Hns|].
      split; [exact Pa|]. split; [reflexivity|].
      match goal with |- In _ (signals ?x) /\ sleeps ?x = _ /\ hook_sleeps ?x = _ =>
        change (signals x) with (signals_of (trace x));
        change (sleeps x) with (sleeps_of (trace x));
        change (hook_sleeps x) with (hook_sleeps_of (trace x)) end.
      rewrite trace_finally. cbn [trace effect upd_worker]. rewrite Pt.
      split; [|split].
      * rewrite !signals_of_app. apply in_or_app. left.
        apply in_or_app. right.
        change (item_url (upd_worker (with_item (set_status error)) r3))
          with (item_url r3). rewrite Pu. left. reflexivity.
      * rewrite !sleeps_of_app, !sleeps_of_fail_block.
        cbn. rewrite !andb_true_r, !andb_false_r, !app_nil_r. reflexivity.
      * rewrite !hook_sleeps_of_app, !hook_sleeps_of_fail_block. reflexivity.
Qed.

Lemma retry_policy_witness :
  (exists r,
      run env_lucky_with_ticks (sample_worker plain_options) = Some r /\
      stuck r = false /\ attempt r = 3 /\ final_status r = completed /\
      existsb is_error_signal (signals r) = false /\
      sleeps r = [5; 10] /\ hook_sleeps r = 0%nat) /\
  (exists r,
      run env_hook_always_raises (sample_worker plain_options) = Some r /\
      stuck r = false /\ attempt r = 3 /\ final_status r = error /\
      In (download_error video_url) (signals r) /\
      sleeps r = [5; 10] /\ hook_sleeps r = 0%nat).
Proof.
  split.
  - destruct (retry_policy env_lucky_with_ticks (sample_worker plain_options))
      as [_ H].
    assert (Hnc : undisturbed env_lucky_with_ticks (sample_worker plain_options)).
    { repeat split. intros h [<-|[<-|[]]]; reflexivity. }
    assert (Hff : ffmpeg_ready env_lucky_with_ticks (sample_worker plain_options)).
    { right. left. reflexivity. }
    pose proof (H Hnc Hff eq_refl eq_refl) as K. cbv zeta in K.
    destruct K as [Ha _]. exact (Ha eq_refl eq_refl).
  - destruct (retry_policy env_hook_always_raises (sample_worker plain_options))
      as [_ H].
    assert (Hnc : undisturbed env_hook_always_raises (sample_worker plain_options)).
    { repeat split. intros h [<-|[<-|[]]]; reflexivity. }
    assert (Hff : ffmpeg_ready env_hook_always_raises (sample_worker plain_options)).
    { right. left. reflexivity. }
    pose proof (H Hnc Hff eq_refl eq_refl) as K. cbv zeta in K.
    destruct K as [_ Hb]. exact (Hb eq_refl).
Defined.

(** An integrity check that fails on the first attempt does not turn
    the item into an error: the pass's handler swallows the exception,
    sleeps, and the loop ends because [success] is already set. *)
Lemma verify_failure_on_first_attempt env w :
  undisturbed env w -> ffmpeg_ready env w ->
  transfer_succeeds (attempts env 1) = true ->
  verify_fails (options (download_item w)) (attempts env 1) = true ->
  exists r,
    run env w = Some r /\ final_status r = completed /\
    existsb is_error_signal (signals r) = false /\
    sleeps r = [5].
Proof.
  intros [Hcb [Hcw [Hpw Hq]]] Hff S1 V1.
  assert (Hno : forall k, cancel_at (attempts env k) = None)
    by (intros k; apply Hq).
  assert (Hquiet : forall k h, In h (ticks (attempts env k)) ->
                               calls_before h = [])
    by (intros k; apply Hq).
  destruct (run_try_ready env w Hcb Hcw Hff)
    as [r0 [Ert [A0 [S0 [C0 [P0' [_ [T0 [U0 O0]]]]]]]]].
  rewrite Hpw in P0'.
  assert (P0 : Pending w r0 0 []) by (constructor; assumption).
  destruct (pass_verify_fails env w Hno Hquiet 2 r0 0 [] P0)
    as [r1 [e [L1 [A1 [F1 [C1 [U1 T1]]]]]]];
    [reflexivity | exact S1 | exact V1 |].
  change (0 + 1) with 1 in *. cbn [Z.eqb Pos.eqb max_attempts] in L1, T1.
  unfold run. rewrite Ert. change (Z.to_nat max_attempts) with 3%nat.
  rewrite L1. exists (run_finally r1). split; [reflexivity|].
  split; [exact F1|].
  change (signals (run_finally r1)) with (signals_of (trace (run_finally r1))).
  change (sleeps (run_finally r1)) with (sleeps_of (trace (run_finally r1))).
  rewrite trace_finally, T1.
  destruct (body_block_facts (url (download_item w)) (attempts env 1))
    as [B1 [B2 B3]].
  split.
  - rewrite !signals_of_app, !existsb_app, B3. reflexivity.
  - rewrite !sleeps_of_app, B1. reflexivity.
Qed.

(** The same failure on the third attempt is re-raised and ends in
    [error]. *)
Example verify_failure_on_third_attempt :
  option_map (fun r => (final_status r, signals r))
    (run (quiet_env (fun k => if k =? 3
                              then attempt_of true OutputOk missing_file
                              else attempt_of true TransferRaises missing_file))
         (sample_worker verifying_options))
  = Some (error,
          [metadata_received video_url; metadata_received video_url;
           metadata_received video_url; download_complete video_url;
           download_error video_url; worker_finished video_url]).
Proof. reflexivity. Qed.

(** C5 (the code departs from the claim).  The item asks for
    verification; the first transfer succeeds with a non-empty output
    file; [_verify_download] raises because the file it looks for is
    missing.  The item stays [completed], [download_complete] is its
    only outcome signal and no [download_error] is emitted. *)
Theorem verify_failure_swallowed :
  verify verifying_options = true /\
  transfer_succeeds (attempts env_unverifiable 1) = true /\
  _verify_download verifying_options (final_file (attempts env_unverifiable 1))
    = Some FileNotFoundError /\
  exists r,
    run env_unverifiable (sample_worker verifying_options) = Some r /\
    final_status r = completed /\
    existsb is_error_signal (signals r) = false /\
    trace r = [Emit (metadata_received video_url);
               Emit (download_complete video_url);
               LogError 1; Sleep 5;
               Emit (worker_finished video_url)].
Proof.
  repeat split; try reflexivity.
  eexists. split; [reflexivity|]. repeat split; reflexivity.
Qed.

End WorkerFacts.

(** ** The manager *)

Module ManagerFacts.
Import Manager.
Local Open Scope Z_scope.
Import ManagerSpec.
Import WorkerSpec.

(** *** Dicts *)

Lemma dict_mem_get {V} k (d : Dict.t V) :
  Dict.mem k d = true <-> exists v, Dict.get k d = Some v.
Proof.
  induction d as [|[k' v'] d IH]; simpl.
  - split; [discriminate | intros [v H]; discriminate].
  - destruct (String.eqb k' k); simpl; [split; eauto | exact IH].
Qed.

Lemma dict_get_none_mem {V} k (d : Dict.t V) :
  Dict.get k d = None -> Dict.mem k d = false.
Proof.
  intros H. destruct (Dict.mem k d) eqn:E; [|reflexivity].
  apply dict_mem_get in E. destruct E as [v E]. congruence.
Qed.

Lemma dict_mem_set {V} k k' (v : V) d :
  Dict.mem k (Dict.set k' v d) = String.eqb k' k || Dict.mem k d.
Proof.
  induction d as [|[k0 v0] d IH]; simpl.
  - now rewrite orb_false_r.
  - destruct (String.eqb k0 k') eqn:E; simpl.
    + apply String.eqb_eq in E. subst.
      destruct (String.eqb k' k); reflexivity.
    + rewrite IH. destruct (String.eqb k0 k), (String.eqb k' k); reflexivity.
Qed.

Lemma dict_set_new {V} k (v : V) d :
  Dict.mem k d = false -> Dict.set k v d = d ++ [(k, v)].
Proof.
  induction d as [|[k0 v0] d IH]; simpl; [reflexivity|].
  intros H. apply orb_false_iff in H. destruct H as [-> H].
  now rewrite IH.
Qed.

Lemma dict_length_del {V} k (d : Dict.t V) :
  Dict.mem k d = true -> S (List.length (Dict.del k d)) = List.length d.
Proof.
  induction d as [|[k0 v0] d IH]; simpl; [discriminate|].
  destruct (String.eqb k0 k); simpl; [reflexivity|].
  intros H. now rewrite IH.
Qed.

Lemma dict_del_absent {V} k (d : Dict.t V) :
  Dict.mem k d = false -> Dict.del k d = d.
Proof.
  induction d as [|[k0 v0] d IH]; simpl; [reflexivity|].
  intros H. apply orb_false_iff in H. destruct H as [-> H].
  now rewrite IH.
Qed.


Lemma start_next_from_admits q m :
  download_queue m = q -> Admits m (start_next_from q m).
Proof.
  revert m. induction q as [|it rest IH]; intros m Hq; cbn [start_next_from].
  - constructor; auto; try (exists []; now rewrite app_nil_r).
  - destruct (Z.of_nat (List.length (active_downloads m)) <? maxThreadCount m).
    2:{ constructor; auto; try (exists []; now rewrite app_nil_r). }
    match goal with |- Admits m (start_next_from rest ?x) =>
      destruct (IH x eq_refl) as [J [more S] P L M St [sigs [E F]] A B] end.
    constructor; auto.
    + rewrite J. unfold jobs, queue_urls. cbn. rewrite Hq. cbn.
      now rewrite <- app_assoc.
    + exists (url it :: more). rewrite S. cbn. now rewrite <- app_assoc.
    + eexists. rewrite E. cbn. rewrite <- app_assoc. split; [reflexivity|].
      exact F.
    + intros k Hk. apply A. cbn. rewrite dict_mem_set, Hk. apply orb_true_r.
    + intros k Hk. unfold queue_urls. rewrite Hq. cbn [map].
      destruct (B k Hk) as [H|H].
      * cbn in H. rewrite dict_mem_set in H. apply orb_true_iff in H.
        destruct H as [H|H]; [|now left].
        apply String.eqb_eq in H. right. left. exact H.
      * right. right. exact H.
Qed.

Lemma start_next_download_admits m : Admits m (start_next_download m).
Proof. now apply start_next_from_admits. Qed.

(** With the active set at or over the limit nothing is admitted. *)
Lemma start_next_download_full m :
  maxThreadCount m <= Z.of_nat (List.length (active_downloads m)) ->
  start_next_download m = m.
Proof.
  intros H. unfold start_next_download.
  destruct (download_queue m); cbn [start_next_from]; [reflexivity|].
  destruct (Z.ltb_spec (Z.of_nat (List.length (active_downloads m)))
                       (maxThreadCount m)); [lia | reflexivity].
Qed.

(** With a free slot the head of the backlog is handed to the pool and
    entered in the active set. *)
Lemma start_next_download_head m h rest :
  download_queue m = h :: rest ->
  Z.of_nat (List.length (active_downloads m)) < maxThreadCount m ->
  (exists more, started (start_next_download m) = started m ++ url h :: more) /\
  Dict.mem (url h) (active_downloads (start_next_download m)) = true.
Proof.
  intros Hq Hlt. unfold start_next_download. rewrite Hq.
  cbn [start_next_from].
  destruct (Z.ltb_spec (Z.of_nat (List.length (active_downloads m)))
                       (maxThreadCount m)); [|lia].
  match goal with |- context [start_next_from rest ?x] =>
    destruct (start_next_from_admits rest x eq_refl)
      as [_ [more S] _ _ _ _ _ A _] end.
  split.
  - exists more. rewrite S. cbn. now rewrite <- app_assoc.
  - apply A. cbn. rewrite dict_mem_set, String.eqb_refl. reflexivity.
Qed.

(** *** Submission *)

Lemma set_queue_same m : set_queue (download_queue m) m = m.
Proof. now destruct m. Qed.

Lemma enqueue_all o l m :
  fold_left (fun m u => set_queue (download_queue m ++ [new_item u o]) m) l m
  = set_queue (download_queue m ++ map (fun u => new_item u o) l) m.
Proof.
  revert m. induction l as [|u l IH]; intros m; cbn [fold_left map].
  - now rewrite app_nil_r, set_queue_same.
  - rewrite IH. cbn [download_queue set_queue]. unfold set_queue. cbn.
    now rewrite <- app_assoc.
Qed.

Lemma map_url_new_item o l : map url (map (fun u => new_item u o) l) = l.
Proof. induction l as [|u l IH]; cbn; [reflexivity | now rewrite IH]. Qed.

(** [add_download] appends one job per valid URL, in order, and emits
    nothing but [queue_updated]. *)
Lemma add_download_spec urls o m :
  jobs (add_download urls o m) = jobs m ++ filter Utils.validate_url urls /\
  paused_downloads (add_download urls o m) = paused_downloads m /\
  (exists sigs, emitted (add_download urls o m) = emitted m ++ sigs /\
                forallb is_queue_updated sigs = true) /\
  (forall k, Dict.mem k (active_downloads m) = true ->
             Dict.mem k (active_downloads (add_download urls o m)) = true).
Proof.
  unfold add_download. cbv zeta. rewrite enqueue_all.
  set (m1 := set_queue _ m).
  destruct (start_next_download_admits m1) as [J _ P _ _ _ [sigs [E F]] A _].
  repeat split.
  - unfold jobs, queue_urls in *. cbn [started download_queue emit].
    rewrite J. subst m1. cbn [started download_queue set_queue].
    now rewrite map_app, map_url_new_item, app_assoc.
  - cbn [paused_downloads emit]. now rewrite P.
  - eexists. cbn [emitted emit]. rewrite E. subst m1. cbn [emitted set_queue].
    rewrite <- app_assoc. split; [reflexivity|].
    rewrite forallb_app, F. reflexivity.
  - intros k Hk. cbn [active_downloads emit]. apply A. exact Hk.
Qed.

(** *** Submission: results *)

Lemma new_signals_app m m' sigs :
  emitted m' = emitted m ++ sigs -> new_signals m m' = sigs.
Proof.
  intros E. unfold new_signals. rewrite E, skipn_app, skipn_all, Nat.sub_diag.
  reflexivity.
Qed.

Lemma no_report_among_queue_updates u sigs :
  forallb is_queue_updated sigs = true ->
  filter (reports_rejection u) sigs = [].
Proof.
  induction sigs as [|s sigs IH]; cbn; [reflexivity|].
  intros H. apply andb_true_iff in H. destruct H as [Hs H].
  destruct s; try discriminate. cbn. auto.
Qed.

(** C2 (as stated, refuted).  [url_b] is waiting in the backlog;
    submitting it again leaves two jobs for it. *)
Lemma resubmission_duplicates :
  ~ resubmission_is_noop url_b default_options one_active_one_waiting.
Proof.
  intros H. specialize (H eq_refl). vm_compute in H. discriminate H.
Qed.

(** C2 (amended).  [add_download] makes no check against the jobs it
    already tracks: a valid URL, tracked or not, gets a new job at the
    tail of the backlog (and is then admitted like any other), so the
    URL occurs once more among the manager's jobs. *)
Theorem resubmission_adds_a_job u o m :
  Utils.validate_url u = true ->
  jobs (add_download [u] o m) = jobs m ++ [u] /\
  count_occ string_dec (jobs (add_download [u] o m)) u
    = S (count_occ string_dec (jobs m) u).
Proof.
  intros Hv. destruct (add_download_spec [u] o m) as [J _].
  cbn [filter] in J. rewrite Hv in J. split; [exact J|].
  rewrite J, count_occ_app. cbn.
  destruct (string_dec u u); [lia | contradiction].
Qed.

Lemma resubmission_adds_a_job_witness :
  tracked url_b one_active_one_waiting = true /\
  jobs (add_download [url_b] default_options one_active_one_waiting)
    = jobs one_active_one_waiting ++ [url_b] /\
  count_occ string_dec
    (jobs (add_download [url_b] default_options one_active_one_waiting)) url_b
    = S (count_occ string_dec (jobs one_active_one_waiting) url_b).
Proof.
  split; [reflexivity|].
  apply (resubmission_adds_a_job url_b default_options one_active_one_waiting).
  reflexivity.
Defined.

(** C3 (as stated, refuted).  A batch of one malformed and two valid
    URLs: no signal reports the malformed one. *)
Lemma malformed_url_not_reported :
  ~ rejection_reported_once [malformed_url; url_a; url_b] malformed_url
      default_options (manager_with_limit 1).
Proof.
  intros H. vm_compute in H. discriminate H.
Qed.

(** C3 (amended).  [add_download] returns nothing and emits only
    [queue_updated]: a URL that fails validation is dropped without
    any report.  Every valid URL of the batch, in order, gets a job at
    the tail of the backlog; a URL that fails validation gets none. *)
Theorem add_download_drops_invalid_silently urls o m :
  jobs (add_download urls o m) = jobs m ++ filter Utils.validate_url urls /\
  forallb is_queue_updated (new_signals m (add_download urls o m)) = true /\
  (forall u, filter (reports_rejection u)
                    (new_signals m (add_download urls o m)) = []) /\
  (forall u, Utils.validate_url u = false -> ~ In u (jobs m) ->
             ~ In u (jobs (add_download urls o m))).
Proof.
  destruct (add_download_spec urls o m) as [J [_ [[sigs [E F]] _]]].
  rewrite (new_signals_app _ _ _ E).
  split; [exact J|]. split; [exact F|]. split.
  - intros u. now apply no_report_among_queue_updates.
  - intros u Hv Hn Hin. rewrite J in Hin. apply in_app_or in Hin.
    destruct Hin as [Hin|Hin]; [contradiction|].
    apply filter_In in Hin. destruct Hin as [_ Hin]. congruence.
Qed.

Lemma add_download_drops_invalid_silently_witness :
  let m := manager_with_limit 1 in
  let m' := add_download [malformed_url; url_a; url_b] default_options m in
  jobs m' = [url_a; url_b] /\
  new_signals m m' = [queue_updated 1; queue_updated 1] /\
  ~ In malformed_url (jobs m').
Proof.
  cbv zeta.
  destruct (add_download_drops_invalid_silently
              [malformed_url; url_a; url_b] default_options
              (manager_with_limit 1)) as [J [_ [_ H]]].
  split; [exact J|]. split; [reflexivity|].
  apply H; [reflexivity | intros []].
Defined.

(** *** Resume *)

(** C6 (as stated, refuted).  Limit 1, [url_b] active, [url_a]
    paused: resuming [url_a] does not put it at the head of the
    backlog and does not leave the active set alone. *)
Lemma resume_does_not_requeue :
  ~ resume_requeues_at_head url_a one_paused_one_active.
Proof.
  intros [H _]. apply (f_equal Dict.keys) in H. vm_compute in H.
  discriminate H.
Qed.

(** C6 (amended).  Resuming a paused job while the active set is at
    the limit puts the job into the active set, as its newest entry,
    and pauses the oldest entry of the active set in its place; the
    backlog is unchanged and no worker is started. *)
Theorem resume_at_capacity u m wk k0 w0 rest :
  Dict.get u (paused_downloads m) = Some wk ->
  Dict.mem u (active_downloads m) = false ->
  active_downloads m = (k0, w0) :: rest ->
  Z.of_nat (List.length (active_downloads m)) = maxThreadCount m ->
  let m' := resume_download u m in
  active_downloads m' = rest ++ [(u, worker_resume wk)] /\
  paused_downloads m'
    = Dict.set k0 (worker_pause w0) (Dict.del u (paused_downloads m)) /\
  download_queue m' = download_queue m /\
  started m' = started m /\
  emitted m' = emitted m ++ [download_resumed u; download_paused k0] /\
  Z.of_nat (List.length (active_downloads m')) = maxThreadCount m'.
Proof.
  intros Hget Hmem Hact Hfull. cbv zeta.
  unfold resume_download. rewrite Hget.
  cbn [active_downloads paused_downloads set_active set_paused emit
       maxThreadCount].
  rewrite (dict_set_new _ _ _ Hmem), Hact.
  rewrite Hact in Hfull. cbn [List.length] in Hfull.
  cbn [app List.length Dict.first_key].
  rewrite length_app. cbn [List.length].
  destruct (Z.gtb_spec (Z.of_nat (S (List.length rest + 1))) (maxThreadCount m));
    [|lia].
  unfold pause_download.
  cbn [active_downloads paused_downloads set_active set_paused emit Dict.get].
  rewrite String.eqb_refl.
  cbn [active_downloads paused_downloads set_active set_paused emit Dict.del].
  rewrite String.eqb_refl.
  rewrite start_next_download_full.
  2:{ cbn [active_downloads maxThreadCount set_active set_paused emit].
      rewrite length_app. cbn [List.length]. lia. }
  cbn [active_downloads paused_downloads download_queue started emitted
       maxThreadCount set_active set_paused emit].
  rewrite <- app_assoc, length_app. cbn [List.length app].
  repeat split; try reflexivity. lia.
Qed.

Lemma resume_at_capacity_witness :
  let m := one_paused_one_active in
  let wa := worker_pause (new_worker 0 (new_item url_a default_options)) in
  let wb := new_worker 0 (new_item url_b default_options) in
  let m' := resume_download url_a m in
  active_downloads m' = [(url_a, worker_resume wa)] /\
  paused_downloads m' = [(url_b, worker_pause wb)] /\
  download_queue m' = download_queue m /\
  started m' = started m /\
  emitted m' = emitted m ++ [download_resumed url_a; download_paused url_b] /\
  Z.of_nat (List.length (active_downloads m')) = maxThreadCount m'.
Proof.
  exact (resume_at_capacity url_a one_paused_one_active
           (worker_pause (new_worker 0 (new_item url_a default_options)))
           url_b (new_worker 0 (new_item url_b default_options)) []
           eq_refl eq_refl eq_refl eq_refl).
Defined.

(** *** Changing the limit *)

Example limit_raised_then_next_submission_admits :
  let m := add_download [] default_options
             (MainWindow.save_settings 5 two_active_five_waiting) in
  List.length (active_downloads m) = 5%nat /\
  List.length (download_queue m) = 2%nat.
Proof. split; reflexivity. Qed.

(** C7 (as stated, refuted).  Two downloads active, five waiting,
    limit 2: after the limit is raised to 5 the five jobs are still
    waiting and the active set still holds two. *)
Lemma raising_limit_admits_nothing :
  ~ admission_done (MainWindow.save_settings 5 two_active_five_waiting).
Proof.
  intros [H|H].
  - apply (f_equal (@List.length _)) in H. vm_compute in H. discriminate H.
  - vm_compute in H. apply H. reflexivity.
Qed.

(** C7 (amended).  Saving the settings changes the limit and nothing
    else: no job is admitted when the limit is raised and none is
    stopped when it is lowered.  The new limit takes effect at the
    next admission round ([start_next_download], run by the next
    submission, pause or cancellation of an active job): if a slot is
    then free, the head of the backlog is started. *)
Theorem save_settings_changes_limit_only n m :
  let m' := MainWindow.save_settings n m in
  maxThreadCount m' = n /\ max_concurrent m' = n /\
  download_queue m' = download_queue m /\
  active_downloads m' = active_downloads m /\
  paused_downloads m' = paused_downloads m /\
  started m' = started m /\
  emitted m' = emitted m /\
  (forall h rest,
      download_queue m = h :: rest ->
      Z.of_nat (List.length (active_downloads m)) < n ->
      (exists more,
          started (start_next_download m') = started m ++ url h :: more) /\
      Dict.mem (url h) (active_downloads (start_next_download m')) = true).
Proof.
  cbv zeta. do 7 (split; [reflexivity|]).
  intros h rest Hq Hlt.
  apply (start_next_download_head (MainWindow.save_settings n m) h rest);
    assumption.
Qed.

Lemma save_settings_changes_limit_only_witness :
  let m := two_active_five_waiting in
  let m' := MainWindow.save_settings 5 m in
  (List.length (active_downloads m') = 2%nat /\
   List.length (download_queue m') = 5%nat /\
   started m' = started m) /\
  (exists more,
      started (start_next_download m')
      = started m ++ "https://youtu.be/3" :: more) /\
  Dict.mem "https://youtu.be/3"
           (active_downloads (start_next_download m')) = true.
Proof.
  cbv zeta. split; [repeat split|].
  destruct (save_settings_changes_limit_only 5 two_active_five_waiting)
    as [_ [_ [_ [_ [_ [_ [_ H]]]]]]].
  apply (H (new_item "https://youtu.be/3" default_options)
           (map (fun u => new_item u default_options)
                ["https://youtu.be/4"; "https://youtu.be/5";
                 "https://youtu.be/6"; "https://youtu.be/7"])).
  - reflexivity.
  - vm_compute. reflexivity.
Defined.

(** *** Cancellation *)

Lemma dict_del_not_mem {V} k (d : Dict.t V) :
  NoDup (Dict.keys d) -> Dict.mem k (Dict.del k d) = false.
Proof.
  induction d as [|[k0 v0] d IH]; cbn; [reflexivity|].
  intros H. inversion H as [|? ? Hn Hd]; subst.
  destruct (String.eqb k0 k) eqn:E; cbn.
  - apply String.eqb_eq in E. subst.
    destruct (Dict.mem k d) eqn:M; [|reflexivity].
    exfalso. apply Hn. clear -M.
    induction d as [|[k1 v1] d IH]; cbn in *; [discriminate|].
    apply orb_true_iff in M. destruct M as [M|M]; auto.
    apply String.eqb_eq in M. auto.
  - rewrite E. cbn. auto.
Qed.



(** *** A worker that finishes *)

(** No slot of [_init_connections] changes the manager's state. *)
Lemma deliver_keeps_manager s m : MainWindow.deliver s m = m.
Proof. destruct s; reflexivity. Qed.

Lemma deliver_all_keeps_manager sigs m :
  fold_left (fun m s => MainWindow.deliver s m) sigs m = m.
Proof.
  induction sigs as [|s sigs IH]; cbn; [reflexivity|].
  now rewrite deliver_keeps_manager.
Qed.

(** C1 (the code departs from the claim).  Limit 1; [url_a] is
    downloading and [url_b] waits in the backlog.  The worker of
    [url_a] completes and emits [worker_finished]; after all its
    signals have been delivered to their slots, [url_a] still holds
    the only slot of the active set and [url_b] is still waiting: the
    slot [on_worker_finished] is empty and nothing else removes the
    entry or runs an admission round. *)
Theorem finished_worker_keeps_its_slot :
  let m := one_active_one_waiting in
  exists w r,
    Dict.get url_a (active_downloads m) = Some w /\
    Worker.run env_success w = Some r /\
    Worker.final_status r = completed /\
    Worker.signals r = [metadata_received url_a; download_complete url_a;
                        worker_finished url_a] /\
    let m' := fold_left (fun m s => MainWindow.deliver s m)
                        (Worker.signals r) m in
    Dict.keys (active_downloads m') = [url_a] /\
    queue_urls m' = [url_b] /\
    started m' = [url_a] /\
    maxThreadCount m' = 1 /\
    start_next_download m' = m'.
Proof.
  cbv zeta. eexists. eexists.
  split; [reflexivity|]. split; [reflexivity|].
  split; [reflexivity|]. split; [reflexivity|].
  rewrite deliver_all_keeps_manager.
  repeat split; reflexivity.
Qed.

End ManagerFacts.

(** ** More on [Utils] *)

Module UtilsMoreFacts.
Import PyStr Utils UtilsSpec.

Lemma first_site_generic clean sites :
  Forall (fun site => fst site <> "Generic") sites ->
  String.eqb (first_site clean sites) "Generic"
  = negb (existsb (fun site => existsb (fun d => contains d clean) (snd site))
                  sites).
Proof.
  induction 1 as [|[name domains] sites Hn _ IH]; cbn; [reflexivity|].
  destruct (existsb (fun d => contains d clean) domains); cbn; [|exact IH].
  apply String.eqb_neq. exact Hn.
Qed.

Lemma first_site_named clean sites :
  first_site clean sites = "Generic" \/
  In (first_site clean sites) (map fst sites).
Proof.
  induction sites as [|[name domains] sites IH]; cbn; [now left|].
  destruct (existsb (fun d => contains d clean) domains); [right; now left|].
  destruct IH; auto.
Qed.

Lemma no_site_called_generic :
  Forall (fun site => fst site <> "Generic") Config.SUPPORTED_SITES.
Proof. repeat constructor; discriminate. Qed.

(** [validate_url] accepts a URL exactly when it parses, its scheme is
    [http] or [https], and [get_platform_name] names a supported site
    for it.  [get_platform_name] answers with a site of
    [SUPPORTED_SITES] or with ["Generic"], and it does not look at the
    scheme: two URLs with the same network location get the same name,
    whatever their schemes, so that [ftp://youtube.com/x] is named
    [YouTube] although [validate_url] rejects it. *)
Theorem platform_name_and_validation (u : string) :
  validate_url u
  = match Urllib.urlparse u with
    | Some parsed =>
        scheme_ok (Urllib.scheme parsed)
        && negb (String.eqb (get_platform_name u) "Generic")
    | None => false
    end /\
  (get_platform_name u = "Generic" \/
   In (get_platform_name u) (map fst Config.SUPPORTED_SITES)) /\
  (forall u' : string,
      option_map Urllib.netloc (Urllib.urlparse u')
      = option_map Urllib.netloc (Urllib.urlparse u) ->
      get_platform_name u' = get_platform_name u) /\
  get_platform_name "ftp://youtube.com/x" = "YouTube" /\
  validate_url "ftp://youtube.com/x" = false.
Proof.
  split; [|split; [|split; [|split; reflexivity]]].
  - unfold validate_url, get_platform_name.
    destruct (Urllib.urlparse u) as [parsed|]; [|reflexivity].
    rewrite (first_site_generic _ _ no_site_called_generic), negb_involutive.
    unfold site_match. destruct (scheme_ok (Urllib.scheme parsed)); reflexivity.
  - unfold get_platform_name.
    destruct (Urllib.urlparse u) as [parsed|]; [apply first_site_named | now left].
  - intros u' H. unfold get_platform_name.
    destruct (Urllib.urlparse u) as [parsed|], (Urllib.urlparse u') as [parsed'|];
      cbn in H; try discriminate; [|reflexivity].
    injection H as ->. reflexivity.
Qed.

(** *** A URL of the form [scheme://host/path] *)

Lemma filter_str_app f a b :
  filter_str f (a ++ b) = (filter_str f a ++ filter_str f b)%string.
Proof.
  induction a as [|c a IH]; cbn; [reflexivity|].
  destruct (f c); cbn; now rewrite IH.
Qed.

Lemma filter_str_all f s :
  forallb_str f s = true -> filter_str f s = s.
Proof.
  induction s as [|c s IH]; cbn; [reflexivity|].
  intros H. apply andb_true_iff in H. destruct H as [-> H]. now rewrite IH.
Qed.

Lemma forallb_str_impl (f g : ascii -> bool) s :
  (forall c, f c = true -> g c = true) ->
  forallb_str f s = true -> forallb_str g s = true.
Proof.
  intros Hfg. induction s as [|c s IH]; cbn; [reflexivity|].
  intros H. apply andb_true_iff in H. destruct H as [Hc H].
  now rewrite (Hfg _ Hc), IH.
Qed.

Lemma upto_delim_host h rest :
  forallb_str host_char h = true ->
  Urllib.upto_delim (h ++ String "/" rest) = h.
Proof.
  induction h as [|c h IH]; cbn; [reflexivity|].
  intros H. apply andb_true_iff in H. destruct H as [Hc H].
  unfold host_char in Hc.
  destruct (Urllib.netloc_delim c); [now rewrite !andb_false_r in Hc|].
  now rewrite IH.
Qed.

Lemma contains_char_absent c s :
  forallb_str (fun x => negb (Ascii.eqb c x)) s = true ->
  contains (String c EmptyString) s = false.
Proof.
  induction s as [|x s IH]; cbn; [reflexivity|].
  intros H. apply andb_true_iff in H. destruct H as [Hx H].
  apply negb_true_iff in Hx. rewrite Hx. cbn. auto.
Qed.

Lemma host_has_no_bracket h :
  forallb_str host_char h = true ->
  contains "[" h = false /\ contains "]" h = false.
Proof.
  intros H. split; apply contains_char_absent;
    revert H; apply forallb_str_impl; intros c Hc; unfold host_char in Hc;
    rewrite Ascii.eqb_sym;
    repeat (apply andb_true_iff in Hc; destruct Hc as [Hc ?]); assumption.
Qed.

Lemma urlparse_scheme_host_path sch h p :
  sch = "http" \/ sch = "https" ->
  forallb_str host_char h = true ->
  Urllib.urlparse (sch ++ "://" ++ h ++ "/" ++ p)
  = Some {| Urllib.scheme := sch; Urllib.netloc := h |}.
Proof.
  intros Hs Hh.
  assert (Hsafe : forallb_str (fun c => negb (Urllib.unsafe_byte c)) h = true).
  { revert Hh. apply forallb_str_impl. intros c Hc. unfold host_char in Hc.
    repeat (apply andb_true_iff in Hc; destruct Hc as [Hc ?]). assumption. }
  destruct (host_has_no_bracket h Hh) as [Ho Hc].
  unfold Urllib.urlparse.
  set (safe := fun c => negb (Urllib.unsafe_byte c)) in *.
  assert (Htail : filter_str safe (h ++ "/" ++ p)
                  = (h ++ String "/" (filter_str safe p))%string).
  { rewrite filter_str_app, (filter_str_all _ _ Hsafe). reflexivity. }
  destruct Hs as [-> | ->].
  - replace (filter_str safe (lstrip Urllib.c0_or_space ("http" ++ "://" ++ h ++ "/" ++ p)))
      with ("http://" ++ h ++ String "/" (filter_str safe p))%string
      by (cbn -[append]; cbn [append]; now rewrite <- Htail).
    change (Urllib.split_scheme ("http://" ++ h ++ String "/" (filter_str safe p)))
      with ("http", "//" ++ h ++ String "/" (filter_str safe p))%string.
    cbn -[Urllib.upto_delim contains].
    rewrite upto_delim_host by assumption. now rewrite Ho, Hc.
  - replace (filter_str safe (lstrip Urllib.c0_or_space ("https" ++ "://" ++ h ++ "/" ++ p)))
      with ("https://" ++ h ++ String "/" (filter_str safe p))%string
      by (cbn -[append]; cbn [append]; now rewrite <- Htail).
    change (Urllib.split_scheme ("https://" ++ h ++ String "/" (filter_str safe p)))
      with ("https", "//" ++ h ++ String "/" (filter_str safe p))%string.
    cbn -[Urllib.upto_delim contains].
    rewrite upto_delim_host by assumption. now rewrite Ho, Hc.
Qed.

(** For a URL [scheme://host/path] with scheme [http] or [https],
    validation and the platform name depend on the host alone: the
    path plays no part, and the host is accepted as soon as a supported
    domain occurs anywhere in it once cleaned. *)
Theorem validation_depends_on_host_only sch h p :
  sch = "http" \/ sch = "https" ->
  forallb_str host_char h = true ->
  validate_url (sch ++ "://" ++ h ++ "/" ++ p) = site_match (clean_domain h) /\
  get_platform_name (sch ++ "://" ++ h ++ "/" ++ p)
  = first_site (clean_domain h) Config.SUPPORTED_SITES.
Proof.
  intros Hs Hh. unfold validate_url, get_platform_name.
  rewrite (urlparse_scheme_host_path sch h p Hs Hh). cbn [Urllib.scheme Urllib.netloc].
  destruct Hs as [-> | ->]; split; reflexivity.
Qed.

Lemma validation_depends_on_host_only_witness :
  validate_url ("https" ++ "://" ++ "myoutube.com" ++ "/" ++ "a?b#c")
  = site_match (clean_domain "myoutube.com") /\
  get_platform_name
    ("https" ++ "://" ++ "myoutube.com" ++ "/" ++ "a?b#c")
  = first_site (clean_domain "myoutube.com") Config.SUPPORTED_SITES.
Proof.
  apply (validation_depends_on_host_only "https" "myoutube.com" "a?b#c").
  - right. reflexivity.
  - reflexivity.
Defined.

Example substring_match_accepts_foreign_host :
  validate_url "https://myoutube.com/a" = true /\
  get_platform_name "https://myoutube.com/a" = "YouTube".
Proof. split; reflexivity. Qed.

(** *** The formatters *)

Lemma Qle_bool_false_lt (x y : Q) : Qle_bool x y = false -> (y < x)%Q.
Proof.
  intros H. apply Qnot_le_lt. intros C. apply Qle_bool_iff in C. congruence.
Qed.

Lemma one_le_div_1024 (x : Q) : Qle_bool 1024 x = true -> (1 <= x / 1024)%Q.
Proof.
  intros H. apply Qle_bool_iff in H. apply Qle_shift_div_l; [reflexivity|].
  now rewrite Qmult_1_l.
Qed.

(** [format_speed] always returns.  It divides the speed by 1024 as
    long as it is at least 1024 and a larger unit exists: the number
    shown times [1024 ^ i] is the speed, where [i] is the index of the
    unit shown; the number is below 1024 unless the unit is the last
    one ([GB/s]), and at least 1 unless the unit is the first.  A speed
    below 1024, a negative one included, is shown as it is in [B/s]. *)
Theorem format_speed_scaling (speed : Q) :
  exists v i,
    format_speed speed = Some {| shown := v; label := nth i speed_units "" |} /\
    (i <= 3)%nat /\
    (v * inject_Z (1024 ^ Z.of_nat i) == speed)%Q /\
    ((v < 1024)%Q \/ i = 3%nat) /\
    ((1 <= v)%Q \/ i = 0%nat) /\
    (i = 0%nat <-> (speed < 1024)%Q).
Proof.
  unfold format_speed. cbn [format_speed_loop List.length speed_units].
  destruct (Qle_bool 1024 speed) eqn:E0; cbn -[Qle_bool Qdiv nth].
  2:{ exists speed, 0%nat. split; [reflexivity|]. split; [lia|].
      split; [cbn; field|]. apply Qle_bool_false_lt in E0.
      repeat split; auto. }
  assert (N0 : ~ (speed < 1024)%Q)
    by (apply Qle_not_lt; now apply Qle_bool_iff).
  destruct (Qle_bool 1024 (speed / 1024)) eqn:E1; cbn -[Qle_bool Qdiv nth].
  2:{ exists (speed / 1024)%Q, 1%nat. split; [reflexivity|]. split; [lia|].
      split; [cbn; field|]. apply Qle_bool_false_lt in E1.
      split; [now left|]. split; [left; now apply one_le_div_1024|].
      split; [discriminate | contradiction]. }
  destruct (Qle_bool 1024 (speed / 1024 / 1024)) eqn:E2;
    cbn -[Qle_bool Qdiv nth].
  2:{ exists (speed / 1024 / 1024)%Q, 2%nat. split; [reflexivity|].
      split; [lia|]. split; [cbn; field|]. apply Qle_bool_false_lt in E2.
      split; [now left|]. split; [left; now apply one_le_div_1024|].
      split; [discriminate | contradiction]. }
  rewrite andb_false_r.
  exists (speed / 1024 / 1024 / 1024)%Q, 3%nat. split; [reflexivity|].
  split; [lia|]. split; [cbn; field|].
  split; [now right|]. split; [left; now apply one_le_div_1024|].
  split; [discriminate | contradiction].
Qed.

(** [format_size] divides by 1024 until the number is below 1024, at
    most four times: the number shown times [1024 ^ i] is the size, for
    the number [i] of divisions made.  It divides only a number that is
    at least 1024: a size below 1024, a negative one included, is shown
    as it is, and after a division the number shown is at least 1.
    With fewer than four divisions the unit shown is the [i]-th of B,
    KB, MB, GB and the number is below 1024.  A size of [1024 ^ 4]
    bytes or more is divided four times and still labelled [GB]: the
    number shown is then the size in units of [1024 ^ 4] bytes, not in
    GB. *)
Theorem format_size_scaling (bytes : Q) :
  exists i,
    (i <= 4)%nat /\
    (shown (format_size bytes) * inject_Z (1024 ^ Z.of_nat i) == bytes)%Q /\
    label (format_size bytes) = nth (Nat.min i 3) ["B"; "KB"; "MB"; "GB"] "" /\
    ((i < 4)%nat -> (shown (format_size bytes) < 1024)%Q) /\
    ((1 <= shown (format_size bytes))%Q \/ i = 0%nat) /\
    (i = 0%nat <-> (bytes < 1024)%Q) /\
    (i = 4%nat <-> (inject_Z (1024 ^ 4) <= bytes)%Q).
Proof.
  unfold format_size. cbn [format_size_loop].
  set (b1 := (bytes / 1024)%Q). set (b2 := (b1 / 1024)%Q).
  set (b3 := (b2 / 1024)%Q). set (b4 := (b3 / 1024)%Q).
  assert (H1 : (bytes == b1 * 1024)%Q) by (unfold b1; field).
  assert (H2 : (b1 == b2 * 1024)%Q) by (unfold b2; field).
  assert (H3 : (b2 == b3 * 1024)%Q) by (unfold b3; field).
  assert (H4 : (b3 == b4 * 1024)%Q) by (unfold b4; field).
  clearbody b1 b2 b3 b4.
  destruct (Qle_bool 1024 bytes) eqn:E0; cbn [negb];
    [apply Qle_bool_iff in E0 | apply Qle_bool_false_lt in E0].
  2:{ exists 0%nat. cbn. unfold inject_Z.
      repeat split; try lia; try lra; auto;
        first [left; lra | right; reflexivity]. }
  destruct (Qle_bool 1024 b1) eqn:E1; cbn [negb];
    [apply Qle_bool_iff in E1 | apply Qle_bool_false_lt in E1].
  2:{ exists 1%nat. cbn. unfold inject_Z.
      repeat split; try lia; try lra; auto;
        first [left; lra | right; reflexivity]. }
  destruct (Qle_bool 1024 b2) eqn:E2; cbn [negb];
    [apply Qle_bool_iff in E2 | apply Qle_bool_false_lt in E2].
  2:{ exists 2%nat. cbn. unfold inject_Z.
      repeat split; try lia; try lra; auto;
        first [left; lra | right; reflexivity]. }
  destruct (Qle_bool 1024 b3) eqn:E3; cbn [negb];
    [apply Qle_bool_iff in E3 | apply Qle_bool_false_lt in E3].
  2:{ exists 3%nat. cbn. unfold inject_Z.
      repeat split; try lia; try lra; auto;
        first [left; lra | right; reflexivity]. }
  exists 4%nat. cbn. unfold inject_Z.
  repeat split; try lia; try lra; auto; try (left; lra).
Qed.

End UtilsMoreFacts.

(** ** More on the worker's run *)

Module WorkerMoreFacts.
Import Worker WorkerSpec WorkerMoreSpec WorkerFacts.

Local Open Scope Z_scope.

(** *** Failure is reported by the outer handler only *)

Lemma unfailed_effect e r :
  is_loop_effect e = true -> unfailed r -> unfailed (effect e r).
Proof.
  intros He [Hs Ht]. split; [exact Hs|].
  cbn [trace effect]. rewrite signals_of_app, existsb_app, Ht.
  destruct e as [[]| | | |]; try discriminate; reflexivity.
Qed.

Lemma retry_loop_unfailed fuel env r :
  unfailed r -> unfailed (snd (retry_loop fuel env r)).
Proof.
  apply retry_loop_preserves.
  - exact unfailed_effect.
  - intros z r0 [Hs Ht]. split; assumption.
  - intros r0 [Hs Ht]. split; [discriminate | exact Ht].
  - intros r0 [Hs Ht]. split; [discriminate | exact Ht].
  - intros r0 [Hs Ht]. split; [discriminate | exact Ht].
  - intros r0 [Hs Ht]. split; [discriminate | exact Ht].
  - intros now d r0 w' s Eu [Hs Ht]. split; [|exact Ht].
    destruct (hook_update_frame _ _ _ _ _ Eu) as [_ [_ [_ [Hst _]]]].
    unfold final_status in *. cbn [worker upd_worker]. congruence.
  - intros r0 H. exact H.
  - intros r0 H. exact H.
Qed.

Section StaysCancelled.
Local Abbreviation Cancelled := (fun r : Run => cancelled r = true).

Lemma cancelled_progress now d r w' s :
  Hook._update_progress now [] d (worker r) = Hook.Updated w' s ->
  cancelled r = true -> cancelled (upd_worker (fun _ => w') r) = true.
Proof.
  intros Eu H.
  destruct (hook_update_frame _ _ _ _ _ Eu) as [_ [_ [_ [_ [Hc _]]]]].
  unfold cancelled in *. cbn [worker upd_worker]. congruence.
Qed.

Lemma retry_loop_stays_cancelled fuel env r :
  cancelled r = true -> cancelled (snd (retry_loop fuel env r)) = true.
Proof.
  apply (retry_loop_preserves Cancelled); cbv beta; auto;
    intros; eapply cancelled_progress; eauto.
Qed.

Lemma transfer_stays_cancelled a x :
  cancelled x = true ->
  cancelled (snd (match hook_calls a (ticks a) x with
                  | (Normal, r) => download_ends a r
                  | other => other
                  end)) = true.
Proof.
  apply (transfer_preserves Cancelled); cbv beta; auto;
    intros; eapply cancelled_progress; eauto.
Qed.

Lemma handler_stays_cancelled a r :
  cancelled (snd (attempt_body a r)) = true ->
  cancelled (snd (iteration a r)) = true.
Proof.
  apply (handler_preserves Cancelled); cbv beta; auto;
    intros; eapply cancelled_progress; eauto.
Qed.
End StaysCancelled.

Lemma run_try_unfailed env r :
  existsb is_error_signal (signals_of (trace r)) = false ->
  unfailed (snd (run_try env r)).
Proof.
  intros Ht. unfold run_try. cbv zeta.
  set (r1 := upd_worker (with_item (set_status downloading)) r).
  set (check := negb (ffmpeg_checked (worker r1)) && _needs_ffmpeg (item_options r1)).
  set (r2 := if check then upd_worker (with_ffmpeg (ffmpeg_found env)) r1 else r1).
  assert (H2 : unfailed r2).
  { subst r2 r1. destruct check; (split; [discriminate | exact Ht]). }
  destruct (check && negb (ffmpeg_available (worker r2))); cbn [snd]; [exact H2|].
  pose proof (retry_loop_unfailed (Z.to_nat max_attempts) env r2 H2) as H3.
  destruct (retry_loop (Z.to_nat max_attempts) env r2) as [fl r3].
  cbn [snd] in H3. unfold after_loop.
  destruct fl; [destruct (negb (success r3) && negb (cancelled r3))|..];
    exact H3.
Qed.

(** The outer handler of [run] is the one place where a failure is
    marked.  A run that emits no [download_error] does not leave the
    item in status [error]; and when [download_error] is emitted, it is
    emitted once, for the item's own URL, as the last signal before
    [worker_finished]. *)
Theorem error_reported_once env w :
  exists r,
    run env w = Some r /\
    ((existsb is_error_signal (signals r) = false /\ final_status r <> error) \/
     (exists pre,
         signals r = pre ++ [download_error (url (download_item w));
                             worker_finished (url (download_item w))] /\
         existsb is_error_signal pre = false)).
Proof.
  unfold run. set (r0 := initial_run env w).
  assert (Hu : item_url r0 = url (download_item w)).
  { subst r0. unfold initial_run, item_url. cbn [worker].
    destruct (cancelled_before_start env); reflexivity. }
  destruct (run_try_advances env r0 eq_refl) as [b [[_ _ A3 _ _ _ _] Hfl]].
  pose proof (run_try_unfailed env r0 eq_refl) as [Hs Ht].
  destruct (run_try env r0) as [fl r']. cbn [fst snd] in *.
  assert (Hquiet :
    existsb is_error_signal (signals (run_finally r')) = false /\
    final_status (run_finally r') <> error).
  { split; [|exact Hs].
    change (signals (run_finally r')) with (signals_of (trace (run_finally r'))).
    now rewrite trace_finally, signals_of_app, existsb_app, Ht. }
  unfold except_finally.
  destruct fl; try contradiction;
    try (eexists; split; [reflexivity | left; exact Hquiet]).
  - destruct (cancelled r'); cbn [negb];
      [eexists; split; [reflexivity | left; exact Hquiet]|].
    eexists. split; [reflexivity|]. right.
    exists (signals_of (trace r')). split; [|exact Ht].
    match goal with |- signals ?x = _ =>
      change (signals x) with (signals_of (trace x)) end.
    rewrite trace_finally. cbn [trace effect upd_worker].
    change (item_url (effect _ (upd_worker (with_item (set_status error)) r')))
      with (item_url r').
    change (item_url (upd_worker (with_item (set_status error)) r'))
      with (item_url r').
    rewrite A3, Hu, !signals_of_app. cbn. now rewrite <- app_assoc.
  - eexists. split; [reflexivity|]. left. split; [exact Ht | exact Hs].
Qed.

(** When FFmpeg is needed and not found, the run fails before any
    attempt: no probe, no transfer and no sleep take place, the item
    ends in [error], and the only signals are [download_error] and
    [worker_finished]. *)
Theorem missing_ffmpeg_fails_fast env w :
  cancelled_before_start env = false -> _is_cancelled w = false ->
  ffmpeg_checked w = false ->
  _needs_ffmpeg (options (download_item w)) = true ->
  ffmpeg_found env = false ->
  exists r,
    run env w = Some r /\ attempt r = 0 /\ final_status r = error /\
    trace r = [Emit (download_error (url (download_item w)));
               Emit (worker_finished (url (download_item w)))].
Proof.
  intros Hcb Hcw Hfc Hnf Hff.
  unfold run, run_try, initial_run. rewrite Hcb. cbv zeta.
  unfold item_options, upd_worker.
  cbn [worker with_item download_item set_status options ffmpeg_checked
       attempt success trace].
  rewrite Hfc, Hnf, Hff. cbn [negb andb with_ffmpeg ffmpeg_available worker].
  unfold except_finally, cancelled. cbn [worker _is_cancelled with_ffmpeg with_item].
  rewrite Hcw. cbn [negb].
  eexists. split; [reflexivity|]. repeat split.
Qed.

Lemma missing_ffmpeg_fails_fast_witness :
  exists r,
    run env_without_ffmpeg (sample_worker audio_options) = Some r /\
    attempt r = 0 /\ final_status r = error /\
    trace r = [Emit (download_error video_url);
               Emit (worker_finished video_url)].
Proof.
  exact (missing_ffmpeg_fails_fast env_without_ffmpeg (sample_worker audio_options)
           eq_refl eq_refl eq_refl eq_refl eq_refl).
Defined.

Lemma retry_loop_cancelled fuel env r :
  cancelled r = true -> retry_loop fuel env r = (Normal, r).
Proof.
  intros H. destruct fuel; cbn [retry_loop]; rewrite H;
    now rewrite andb_false_r.
Qed.

(** A worker cancelled before the pool starts it makes no attempt and
    reports no error; it emits [worker_finished] alone.  Its first
    statement overwrites the status [cancelled] that [cancel()] had
    set: the item is left with status [downloading]. *)
Theorem cancelled_before_start_does_nothing env w :
  cancelled_before_start env = true ->
  exists r,
    run env w = Some r /\ attempt r = 0 /\
    trace r = [Emit (worker_finished (url (download_item w)))] /\
    _is_cancelled (worker r) = true /\
    final_status r = downloading.
Proof.
  intros Hcb. unfold run, run_try, initial_run. rewrite Hcb. cbv zeta.
  set (r1 := upd_worker (with_item (set_status downloading)) _).
  set (check := negb (ffmpeg_checked (worker r1)) && _needs_ffmpeg (item_options r1)).
  set (r2 := if check then upd_worker (with_ffmpeg (ffmpeg_found env)) r1 else r1).
  assert (H2 : cancelled r2 = true /\ attempt r2 = 0 /\ trace r2 = [] /\
               final_status r2 = downloading /\
               item_url r2 = url (download_item w)).
  { subst r2 r1. destruct check; repeat split. }
  destruct H2 as [Hc [Ha [Ht [Hs Hu]]]].
  assert (Hend : exists r,
             Some (run_finally r2) = Some r /\ attempt r = 0 /\
             trace r = [Emit (worker_finished (url (download_item w)))] /\
             _is_cancelled (worker r) = true /\ final_status r = downloading).
  { eexists. split; [reflexivity|]. rewrite trace_finally, Ht, Hu.
    repeat split; assumption. }
  destruct (check && negb (ffmpeg_available (worker r2))).
  - unfold except_finally. rewrite Hc. exact Hend.
  - rewrite (retry_loop_cancelled _ _ _ Hc). unfold after_loop, except_finally.
    rewrite Hc, andb_false_r. exact Hend.
Qed.

Lemma cancelled_before_start_does_nothing_witness :
  exists r,
    run env_cancelled_early (sample_worker plain_options) = Some r /\
    attempt r = 0 /\
    trace r = [Emit (worker_finished video_url)] /\
    _is_cancelled (worker r) = true /\
    final_status r = downloading.
Proof.
  exact (cancelled_before_start_does_nothing env_cancelled_early
           (sample_worker plain_options) eq_refl).
Defined.

(** *** Cancellation ends the loop *)

Lemma cancel_call_cancelled r : cancelled (cancel_call r) = true.
Proof.
  unfold cancel_call. destruct (cancelled r) eqn:E; [exact E | reflexivity].
Qed.

(** With a [cancel()] still to come in the pass, the wait of the hook
    ends. *)
Lemma hook_wait_planned script r :
  fst (hook_wait (script ++ [[CallCancel]]) r) = true.
Proof.
  revert r. induction script as [|calls script IH]; intros r;
    cbn [app hook_wait];
    destruct (is_paused r && negb (cancelled r)); cbn [fst]; try reflexivity.
  - cbn [arrive_all fold_left arrive hook_wait].
    now rewrite cancel_call_cancelled, andb_false_r.
  - apply IH.
Qed.

Lemma hook_calls_planned a hs r :
  cancel_at a = Some AfterBody -> fst (hook_calls a hs r) <> Hang.
Proof.
  intros Hca. revert r. induction hs as [|h hs IH]; intros r;
    cbn [hook_calls]; [discriminate|].
  assert (H1 : fst (hook_call a h r) <> Hang).
  { unfold hook_call, planned_cancel. rewrite Hca. cbv zeta.
    destruct (Hook.tick_status (hook_tick h)); cbn [fst]; try discriminate.
    destruct (cancelled (arrive_all (calls_before h) r)); cbn [fst];
      try discriminate.
    pose proof (hook_wait_planned (calls_during h)
                  (arrive_all (calls_before h) r)) as Hw.
    destruct (hook_wait (calls_during h ++ [[CallCancel]])
                        (arrive_all (calls_before h) r)) as [left r2].
    cbn [fst] in Hw. subst left.
    destruct (Hook._update_progress (hook_now h) [] (hook_tick h) (worker r2));
      cbn [fst]; discriminate. }
  destruct (hook_call a h r) as [fl r1]. cbn [fst] in H1.
  destruct fl; cbn [fst]; try discriminate; auto.
Qed.

Lemma attempt_body_planned a r :
  cancel_at a = Some AfterBody -> fst (attempt_body a r) <> Hang.
Proof.
  intros Hca. unfold attempt_body. cbv zeta.
  destruct (probe_ok a); cbn [negb fst]; [|discriminate].
  match goal with |- context [if cancelled ?x then _ else _] =>
    destruct (cancelled x) end; cbn [fst]; [discriminate|].
  match goal with |- context [hook_calls a (ticks a) ?x] =>
    pose proof (hook_calls_planned a (ticks a) x Hca) as H2;
    destruct (hook_calls a (ticks a) x) as [fl r2] end.
  cbn [fst] in H2.
  destruct fl; cbn [fst]; try discriminate; try assumption.
  now destruct (download_ends_extends a r2) as [_ [_ [_ [_ [_ Hh]]]]].
Qed.

(** A pass during which [cancel()] takes place ends with the flag
    set. *)
Lemma iteration_cancel_lands a r :
  cancel_lands a = true -> cancelled (snd (iteration a r)) = true.
Proof.
  unfold cancel_lands.
  destruct (cancel_at a) as [[]|] eqn:Eca; try discriminate; intros Hl.
  - apply handler_stays_cancelled.
    unfold attempt_body, cancel_arrives. rewrite Eca. cbv zeta.
    destruct (probe_ok a); cbn [negb snd]; [|apply cancel_call_cancelled].
    match goal with |- context [if cancelled ?x then _ else _] =>
      assert (Hx : cancelled x = true) by exact (cancel_call_cancelled r);
      rewrite Hx end.
    exact Hx.
  - apply handler_stays_cancelled.
    unfold attempt_body, cancel_arrives. rewrite Eca, Hl. cbv zeta.
    cbn [negb].
    match goal with |- context [if cancelled ?x then _ else _] =>
      destruct (cancelled x) eqn:Ex end; [exact Ex|].
    apply transfer_stays_cancelled. apply cancel_call_cancelled.
  - unfold iteration.
    pose proof (attempt_body_planned a r Eca) as Hh.
    destruct (attempt_body a r) as [fl r1]. cbn [fst] in Hh.
    unfold cancel_arrives. rewrite Eca.
    destruct fl; cbn [snd]; try apply cancel_call_cancelled;
      [|contradiction].
    destruct (attempt (effect (LogError (attempt r1)) r1) =? max_attempts);
      cbn [snd]; apply cancel_call_cancelled.
Qed.

Lemma retry_loop_stops_at env k fuel r :
  cancel_lands (attempts env k) = true -> attempt r < k ->
  attempt (snd (retry_loop fuel env r)) <= k /\
  (attempt (snd (retry_loop fuel env r)) = k ->
   cancelled (snd (retry_loop fuel env r)) = true).
Proof.
  intros Hl. revert r. induction fuel as [|fuel IH]; intros r Hlt;
    cbn [retry_loop].
  - destruct ((attempt r <? max_attempts) && negb (success r) && negb (cancelled r));
      cbn [snd]; split; lia.
  - destruct (Z.ltb_spec (attempt r) max_attempts); cbn [andb];
      [|cbn [snd]; split; lia].
    destruct (negb (success r) && negb (cancelled r));
      [|cbn [snd]; split; lia].
    set (rn := next_attempt r).
    assert (Hn : attempt rn = attempt r + 1) by reflexivity.
    destruct (iteration_extends (attempts env (attempt rn)) rn) as [b [[Ea _ _ _] _]];
      [lia|].
    pose proof (iteration_cancel_lands (attempts env (attempt rn)) rn) as Hc.
    destruct (iteration (attempts env (attempt rn)) rn) as [fl r1].
    cbn [snd] in *.
    destruct (Z.eq_dec (attempt r + 1) k) as [Hk|Hk].
    + rewrite Hn, Hk in Hc. specialize (Hc Hl).
      destruct fl; cbn [snd]; try (split; [lia | intros _; exact Hc]).
      rewrite (retry_loop_cancelled _ _ _ Hc). cbn [snd].
      split; [lia | intros _; exact Hc].
    + destruct fl; cbn [snd]; try (split; lia).
      apply IH. lia.
Qed.

(** Once [cancel()] has taken place during attempt [k], no further
    attempt is started; and a run that reached that attempt ends with
    the cancel flag set, without the status [error] and without a
    [download_error]. *)
Theorem cancel_ends_the_loop env w k :
  1 <= k -> cancel_lands (attempts env k) = true ->
  exists r,
    run env w = Some r /\ attempt r <= k /\
    (attempt r = k ->
     _is_cancelled (worker r) = true /\ final_status r <> error /\
     existsb is_error_signal (signals r) = false).
Proof.
  intros Hk Hl. unfold run. set (r0 := initial_run env w).
  pose proof (run_try_unfailed env r0 eq_refl) as Hun.
  destruct (run_try_advances env r0 eq_refl) as [_ [_ Hfl]].
  assert (Hstop : attempt (snd (run_try env r0)) <= k /\
                  (attempt (snd (run_try env r0)) = k ->
                   cancelled (snd (run_try env r0)) = true)).
  { unfold run_try. cbv zeta.
    set (r1 := upd_worker (with_item (set_status downloading)) r0).
    set (check := negb (ffmpeg_checked (worker r1)) && _needs_ffmpeg (item_options r1)).
    set (r2 := if check then upd_worker (with_ffmpeg (ffmpeg_found env)) r1 else r1).
    assert (H2 : attempt r2 = 0) by (subst r2; destruct check; reflexivity).
    destruct (check && negb (ffmpeg_available (worker r2))); cbn [snd];
      [split; lia|].
    destruct (retry_loop_stops_at env k (Z.to_nat max_attempts) r2 Hl) as [Hle Hc];
      [lia|].
    destruct (retry_loop (Z.to_nat max_attempts) env r2) as [fl r3].
    cbn [snd] in *. unfold after_loop.
    destruct fl; [destruct (negb (success r3) && negb (cancelled r3))|..];
      cbn [snd]; split; assumption. }
  destruct (run_try env r0) as [fl r']. cbn [fst snd] in *.
  destruct Hstop as [Hle Hc]. destruct Hun as [Hs Ht].
  assert (Hplain : exists r,
             Some (run_finally r') = Some r /\ attempt r <= k /\
             (attempt r = k ->
              _is_cancelled (worker r) = true /\ final_status r <> error /\
              existsb is_error_signal (signals r) = false)).
  { eexists. split; [reflexivity|]. split; [exact Hle|].
    intros Hk'. split; [exact (Hc Hk')|]. split; [exact Hs|].
    change (signals (run_finally r')) with (signals_of (trace (run_finally r'))).
    now rewrite trace_finally, signals_of_app, existsb_app, Ht. }
  unfold except_finally.
  destruct fl; try contradiction; try exact Hplain.
  - destruct (cancelled r') eqn:Hcr; cbn [negb]; [exact Hplain|].
    eexists. split; [reflexivity|]. split; [exact Hle|].
    intros Hk'. cbn [attempt run_finally effect upd_worker] in Hk'.
    specialize (Hc Hk'). congruence.
  - eexists. split; [reflexivity|]. split; [exact Hle|].
    intros Hk'. split; [exact (Hc Hk')|]. split; [exact Hs | exact Ht].
Qed.

Lemma cancel_ends_the_loop_witness :
  exists r,
    run env_cancelled_in_backoff (sample_worker plain_options) = Some r /\
    attempt r = 1 /\ sleeps r = [5] /\
    _is_cancelled (worker r) = true /\ final_status r <> error /\
    existsb is_error_signal (signals r) = false.
Proof.
  destruct (cancel_ends_the_loop env_cancelled_in_backoff
              (sample_worker plain_options) 1) as [r [E [_ H]]];
    [lia | reflexivity |].
  exists r. split; [exact E|].
  assert (Er : attempt r = 1 /\ sleeps r = [5]).
  { vm_compute in E. injection E as <-. split; reflexivity. }
  destruct Er as [Ea Es]. split; [exact Ea|]. split; [exact Es|].
  exact (H Ea).
Defined.

(** A job paused during the first transfer and cancelled later: the
    call ends the wait of the hook, the transfer goes on to its end,
    and the loop ends with the cancel flag set. *)
Example cancelled_while_paused :
  option_map (fun r => (stuck r, _is_cancelled (worker r), attempt r,
                        hook_sleeps r, signals r))
    (run env_paused_then_cancelled (sample_worker plain_options))
  = Some (false, true, 1, 3%nat,
          [metadata_received video_url; progress_updated video_url;
           worker_finished video_url]).
Proof. reflexivity. Qed.

End WorkerMoreFacts.

(** ** More on the manager *)

Module ManagerMoreFacts.
Import Manager ManagerSpec ManagerMoreSpec ManagerFacts.

Local Open Scope Z_scope.

(** *** Dicts *)

Lemma dict_mem_keys {V} k (d : Dict.t V) :
  Dict.mem k d = true <-> In k (Dict.keys d).
Proof.
  induction d as [|[k0 v0] d IH]; cbn; [split; [discriminate | intros []]|].
  rewrite orb_true_iff, IH, String.eqb_eq. tauto.
Qed.

Lemma dict_keys_set {V} k (v : V) d :
  Dict.keys (Dict.set k v d)
  = if Dict.mem k d then Dict.keys d else Dict.keys d ++ [k].
Proof.
  unfold Dict.keys. induction d as [|[k0 v0] d IH]; cbn; [reflexivity|].
  destruct (String.eqb k0 k) eqn:E; cbn; [reflexivity|].
  rewrite IH. destruct (Dict.mem k d); reflexivity.
Qed.

Lemma dict_nodup_set {V} k (v : V) d :
  NoDup (Dict.keys d) -> NoDup (Dict.keys (Dict.set k v d)).
Proof.
  intros H. rewrite dict_keys_set. destruct (Dict.mem k d) eqn:M; [exact H|].
  apply NoDup_app; [exact H | repeat constructor; intros [] |].
  intros x Hx [<-|[]]. apply dict_mem_keys in Hx. congruence.
Qed.

Lemma dict_keys_del_incl {V} k (d : Dict.t V) x :
  In x (Dict.keys (Dict.del k d)) -> In x (Dict.keys d).
Proof.
  induction d as [|[k0 v0] d IH]; cbn; [auto|].
  destruct (String.eqb k0 k); cbn; [auto | intros [H|H]; auto].
Qed.

Lemma dict_nodup_del {V} k (d : Dict.t V) :
  NoDup (Dict.keys d) -> NoDup (Dict.keys (Dict.del k d)).
Proof.
  induction d as [|[k0 v0] d IH]; cbn; [auto|].
  intros H. inversion H as [|? ? Hn Hd]; subst.
  destruct (String.eqb k0 k); cbn; [exact Hd|].
  constructor; [|auto]. intros Hin. apply Hn.
  now apply dict_keys_del_incl in Hin.
Qed.

Lemma dict_length_set {V} k (v : V) d :
  (List.length (Dict.set k v d) <= S (List.length d))%nat.
Proof.
  induction d as [|[k0 v0] d IH]; cbn; [lia|].
  destruct (String.eqb k0 k); cbn; lia.
Qed.

Lemma dict_length_del_le {V} k (d : Dict.t V) :
  (List.length (Dict.del k d) <= List.length d)%nat.
Proof.
  induction d as [|[k0 v0] d IH]; cbn; [lia|].
  destruct (String.eqb k0 k); cbn; lia.
Qed.

(** *** An admission round *)

Lemma start_next_from_round q m :
  download_queue m = q ->
  let m' := start_next_from q m in
  admission_done m' /\
  (exists k, started m' = started m ++ firstn k (map url q) /\
             download_queue m' = skipn k q) /\
  Z.of_nat (List.length (active_downloads m'))
    <= Z.max (Z.of_nat (List.length (active_downloads m))) (maxThreadCount m) /\
  (NoDup (Dict.keys (active_downloads m)) ->
   NoDup (Dict.keys (active_downloads m'))) /\
  maxThreadCount m' = maxThreadCount m.
Proof.
  revert m. induction q as [|it rest IH]; intros m Hq; cbn [start_next_from].
  - cbv zeta. split; [left; exact Hq|]. split.
    + exists 0%nat. cbn. now rewrite app_nil_r.
    + split; [lia | auto].
  - destruct (Z.ltb_spec (Z.of_nat (List.length (active_downloads m)))
                         (maxThreadCount m)) as [Hlt|Hge].
    2:{ cbv zeta. split; [right; exact Hge|]. split.
        - exists 0%nat. cbn. now rewrite app_nil_r.
        - split; [lia | auto]. }
    match goal with |- context [start_next_from rest ?x] => set (m1 := x) end.
    assert (Ea : active_downloads m1
                 = Dict.set (url it) (new_worker (clock m) it) (active_downloads m))
      by reflexivity.
    assert (El : maxThreadCount m1 = maxThreadCount m) by reflexivity.
    assert (Es : started m1 = started m ++ [url it]) by reflexivity.
    destruct (IH m1 eq_refl) as [Hd [[k [Hs Hk]] [Hb [Hn Hl]]]].
    clearbody m1.
    cbv zeta. split; [exact Hd|]. split; [|split; [|split]].
    + exists (S k). rewrite Hs, Hk, Es. cbn. now rewrite <- app_assoc.
    + rewrite Ea, El in Hb.
      pose proof (dict_length_set (url it) (new_worker (clock m) it)
                    (active_downloads m)). lia.
    + intros Hnd. apply Hn. rewrite Ea. now apply dict_nodup_set.
    + rewrite Hl. exact El.
Qed.

(** An admission round starts workers for a prefix of the backlog, in
    backlog order, and leaves the rest waiting; it stops only when the
    backlog is empty or the active set is at the limit; and it never
    takes the active set above the limit, unless it was above already. *)
Theorem admission_round_is_fifo m :
  let m' := start_next_download m in
  admission_done m' /\
  (exists k, started m' = started m ++ firstn k (queue_urls m) /\
             download_queue m' = skipn k (download_queue m)) /\
  Z.of_nat (List.length (active_downloads m'))
    <= Z.max (Z.of_nat (List.length (active_downloads m))) (maxThreadCount m).
Proof.
  destruct (start_next_from_round (download_queue m) m eq_refl)
    as [Hd [Hk [Hb _]]].
  cbv zeta. split; [exact Hd|]. split; [exact Hk | exact Hb].
Qed.

(** *** The invariant *)

Lemma start_next_download_keeps m :
  Z.of_nat (List.length (active_downloads m)) <= maxThreadCount m ->
  keys_unique m -> invariant (start_next_download m).
Proof.
  intros Hle [Ha Hp].
  destruct (start_next_from_round (download_queue m) m eq_refl)
    as [_ [_ [Hb [Hn Hl]]]].
  destruct (start_next_download_admits m) as [_ _ P _ _ _ _ _ _].
  cbv zeta in *. fold (start_next_download m) in *.
  split; [unfold within_limit; rewrite Hl; lia|].
  split; [now apply Hn | now rewrite P].
Qed.

Lemma dict_first_key_mem {V} (d : Dict.t V) k :
  Dict.first_key d = Some k -> exists v, Dict.get k d = Some v.
Proof.
  destruct d as [|[k0 v0] d]; cbn; [discriminate|].
  intros [= <-]. rewrite String.eqb_refl. eauto.
Qed.

(** Pausing an entry of an active set that is at most one over the
    limit brings the manager back within the limit. *)
Lemma pause_download_keeps u m w :
  Dict.get u (active_downloads m) = Some w ->
  Z.of_nat (List.length (active_downloads m)) <= maxThreadCount m + 1 ->
  keys_unique m -> invariant (pause_download u m).
Proof.
  intros Hget Hle [Ha Hp]. unfold pause_download. rewrite Hget.
  match goal with |- invariant (start_next_download ?x) => set (m1 := x) end.
  assert (Ea : active_downloads m1 = Dict.del u (active_downloads m)) by reflexivity.
  assert (Ep : paused_downloads m1
               = Dict.set u (worker_pause w) (paused_downloads m)) by reflexivity.
  assert (El : maxThreadCount m1 = maxThreadCount m) by reflexivity.
  clearbody m1.
  assert (Hmem : Dict.mem u (active_downloads m) = true)
    by (apply dict_mem_get; eauto).
  pose proof (dict_length_del u _ Hmem) as Hlen.
  apply start_next_download_keeps.
  - rewrite Ea, El. lia.
  - split; [rewrite Ea; now apply dict_nodup_del
           | rewrite Ep; now apply dict_nodup_set].
Qed.

Lemma invariant_emit s m : invariant m -> invariant (emit s m).
Proof. intros H. exact H. Qed.

(** Whatever the arguments, submitting, pausing, resuming and
    cancelling keep the active set within the limit and the keys of
    both dicts unique, provided the manager was so before.  (Lowering
    the limit in the settings is the one operation that can leave more
    active entries than the limit.) *)
Theorem operations_keep_invariant m :
  invariant m ->
  (forall urls o, invariant (add_download urls o m)) /\
  (forall u, invariant (pause_download u m)) /\
  (forall u, invariant (resume_download u m)) /\
  (forall u, invariant (cancel_download u m)) /\
  (forall text o, invariant (MainWindow.start_download text o m)).
Proof.
  intros [Hw [Ha Hp]].
  assert (Hadd : forall urls o, invariant (add_download urls o m)).
  { intros urls o. unfold add_download. cbv zeta. rewrite enqueue_all.
    apply invariant_emit. apply start_next_download_keeps; [exact Hw|].
    split; assumption. }
  split; [exact Hadd|]. split; [|split; [|split]].
  - intros u. destruct (Dict.get u (active_downloads m)) as [w|] eqn:Hget.
    + apply (pause_download_keeps u m w Hget); [unfold within_limit in Hw; lia|].
      split; assumption.
    + unfold pause_download. rewrite Hget. repeat split; assumption.
  - intros u. unfold resume_download.
    destruct (Dict.get u (paused_downloads m)) as [w|] eqn:Hget;
      [|repeat split; assumption].
    match goal with |- invariant (if _ then _ else ?x) => set (m1 := x) end.
    assert (Ea : active_downloads m1
                 = Dict.set u (worker_resume w) (active_downloads m)) by reflexivity.
    assert (Ep : paused_downloads m1 = Dict.del u (paused_downloads m)) by reflexivity.
    assert (El : maxThreadCount m1 = maxThreadCount m) by reflexivity.
    clearbody m1.
    assert (Hk : keys_unique m1).
    { split; [rewrite Ea; now apply dict_nodup_set
             | rewrite Ep; now apply dict_nodup_del]. }
    pose proof (dict_length_set u (worker_resume w) (active_downloads m)) as Hlen.
    destruct (Z.gtb_spec (Z.of_nat (List.length (active_downloads m1)))
                         (maxThreadCount m1)) as [Hgt|Hle].
    + destruct (Dict.first_key (active_downloads m1)) as [k|] eqn:Hfk.
      * destruct (dict_first_key_mem _ _ Hfk) as [wk Hwk].
        apply (pause_download_keeps k m1 wk Hwk); [|exact Hk].
        rewrite Ea, El. unfold within_limit in Hw. lia.
      * rewrite Ea in Hfk. destruct (active_downloads m) as [|[k0 v0] d];
          cbn in Hfk; [discriminate|].
        destruct (String.eqb k0 u); discriminate.
    + split; [exact Hle | exact Hk].
  - intros u. unfold cancel_download.
    destruct (Dict.get u (active_downloads m)) as [w|] eqn:Hget.
    + match goal with |- context [start_next_download ?x] => set (m1 := x) end.
      assert (Hi : invariant (start_next_download m1)).
      { apply start_next_download_keeps.
        - subst m1. cbn [active_downloads maxThreadCount set_active emit].
          pose proof (dict_length_del_le u (active_downloads m)).
          unfold within_limit in Hw. lia.
        - subst m1. split; [now apply dict_nodup_del | exact Hp]. }
      exact Hi.
    + destruct (Dict.get u (paused_downloads m)) as [w|] eqn:Hgp.
      * split; [exact Hw|]. split; [exact Ha | now apply dict_nodup_del].
      * repeat split; assumption.
  - intros text o. unfold MainWindow.start_download. cbv zeta.
    match goal with |- invariant (match ?l with _ => _ end) => destruct l end;
      [repeat split; assumption | apply Hadd].
Qed.

Lemma operations_keep_invariant_witness :
  invariant (resume_download url_a one_paused_one_active) /\
  invariant (cancel_download url_b one_paused_one_active).
Proof.
  assert (H : invariant one_paused_one_active).
  { split; [vm_compute; discriminate|].
    split; vm_compute; repeat constructor; intros []. }
  destruct (operations_keep_invariant one_paused_one_active H)
    as [_ [_ [Hr [Hc _]]]].
  split; [apply Hr | apply Hc].
Defined.

(** *** Cancelling *)

Lemma filter_untracked u q :
  existsb (fun it => String.eqb (url it) u) q = false ->
  filter (fun item => negb (String.eqb (url item) u)) q = q.
Proof.
  induction q as [|it q IH]; cbn; [reflexivity|].
  intros H. apply orb_false_iff in H. destruct H as [-> H]. cbn.
  now rewrite IH.
Qed.

Lemma filtered_untracked u q :
  existsb (fun it => String.eqb (url it) u)
          (filter (fun item => negb (String.eqb (url item) u)) q) = false.
Proof.
  induction q as [|it q IH]; cbn; [reflexivity|].
  destruct (String.eqb (url it) u) eqn:E; cbn; [exact IH|].
  now rewrite E.
Qed.

Lemma untracked_parts u m :
  tracked u m = false <->
  existsb (fun it => String.eqb (url it) u) (download_queue m) = false /\
  Dict.get u (active_downloads m) = None /\
  Dict.get u (paused_downloads m) = None.
Proof.
  unfold tracked. rewrite !orb_false_iff.
  assert (G : forall d : Dict.t DownloadWorker,
             Dict.mem u d = false <-> Dict.get u d = None).
  { intros d. split; [|apply dict_get_none_mem].
    intros H. destruct (Dict.get u d) eqn:E; [|reflexivity].
    assert (Dict.mem u d = true) by (apply dict_mem_get; eauto). congruence. }
  rewrite !G. tauto.
Qed.

Lemma cancel_download_untracked u m :
  tracked u m = false ->
  cancel_download u m
  = emit (queue_updated (List.length (download_queue m))) m.
Proof.
  intros H. apply untracked_parts in H. destruct H as [Hq [Ha Hp]].
  unfold cancel_download. rewrite Ha, Hp, (filter_untracked _ _ Hq).
  now rewrite set_queue_same.
Qed.

(** Cancelling a URL the manager does not track changes nothing; the
    call only emits [queue_updated] with the backlog length. *)
Theorem cancel_unknown_url u m :
  tracked u m = false ->
  cancel_download u m
  = emit (queue_updated (List.length (download_queue m))) m.
Proof.
  exact (cancel_download_untracked u m).
Qed.

Lemma cancel_unknown_url_witness :
  cancel_download url_c one_paused_one_active
  = emit (queue_updated 0) one_paused_one_active.
Proof.
  exact (cancel_unknown_url url_c one_paused_one_active eq_refl).
Defined.

(** After [cancel_download] the URL is tracked nowhere, and a second
    call changes nothing more (it only emits [queue_updated] again),
    provided the dicts have unique keys and the URL, if active, was
    neither paused nor waiting as well. *)
Theorem cancel_is_idempotent u m :
  keys_unique m -> owned_once u m ->
  tracked u (cancel_download u m) = false /\
  cancel_download u (cancel_download u m)
  = emit (queue_updated (List.length (download_queue (cancel_download u m))))
         (cancel_download u m).
Proof.
  intros [Hka Hkp] Hown.
  assert (Ht : tracked u (cancel_download u m) = false).
  { unfold tracked, cancel_download.
    destruct (Dict.get u (active_downloads m)) as [w|] eqn:Ha.
    - assert (Hmem : Dict.mem u (active_downloads m) = true)
        by (apply dict_mem_get; eauto).
      destruct (Hown Hmem) as [Hnp Hnq].
      match goal with |- context [start_next_download ?x] => set (m1 := x) end.
      destruct (start_next_download_admits m1) as [_ _ P _ _ _ _ _ B].
      cbn [download_queue active_downloads paused_downloads set_queue emit].
      rewrite filtered_untracked, P. cbn [orb].
      subst m1. cbn [paused_downloads set_active emit]. rewrite Hnp, orb_false_r.
      match goal with |- ?x = false => destruct x eqn:M end; [|reflexivity].
      destruct (B u M) as [H|H].
      + cbn [active_downloads set_active emit] in H.
        now rewrite dict_del_not_mem in H.
      + contradiction.
    - apply dict_get_none_mem in Ha.
      destruct (Dict.get u (paused_downloads m)) as [w|] eqn:Hp;
        cbn [download_queue active_downloads paused_downloads set_queue
             set_paused emit];
        rewrite filtered_untracked, Ha; cbn [orb].
      + now apply dict_del_not_mem.
      + now apply dict_get_none_mem. }
  split; [exact Ht | now apply cancel_download_untracked].
Qed.

Lemma cancel_is_idempotent_witness :
  tracked url_a (cancel_download url_a one_paused_one_active) = false /\
  cancel_download url_a (cancel_download url_a one_paused_one_active)
  = emit (queue_updated 0) (cancel_download url_a one_paused_one_active).
Proof.
  apply (cancel_is_idempotent url_a one_paused_one_active).
  - split; vm_compute; repeat constructor; intros [].
  - intros H. vm_compute in H. discriminate H.
Defined.

(** *** Status lookup *)

(** [get_download_status] answers [None] exactly for a URL that is in
    none of the backlog, the active set and the paused set; for a URL
    that is only waiting in the backlog it answers [queued]. *)
Theorem status_of_untracked u m :
  (get_download_status u m = None <-> tracked u m = false) /\
  (Dict.mem u (active_downloads m) = false ->
   Dict.mem u (paused_downloads m) = false ->
   In u (queue_urls m) ->
   get_download_status u m = Some queued).
Proof.
  unfold get_download_status. split.
  - rewrite untracked_parts.
    destruct (Dict.get u (active_downloads m)) as [wa|];
      [split; [discriminate | intros [_ [H _]]; discriminate]|].
    destruct (Dict.get u (paused_downloads m)) as [wp|];
      [split; [discriminate | intros [_ [_ H]]; discriminate]|].
    destruct (existsb (fun item => String.eqb (url item) u) (download_queue m));
      split; try discriminate; auto. intros [H _]. discriminate.
  - intros Ha Hp Hq.
    destruct (Dict.get u (active_downloads m)) as [wa|] eqn:Ea.
    { assert (Dict.mem u (active_downloads m) = true)
        by (apply dict_mem_get; eauto). congruence. }
    destruct (Dict.get u (paused_downloads m)) as [wp|] eqn:Ep.
    { assert (Dict.mem u (paused_downloads m) = true)
        by (apply dict_mem_get; eauto). congruence. }
    unfold queue_urls in Hq. apply in_map_iff in Hq.
    destruct Hq as [it [Hu Hin]].
    assert (existsb (fun item => String.eqb (url item) u) (download_queue m) = true)
      as ->; [|reflexivity].
    apply existsb_exists. exists it. split; [exact Hin|].
    now apply String.eqb_eq.
Qed.

Lemma status_of_untracked_witness :
  get_download_status url_b one_active_one_waiting = Some queued.
Proof.
  apply (proj2 (status_of_untracked url_b one_active_one_waiting));
    [reflexivity | reflexivity | left; reflexivity].
Defined.

(** *** Ownership of a URL *)

(** The manager does not keep a URL in one place only.  A valid URL
    that is paused and submitted again while a slot is free and nothing
    waits is started a second time: it is then in the active set and in
    the paused set at once. *)
Theorem paused_url_resubmitted u o m :
  Dict.mem u (paused_downloads m) = true ->
  Utils.validate_url u = true ->
  download_queue m = [] ->
  Z.of_nat (List.length (active_downloads m)) < maxThreadCount m ->
  let m' := add_download [u] o m in
  Dict.mem u (active_downloads m') = true /\
  Dict.mem u (paused_downloads m') = true /\
  started m' = started m ++ [u] /\
  download_queue m' = [].
Proof.
  intros Hp Hv Hq Hlt. cbv zeta. unfold add_download.
  cbn [filter]. rewrite Hv. cbn [fold_left]. rewrite Hq. cbn [app].
  unfold start_next_download.
  cbn [download_queue set_queue start_next_from active_downloads maxThreadCount].
  destruct (Z.ltb_spec (Z.of_nat (List.length (active_downloads m)))
                       (maxThreadCount m)); [|lia].
  cbn. rewrite dict_mem_set, String.eqb_refl. auto.
Qed.

Lemma paused_url_resubmitted_witness :
  let m := MainWindow.save_settings 2 one_paused_one_active in
  let m' := add_download [url_a] default_options m in
  Dict.mem url_a (active_downloads m') = true /\
  Dict.mem url_a (paused_downloads m') = true /\
  started m' = started m ++ [url_a] /\
  download_queue m' = [].
Proof.
  apply (paused_url_resubmitted url_a default_options
           (MainWindow.save_settings 2 one_paused_one_active));
    try reflexivity.
Defined.

(** *** Pause and resume *)

Lemma dict_get_set_same {V} k (v : V) d : Dict.get k (Dict.set k v d) = Some v.
Proof.
  induction d as [|[k0 v0] d IH]; cbn; [now rewrite String.eqb_refl|].
  destruct (String.eqb k0 k) eqn:E; cbn; now rewrite E.
Qed.


(** Pausing an active job frees its slot at once: the worker is moved
    to the paused set with its pause flag set and status [paused], and
    with the active set within the limit the head of the backlog is
    started in its place. *)
Theorem pause_frees_a_slot u m w h rest :
  Dict.get u (active_downloads m) = Some w ->
  download_queue m = h :: rest ->
  within_limit m ->
  let m' := pause_download u m in
  (exists more, started m' = started m ++ url h :: more) /\
  Dict.mem (url h) (active_downloads m') = true /\
  Dict.get u (paused_downloads m') = Some (worker_pause w) /\
  _is_paused (worker_pause w) = true /\
  status (download_item (worker_pause w)) = paused /\
  progress (download_item (worker_pause w)) = progress (download_item w).
Proof.
  intros Hget Hq Hw. cbv zeta. unfold pause_download. rewrite Hget.
  match goal with |- context [start_next_download ?x] => set (m1 := x) end.
  assert (Hmem : Dict.mem u (active_downloads m) = true)
    by (apply dict_mem_get; eauto).
  assert (Hlt : Z.of_nat (List.length (active_downloads m1)) < maxThreadCount m1).
  { subst m1. cbn [active_downloads maxThreadCount set_active set_paused emit].
    pose proof (dict_length_del u _ Hmem). unfold within_limit in Hw. lia. }
  destruct (start_next_download_head m1 h rest Hq Hlt) as [S A].
  destruct (start_next_download_admits m1) as [_ _ P _ _ _ _ _ _].
  split; [exact S|]. split; [exact A|]. split.
  - rewrite P. subst m1. cbn [paused_downloads set_active set_paused emit].
    apply dict_get_set_same.
  - repeat split.
Qed.

Lemma pause_frees_a_slot_witness :
  let m' := pause_download url_a one_active_one_waiting in
  (exists more, started m' = started one_active_one_waiting ++ url_b :: more) /\
  Dict.mem url_b (active_downloads m') = true /\
  Dict.get url_a (paused_downloads m')
  = Some (worker_pause (new_worker 0 (new_item url_a default_options))).
Proof.
  cbv zeta.
  destruct (pause_frees_a_slot url_a one_active_one_waiting
              (new_worker 0 (new_item url_a default_options))
              (new_item url_b default_options) [] eq_refl eq_refl)
    as [S [A [G _]]].
  - vm_compute. discriminate.
  - split; [exact S|]. split; [exact A | exact G].
Defined.



End ManagerMoreFacts.

(** ** Submission from the window *)

Module MainWindowFacts.
Import PyStr Manager ManagerSpec ManagerFacts.

Lemma lstrip_all_space s :
  forallb_str is_space s = true -> lstrip is_space s = EmptyString.
Proof.
  induction s as [|c s IH]; cbn; [reflexivity|].
  intros H. apply andb_true_iff in H. destruct H as [-> H]. auto.
Qed.

Lemma strip_all_space s :
  forallb_str is_space s = true -> strip s = EmptyString.
Proof. intros H. unfold strip. now rewrite lstrip_all_space. Qed.

Lemma split_on_all sep (f : ascii -> bool) s :
  forallb_str f s = true ->
  Forall (fun field => forallb_str f field = true) (split_on sep s).
Proof.
  induction s as [|c s IH]; cbn; [repeat constructor|].
  intros H. apply andb_true_iff in H. destruct H as [Hc H].
  specialize (IH H).
  destruct (Ascii.eqb c sep); [constructor; [reflexivity | exact IH]|].
  destruct (split_on sep s) as [|field fields];
    [repeat constructor; cbn; now rewrite Hc|].
  inversion IH as [|? ? Hf Hfs]; subst.
  constructor; [cbn; now rewrite Hc, Hf | exact Hfs].
Qed.

Lemma blank_lines_dropped fields :
  Forall (fun field => forallb_str is_space field = true) fields ->
  filter (fun url => negb (String.eqb (strip url) "")) fields = [].
Proof.
  induction 1 as [|field fields Hf _ IH]; cbn; [reflexivity|].
  now rewrite (strip_all_space _ Hf), IH.
Qed.

(** [start_download] on a text made of whitespace only (empty lines,
    spaces, tabs) leaves the manager as it is: nothing is submitted and
    no signal is emitted.  In general the jobs it creates are those of
    the lines that validate, stripped of surrounding whitespace, in
    their order, blank lines left out. *)
Theorem start_download_blank_and_lines text o m :
  (forallb_str is_space text = true ->
   MainWindow.start_download text o m = m) /\
  jobs (MainWindow.start_download text o m)
  = jobs m ++
    filter Utils.validate_url
      (map strip
         (filter (fun url => negb (String.eqb (strip url) ""))
                 (split_on "010" text))).
Proof.
  unfold MainWindow.start_download. cbv zeta. split.
  - intros H.
    now rewrite (blank_lines_dropped _ (split_on_all "010" is_space text H)).
  - destruct (map strip
                (filter (fun url => negb (String.eqb (strip url) ""))
                        (split_on "010" text))) as [|u urls] eqn:E.
    + cbn. now rewrite app_nil_r.
    + apply add_download_spec.
Qed.

Lemma start_download_blank_and_lines_witness :
  MainWindow.start_download (String "010" (String " " (String "009" "")))
    default_options one_active_one_waiting
  = one_active_one_waiting.
Proof.
  apply (proj1 (start_download_blank_and_lines
                  (String "010" (String " " (String "009" "")))
                  default_options one_active_one_waiting)).
  reflexivity.
Defined.

Example start_download_strips_lines :
  jobs (MainWindow.start_download
          ("  https://youtu.be/a  " ++ String "010" ("" ++ String "010" "not a url"))
          default_options (manager_with_limit 1))
  = ["https://youtu.be/a"].
Proof. reflexivity. Qed.

End MainWindowFacts.

(** ** Scheduled downloads *)

Module ScheduleFacts.
Import Manager MainWindow ManagerSpec ManagerFacts ScheduleSpec.

Local Open Scope Z_scope.

Lemma start_scheduled_download_jobs s m :
  jobs (start_scheduled_download s m)
  = jobs m ++ filter Utils.validate_url
                (match sched_options s with Some _ => sched_urls s | None => [] end).
Proof.
  unfold start_scheduled_download.
  destruct (sched_urls s) as [|u urls] eqn:E.
  - destruct (sched_options s); cbn; now rewrite app_nil_r.
  - destruct (sched_options s) as [o|]; [|cbn; now rewrite app_nil_r].
    apply add_download_spec.
Qed.

Lemma check_entry_jobs add_day now entry m :
  jobs (snd (check_entry add_day now entry m))
  = jobs m ++ filter Utils.validate_url (submitted_urls now entry).
Proof.
  unfold check_entry, submitted_urls, due.
  destruct entry as [s|]; [|cbn; now rewrite app_nil_r].
  destruct (sched_completed s); [cbn; now rewrite app_nil_r|].
  destruct (sched_time s) as [t|]; [|cbn; now rewrite app_nil_r].
  cbn [negb andb]. destruct (t <=? now); [|cbn; now rewrite app_nil_r].
  destruct (sched_repeat s); cbn [snd]; apply start_scheduled_download_jobs.
Qed.

(** A check of the schedules submits, in the order of the list, the
    URLs of the entries that are due (not completed, with a valid time
    that has come) and whose options are a dict; of these the valid
    ones become jobs.  Entries that are not dicts, completed entries,
    entries with an unreadable time and entries in the future submit
    nothing.  The list keeps its length. *)
Theorem check_submits_due_schedules add_day now schedules m :
  jobs (snd (check_scheduled_downloads add_day now schedules m))
  = jobs m ++ filter Utils.validate_url (flat_map (submitted_urls now) schedules) /\
  List.length (fst (check_scheduled_downloads add_day now schedules m))
  = List.length schedules.
Proof.
  revert m. induction schedules as [|entry rest IH]; intros m;
    cbn [check_scheduled_downloads flat_map].
  - cbn. now rewrite app_nil_r.
  - pose proof (check_entry_jobs add_day now entry m) as He.
    destruct (check_entry add_day now entry m) as [entry' m1]. cbn [snd] in He.
    destruct (IH m1) as [Hj Hl].
    destruct (check_scheduled_downloads add_day now rest m1) as [rest' m2].
    cbn [fst snd] in *. split; [|cbn [List.length]; now rewrite Hl].
    now rewrite Hj, He, filter_app, app_assoc.
Qed.

Lemma check_entry_settled add_day now entry m :
  at_most_a_day_late add_day now entry ->
  due now (fst (check_entry add_day now entry m)) = false.
Proof.
  unfold check_entry, due, at_most_a_day_late.
  destruct entry as [s|]; [|reflexivity].
  destruct (sched_completed s) eqn:Ec; [cbn; now rewrite Ec|].
  destruct (sched_time s) as [t|] eqn:Et; [|cbn; now rewrite Ec, Et].
  destruct (Z.leb_spec t now) as [Hle|Hgt].
  - destruct (sched_repeat s) eqn:Er; cbn; [|reflexivity].
    intros H. rewrite Ec. cbn.
    specialize (H eq_refl eq_refl t eq_refl Hle).
    apply Z.leb_gt. exact H.
  - intros _. cbn. rewrite Ec, Et. cbn. now apply Z.leb_gt.
Qed.

Lemma check_entry_not_due add_day now entry m :
  due now entry = false -> check_entry add_day now entry m = (entry, m).
Proof.
  unfold check_entry, due. destruct entry as [s|]; [|reflexivity].
  destruct (sched_completed s); [reflexivity|].
  destruct (sched_time s) as [t|]; [|reflexivity].
  cbn. now intros ->.
Qed.

Lemma check_entry_checked add_day now entry m :
  fst (check_entry add_day now entry m) = checked add_day now entry.
Proof.
  unfold check_entry, checked, due. destruct entry as [s|]; [|reflexivity].
  destruct (sched_completed s); cbn [negb andb];
    [destruct (sched_time s); reflexivity|].
  destruct (sched_time s) as [t|]; [|reflexivity].
  destruct (t <=? now); [|reflexivity].
  destruct (sched_repeat s); reflexivity.
Qed.

Lemma check_scheduled_downloads_checked add_day now schedules m :
  fst (check_scheduled_downloads add_day now schedules m)
  = map (checked add_day now) schedules.
Proof.
  revert m. induction schedules as [|entry rest IH]; intros m;
    cbn [check_scheduled_downloads map]; [reflexivity|].
  pose proof (check_entry_checked add_day now entry m) as He.
  destruct (check_entry add_day now entry m) as [entry' m1]. cbn [fst] in He.
  specialize (IH m1).
  destruct (check_scheduled_downloads add_day now rest m1) as [rest' m2].
  cbn [fst] in *. now rewrite He, IH.
Qed.

Lemma check_twice add_day now schedules m :
  Forall (at_most_a_day_late add_day now) schedules ->
  check_scheduled_downloads add_day now
    (fst (check_scheduled_downloads add_day now schedules m))
    (snd (check_scheduled_downloads add_day now schedules m))
  = check_scheduled_downloads add_day now schedules m.
Proof.
  revert m.
  induction schedules as [|entry rest IH]; intros m H;
    cbn [check_scheduled_downloads]; [reflexivity|].
  inversion H as [|? ? He Hr]; subst.
  pose proof (check_entry_settled add_day now entry m He) as Hs.
  destruct (check_entry add_day now entry m) as [entry' m1]. cbn [fst] in Hs.
  specialize (IH m1 Hr).
  destruct (check_scheduled_downloads add_day now rest m1) as [rest' m2] eqn:E.
  cbn [fst snd] in *. cbn [check_scheduled_downloads].
  rewrite (check_entry_not_due add_day now entry' m2 Hs).
  now rewrite IH.
Qed.

(** A check leaves every entry of the list as [checked] describes: a
    due entry that does not repeat is marked completed, a due entry
    that repeats is moved one day on, any other entry is unchanged.  So
    a second check at the same time does nothing, provided no repeating
    entry is more than a day late: run on the list and the manager the
    first check left, it returns them as they are, submitting nothing
    and changing no entry. *)
Theorem second_check_does_nothing add_day now schedules m :
  Forall (at_most_a_day_late add_day now) schedules ->
  let first := check_scheduled_downloads add_day now schedules m in
  fst first = map (checked add_day now) schedules /\
  check_scheduled_downloads add_day now (fst first) (snd first) = first.
Proof.
  intros H. cbv zeta. split.
  - apply check_scheduled_downloads_checked.
  - now apply check_twice.
Qed.

Lemma second_check_does_nothing_witness :
  Forall (at_most_a_day_late next_day 2500) sample_schedules /\
  fst (check_scheduled_downloads next_day 2500 sample_schedules
         (manager_with_limit 3))
  = map (checked next_day 2500) sample_schedules /\
  check_scheduled_downloads next_day 2500
    (fst (check_scheduled_downloads next_day 2500 sample_schedules
            (manager_with_limit 3)))
    (snd (check_scheduled_downloads next_day 2500 sample_schedules
            (manager_with_limit 3)))
  = check_scheduled_downloads next_day 2500 sample_schedules
      (manager_with_limit 3).
Proof.
  assert (H : Forall (at_most_a_day_late next_day 2500) sample_schedules).
  { repeat constructor; cbn; unfold next_day; intros; try discriminate;
      repeat match goal with H : Some _ = Some _ |- _ =>
                                 injection H as <- end; lia. }
  split; [exact H|].
  exact (second_check_does_nothing next_day 2500 sample_schedules
           (manager_with_limit 3) H).
Defined.

End ScheduleFacts.
